(** * Software rasterizer core: pixel shader, rectangle, line and triangle
    rasterizers and their dispatch tables.

    Conventions of the embedding.
    - Integers are [Z].  Unsigned arithmetic and every conversion between
      integer types wrap, and the wrap is written out ([u32], [u64], [s32],
      [s64], [Truncate8], [Truncate16]).  The [s32] sums, differences and
      products of positions in [DrawRectangle], [DrawSpan], [DrawTriangle],
      [CALCIS] and [DrawLine], which overflow for positions near the ends of
      the [s32] range, wrap to 32 bits as the compiled code does; that wrap
      is written out too ([s32], and [abs32] for [std::abs]).  Two signed
      computations are written without a wrap because they cannot leave the
      [s32] range: the row counter [yi] of a triangle half, which moves
      between two [s32] vertex rows, and the product
      [CALCIS(a, b) * (1 << COORD_FBS)], which is formed only after the size
      tests of [DrawTriangle] ([gradient_product_exact]).
    - C++ [/] on signed operands truncates toward zero: it is [Z.quot].
    - VRAM is the global array [g_vram] of 16-bit words, here a function from
      the word index [VRAM_WIDTH * y + x] (computed in [u32]) to the word.
    - The rasterizers never read VRAM to decide control flow.  Each
      rasterizer loop is embedded as the sequence of [ShadePixel] invocations
      it performs, in order ([*_calls]); the effect of the primitive on VRAM
      is that sequence run in order ([run_calls]). *)

From Stdlib Require Import ZArith List Bool Lia Permutation Sorted.
Import ListNotations.
Local Open Scope Z_scope.

(** ** Fixed-width integers *)

Definition Truncate8 (z : Z) : Z := z mod 2 ^ 8.
Definition Truncate16 (z : Z) : Z := z mod 2 ^ 16.
Definition u32 (z : Z) : Z := z mod 2 ^ 32.
Definition u64 (z : Z) : Z := z mod 2 ^ 64.
Definition s32 (z : Z) : Z := (z + 2 ^ 31) mod 2 ^ 32 - 2 ^ 31.
Definition s64 (z : Z) : Z := (z + 2 ^ 63) mod 2 ^ 64 - 2 ^ 63.

(** [std::abs] on an [s32]: the negation wraps like the other [s32]
    operations, so the result for [-2^31] is [-2^31]. *)
Definition abs32 (z : Z) : Z := s32 (Z.abs z).

(** ** Constants *)

(** Modelled from the spec: the constants of gpu_types.h (section 6,
    Constants).  They are unsigned, so a comparison of an [s32] with one of
    them converts the [s32] to [u32]. *)
Definition VRAM_WIDTH : Z := 1024.
Definition VRAM_HEIGHT : Z := 512.
Definition MAX_PRIMITIVE_WIDTH : Z := 1024.
Definition MAX_PRIMITIVE_HEIGHT : Z := 512.

Definition Line_XY_FractBits : Z := 32.
Definition Line_RGB_FractBits : Z := 12.
Definition COORD_FBS : Z := 12.
Definition COORD_POST_PADDING : Z := 12.
Definition COORD_MF_INT (n : Z) : Z := Z.shiftl n COORD_FBS.

(** Modelled from the spec: [TruncateGPUVertexPosition] is declared outside
    this file; positions are sign-extended from 11 bits (section 3). *)
Definition TruncateGPUVertexPosition (x : Z) : Z := (x + 2 ^ 10) mod 2 ^ 11 - 2 ^ 10.

(** ** Data model *)

Inductive GPUTextureMode := Palette4Bit | Palette8Bit | Direct16Bit.

(** The four cases of the blend switch; its [default: break] arm has no mode
    of its own in the data model. *)
Inductive GPUTransparencyMode :=
| HalfBackgroundPlusHalfForeground
| BackgroundPlusForeground
| BackgroundMinusForeground
| BackgroundPlusQuarterForeground.

(** The part of [GPUBackendDrawCommand] the rasterizer reads.  The accessors
    [draw_mode.GetTexturePageBaseX()], [palette.GetXBase()],
    [params.GetMaskAND()] and the like are declared elsewhere; the record
    holds the values they return. *)
Record GPUBackendDrawCommand := {
  texture_mode : GPUTextureMode;
  transparency_mode : GPUTransparencyMode;
  TexturePageBaseX : Z;
  TexturePageBaseY : Z;
  PaletteXBase : Z;
  PaletteYBase : Z;
  window_and_x : Z;
  window_and_y : Z;
  window_or_x : Z;
  window_or_y : Z;
  interlaced_rendering : bool;
  active_line_lsb : Z;
  MaskAND : Z;
  MaskOR : Z
}.

Record GPUBackendDrawSpriteCommand := {
  sprite_cmd : GPUBackendDrawCommand;
  sprite_x : Z;
  sprite_y : Z;
  sprite_width : Z;
  sprite_height : Z;
  sprite_color : Z;
  sprite_texcoord : Z
}.

(** [GPUBackendDrawPolygonCommand::Vertex]. *)
Record Vertex := {
  vx : Z; vy : Z;
  vr : Z; vg : Z; vb : Z;
  vu : Z; vv : Z
}.

(** [GPUBackendDrawLineCommand::Vertex]. *)
Record LineVertex := {
  lx : Z; ly : Z;
  lr : Z; lg : Z; lb : Z
}.

(** [g_drawing_area]: unsigned fields, compared after [static_cast<s32>]. *)
Record DrawingArea := {
  da_left : Z; da_top : Z; da_right : Z; da_bottom : Z
}.

(** [g_dither_lut[y][x][value]]. *)
Definition DitherLUT := Z -> Z -> Z -> Z.

Definition VRAM := Z -> Z.

Definition pixel_index (x y : Z) : Z := u32 (VRAM_WIDTH * y + x).

Definition GetPixel (vram : VRAM) (x y : Z) : Z := vram (pixel_index x y).

Definition SetPixel (vram : VRAM) (x y value : Z) : VRAM :=
  fun i => if i =? pixel_index x y then Truncate16 value else vram i.

Definition UnpackTexcoord (texcoord : Z) : Z * Z :=
  (Truncate8 texcoord, Truncate8 (Z.shiftr texcoord 8)).

Definition UnpackColorRGB24 (rgb24 : Z) : Z * Z * Z :=
  (Truncate8 rgb24, Truncate8 (Z.shiftr rgb24 8), Truncate8 (Z.shiftr rgb24 16)).

(** The arguments of one [ShadePixel] invocation. *)
Record PixelCall := {
  pc_x : Z; pc_y : Z;
  pc_r : Z; pc_g : Z; pc_b : Z;
  pc_u : Z; pc_v : Z
}.

(** ** Pixel shader *)

(** Texture window, then the [switch (cmd->draw_mode.texture_mode)]. *)
Definition texture_color (cmd : GPUBackendDrawCommand) (vram : VRAM)
    (texcoord_x texcoord_y : Z) : Z :=
  let texcoord_x := Truncate8 (Z.lor (Z.land texcoord_x (window_and_x cmd)) (window_or_x cmd)) in
  let texcoord_y := Truncate8 (Z.lor (Z.land texcoord_y (window_and_y cmd)) (window_or_y cmd)) in
  match texture_mode cmd with
  | Palette4Bit =>
      let palette_value :=
        GetPixel vram (u32 (TexturePageBaseX cmd + texcoord_x / 4) mod VRAM_WIDTH)
                      (u32 (TexturePageBaseY cmd + texcoord_y) mod VRAM_HEIGHT) in
      let palette_index := Z.land (Z.shiftr palette_value ((texcoord_x mod 4) * 4)) 15 in
      GetPixel vram (u32 (PaletteXBase cmd + palette_index) mod VRAM_WIDTH) (PaletteYBase cmd)
  | Palette8Bit =>
      let palette_value :=
        GetPixel vram (u32 (TexturePageBaseX cmd + texcoord_x / 2) mod VRAM_WIDTH)
                      (u32 (TexturePageBaseY cmd + texcoord_y) mod VRAM_HEIGHT) in
      let palette_index := Z.land (Z.shiftr palette_value ((texcoord_x mod 2) * 8)) 255 in
      GetPixel vram (u32 (PaletteXBase cmd + palette_index) mod VRAM_WIDTH) (PaletteYBase cmd)
  | Direct16Bit =>
      GetPixel vram (u32 (TexturePageBaseX cmd + texcoord_x) mod VRAM_WIDTH)
                    (u32 (TexturePageBaseY cmd + texcoord_y) mod VRAM_HEIGHT)
  end.

(** The [switch (cmd->draw_mode.transparency_mode)], on the zero-extended
    foreground and background words; the result is the [u16] stored back in
    [color]. *)
Definition blend (mode : GPUTransparencyMode) (fg_bits bg_bits : Z) : Z :=
  match mode with
  | HalfBackgroundPlusHalfForeground =>
      let bg_bits := Z.lor bg_bits 0x8000 in
      Truncate16 (Z.shiftr (u32 (u32 (fg_bits + bg_bits)
                                 - Z.land (Z.lxor fg_bits bg_bits) 0x0421)) 1)
  | BackgroundPlusForeground =>
      let bg_bits := Z.land bg_bits 0xFFFF7FFF in
      let sum := u32 (fg_bits + bg_bits) in
      let carry := Z.land (u32 (sum - Z.land (Z.lxor fg_bits bg_bits) 0x8421)) 0x8420 in
      Truncate16 (Z.lor (u32 (sum - carry)) (u32 (carry - Z.shiftr carry 5)))
  | BackgroundMinusForeground =>
      let bg_bits := Z.lor bg_bits 0x8000 in
      let fg_bits := Z.land fg_bits 0xFFFF7FFF in
      let diff := u32 (bg_bits - fg_bits + 0x108420) in
      let borrow := Z.land (u32 (diff - Z.land (Z.lxor bg_bits fg_bits) 0x108420)) 0x108420 in
      Truncate16 (Z.land (u32 (diff - borrow)) (u32 (borrow - Z.shiftr borrow 5)))
  | BackgroundPlusQuarterForeground =>
      let bg_bits := Z.land bg_bits 0xFFFF7FFF in
      let fg_bits := Z.lor (Z.land (Z.shiftr fg_bits 2) 0x1CE7) 0x8000 in
      let sum := u32 (fg_bits + bg_bits) in
      let carry := Z.land (u32 (sum - Z.land (Z.lxor fg_bits bg_bits) 0x8421)) 0x8420 in
      Truncate16 (Z.lor (u32 (sum - carry)) (u32 (carry - Z.shiftr carry 5)))
  end.

(** One 5-bit colour channel of a packed word: 0 red, 1 green, 2 blue. *)
Definition channel (c : Z) (w : Z) : Z := Z.land (Z.shiftr w (5 * c)) 31.

Section PixelShader.

Variable g_dither_lut : DitherLUT.

(** What [ShadePixel] computes before it touches the destination pixel:
    [None] when the texel is zero (the early [return]), else the [u16]
    foreground colour. *)
Definition shade_color
    (texture_enable raw_texture_enable transparency_enable dithering_enable : bool)
    (cmd : GPUBackendDrawCommand) (vram : VRAM)
    (x y color_r color_g color_b texcoord_x texcoord_y : Z) : option Z :=
  let dither_y := if dithering_enable then Z.land y 3 else 2 in
  let dither_x := if dithering_enable then Z.land x 3 else 3 in
  if texture_enable then
    let texture_color := texture_color cmd vram texcoord_x texcoord_y in
    if texture_color =? 0 then None
    else if raw_texture_enable then Some texture_color
    else
      Some (Truncate16
        (Z.lor (Z.lor (Z.lor
          (Z.shiftl (g_dither_lut dither_y dither_x
                       (Z.shiftr (Z.land texture_color 0x1F * color_r) 4)) 0)
          (Z.shiftl (g_dither_lut dither_y dither_x
                       (Z.shiftr (Z.land (Z.shiftr texture_color 5) 0x1F * color_g) 4)) 5))
          (Z.shiftl (g_dither_lut dither_y dither_x
                       (Z.shiftr (Z.land (Z.shiftr texture_color 10) 0x1F * color_b) 4)) 10))
          (Z.land texture_color 0x8000)))
  else
    Some (Truncate16
      (Z.lor (Z.lor (Z.lor
        (Z.shiftl (g_dither_lut dither_y dither_x color_r) 0)
        (Z.shiftl (g_dither_lut dither_y dither_x color_g) 5))
        (Z.shiftl (g_dither_lut dither_y dither_x color_b) 10))
        (if transparency_enable then 0x8000 else 0))).

(** The [if constexpr (transparency_enable)] block. *)
Definition apply_transparency (texture_enable transparency_enable : bool)
    (cmd : GPUBackendDrawCommand) (color bg_color : Z) : Z :=
  if transparency_enable then
    if negb (Z.land color 0x8000 =? 0) || negb texture_enable then
      let color := blend (transparency_mode cmd) color bg_color in
      if negb texture_enable then Truncate16 (Z.land color 0xFFFF7FFF) else color
    else color
  else color.

Definition ShadePixel
    (texture_enable raw_texture_enable transparency_enable dithering_enable : bool)
    (cmd : GPUBackendDrawCommand)
    (x y color_r color_g color_b texcoord_x texcoord_y : Z) (vram : VRAM) : VRAM :=
  match shade_color texture_enable raw_texture_enable transparency_enable
          dithering_enable cmd vram x y color_r color_g color_b texcoord_x texcoord_y with
  | None => vram
  | Some color =>
      let bg_color := GetPixel vram x y in
      let color := apply_transparency texture_enable transparency_enable cmd color bg_color in
      if negb (Z.land bg_color (MaskAND cmd) =? 0) then vram
      else SetPixel vram x y (Z.lor color (MaskOR cmd))
  end.

(** Running the [ShadePixel] invocations of a primitive in order. *)
Definition run_calls
    (texture_enable raw_texture_enable transparency_enable dithering_enable : bool)
    (cmd : GPUBackendDrawCommand) (calls : list PixelCall) (vram : VRAM) : VRAM :=
  fold_left
    (fun vram c =>
       ShadePixel texture_enable raw_texture_enable transparency_enable
         dithering_enable cmd (u32 (pc_x c)) (u32 (pc_y c))
         (pc_r c) (pc_g c) (pc_b c) (pc_u c) (pc_v c) vram)
    calls vram.

End PixelShader.

(** ** Rasterizers *)

(** [for (u32 i = 0; i < n; i++)]: the values [i] takes. *)
Definition zrange (n : Z) : list Z := map Z.of_nat (seq 0 (Z.to_nat n)).

(** [cmd->params.interlaced_rendering &&
     cmd->params.active_line_lsb == (Truncate8(static_cast<u32>(y)) & 1u)]. *)
Definition interlace_skip (cmd : GPUBackendDrawCommand) (y : Z) : bool :=
  interlaced_rendering cmd && (active_line_lsb cmd =? Z.land (Truncate8 (u32 y)) 1).

Definition MakePolyXFP (x : Z) : Z :=
  s64 (u64 (u64 (Z.shiftl (u64 x) 32) + (2 ^ 32 - 2 ^ 11))).

Definition MakePolyXFPStep (dx dy : Z) : Z :=
  let dx_ex := s64 (u64 (Z.shiftl (u64 dx) 32)) in
  let dx_ex := if dx_ex <? 0 then dx_ex - (dy - 1) else dx_ex in
  let dx_ex := if dx_ex >? 0 then dx_ex + (dy - 1) else dx_ex in
  Z.quot dx_ex dy.

(** The argument is converted to [s64] at the call, the result to [s32]. *)
Definition GetPolyXFP_Int (xfp : Z) : Z := s32 (Z.shiftr (s64 xfp) 32).

Record i_deltas := {
  du_dx : Z; dv_dx : Z;
  dr_dx : Z; dg_dx : Z; db_dx : Z;
  du_dy : Z; dv_dy : Z;
  dr_dy : Z; dg_dy : Z; db_dy : Z
}.

Record i_group := {
  ig_u : Z; ig_v : Z;
  ig_r : Z; ig_g : Z; ig_b : Z
}.

Record line_fxp_coord := {
  cur_x : Z; cur_y : Z;
  cur_r : Z; cur_g : Z; cur_b : Z
}.

Record line_fxp_step := {
  dx_dk : Z; dy_dk : Z;
  dr_dk : Z; dg_dk : Z; db_dk : Z
}.

(** The macro [CALCIS(x, y)] for the vertices [A], [B], [C]: every
    difference and product is an [s32]. *)
Definition CALCIS (fx fy : Vertex -> Z) (A B C : Vertex) : Z :=
  s32 (s32 (s32 (fx B - fx A) * s32 (fy C - fy B))
       - s32 (s32 (fx C - fx B) * s32 (fy B - fy A))).

(** The division inside one gradient of [CalcIDeltas]:
    [CALCIS(a, b) * (1 << COORD_FBS) / denom]. *)
Definition gradient_quotient (fx fy : Vertex -> Z) (A B C : Vertex) (denom : Z) : Z :=
  Z.quot (CALCIS fx fy A B C * Z.shiftl 1 COORD_FBS) denom.

(** One gradient of [CalcIDeltas]:
    [(u32)(CALCIS(a, b) * (1 << COORD_FBS) / denom) << COORD_POST_PADDING]. *)
Definition gradient (fx fy : Vertex -> Z) (A B C : Vertex) (denom : Z) : Z :=
  u32 (Z.shiftl (u32 (gradient_quotient fx fy A B C denom)) COORD_POST_PADDING).

(** Fields the source leaves unset for a disabled feature are 0 here; they
    are never read. *)
Definition CalcIDeltas (shading_enable texture_enable : bool) (A B C : Vertex)
    : option i_deltas :=
  let denom := CALCIS vx vy A B C in
  if denom =? 0 then None
  else Some {|
    du_dx := if texture_enable then gradient vu vy A B C denom else 0;
    dv_dx := if texture_enable then gradient vv vy A B C denom else 0;
    dr_dx := if shading_enable then gradient vr vy A B C denom else 0;
    dg_dx := if shading_enable then gradient vg vy A B C denom else 0;
    db_dx := if shading_enable then gradient vb vy A B C denom else 0;
    du_dy := if texture_enable then gradient vx vu A B C denom else 0;
    dv_dy := if texture_enable then gradient vx vv A B C denom else 0;
    dr_dy := if shading_enable then gradient vx vr A B C denom else 0;
    dg_dy := if shading_enable then gradient vx vg A B C denom else 0;
    db_dy := if shading_enable then gradient vx vb A B C denom else 0
  |}.

Definition AddIDeltas_DX (shading_enable texture_enable : bool)
    (ig : i_group) (idl : i_deltas) (count : Z) : i_group :=
  let count := u32 count in
  {| ig_u := if texture_enable then u32 (ig_u ig + du_dx idl * count) else ig_u ig;
     ig_v := if texture_enable then u32 (ig_v ig + dv_dx idl * count) else ig_v ig;
     ig_r := if shading_enable then u32 (ig_r ig + dr_dx idl * count) else ig_r ig;
     ig_g := if shading_enable then u32 (ig_g ig + dg_dx idl * count) else ig_g ig;
     ig_b := if shading_enable then u32 (ig_b ig + db_dx idl * count) else ig_b ig |}.

Definition AddIDeltas_DY (shading_enable texture_enable : bool)
    (ig : i_group) (idl : i_deltas) (count : Z) : i_group :=
  let count := u32 count in
  {| ig_u := if texture_enable then u32 (ig_u ig + du_dy idl * count) else ig_u ig;
     ig_v := if texture_enable then u32 (ig_v ig + dv_dy idl * count) else ig_v ig;
     ig_r := if shading_enable then u32 (ig_r ig + dr_dy idl * count) else ig_r ig;
     ig_g := if shading_enable then u32 (ig_g ig + dg_dy idl * count) else ig_g ig;
     ig_b := if shading_enable then u32 (ig_b ig + db_dy idl * count) else ig_b ig |}.

Definition LineDivide (delta dk : Z) : Z :=
  let delta := s64 (u64 (Z.shiftl (u64 delta) Line_XY_FractBits)) in
  let delta := if delta <? 0 then delta - (dk - 1) else delta in
  let delta := if delta >? 0 then delta + (dk - 1) else delta in
  Z.quot delta dk.

(** A colour step of [DrawLine]:
    [(s32)((u32)(p1->c - p0->c) << Line_RGB_FractBits) / k]. *)
Definition line_color_step (c0 c1 k : Z) : Z :=
  Z.quot (s32 (u32 (Z.shiftl (u32 (c1 - c0)) Line_RGB_FractBits))) k.

(** The vertex sort at the head of [DrawTriangle]: the three pointers after
    the swaps, and [core_vertex]. *)
Definition swap_bits_1_2 (cvtemp : Z) : Z :=
  Z.lor (Z.lor (Z.land (Z.shiftr cvtemp 1) 2) (Z.land (Z.shiftl cvtemp 1) 4))
        (Z.land cvtemp 1).

Definition swap_bits_0_1 (cvtemp : Z) : Z :=
  Z.lor (Z.lor (Z.land (Z.shiftr cvtemp 1) 1) (Z.land (Z.shiftl cvtemp 1) 2))
        (Z.land cvtemp 4).

Definition sort_vertices (v0 v1 v2 : Vertex) : Vertex * Vertex * Vertex * Z :=
  let cvtemp :=
    if vx v1 <=? vx v0 then
      (if vx v2 <=? vx v1 then Z.shiftl 1 2 else Z.shiftl 1 1)
    else if vx v2 <? vx v0 then Z.shiftl 1 2
    else Z.shiftl 1 0 in
  let '(v1, v2, cvtemp) :=
    if vy v2 <? vy v1 then (v2, v1, swap_bits_1_2 cvtemp) else (v1, v2, cvtemp) in
  let '(v0, v1, cvtemp) :=
    if vy v1 <? vy v0 then (v1, v0, swap_bits_0_1 cvtemp) else (v0, v1, cvtemp) in
  let '(v1, v2, cvtemp) :=
    if vy v2 <? vy v1 then (v2, v1, swap_bits_1_2 cvtemp) else (v1, v2, cvtemp) in
  (v0, v1, v2, Z.shiftr cvtemp 1).

(** [vertices[i]] of the local array [{v0, v1, v2}]. *)
Definition vertex_at (vertices : Vertex * Vertex * Vertex) (i : Z) : Vertex :=
  let '(v0, v1, v2) := vertices in
  if i =? 0 then v0 else if i =? 1 then v1 else v2.

Record TriangleHalf := {
  x_coord : bool -> Z;
  x_step : bool -> Z;
  y_coord : Z;
  y_bound : Z;
  dec_mode : bool
}.

(** [a[i] = v] on a two-element array indexed by a [bool]. *)
Definition set2 (a : bool -> Z) (i : bool) (v : Z) : bool -> Z :=
  fun j => if Bool.eqb j i then v else a j.

Section Rasterizers.

Variable g_drawing_area : DrawingArea.

(** [static_cast<s32>(g_drawing_area.left)] and the like. *)
Definition area_left : Z := s32 (da_left g_drawing_area).
Definition area_top : Z := s32 (da_top g_drawing_area).
Definition area_right : Z := s32 (da_right g_drawing_area).
Definition area_bottom : Z := s32 (da_bottom g_drawing_area).

(** *** Rectangles *)

Definition DrawRectangle_calls (cmd : GPUBackendDrawSpriteCommand) : list PixelCall :=
  let origin_x := sprite_x cmd in
  let origin_y := sprite_y cmd in
  let '(r, g, b) := UnpackColorRGB24 (sprite_color cmd) in
  let '(origin_texcoord_x, origin_texcoord_y) := UnpackTexcoord (sprite_texcoord cmd) in
  flat_map
    (fun offset_y =>
       let y := s32 (origin_y + s32 offset_y) in
       if (y <? area_top) || (y >? area_bottom) || interlace_skip (sprite_cmd cmd) y
       then []
       else
         let texcoord_y := Truncate8 (origin_texcoord_y + offset_y) in
         flat_map
           (fun offset_x =>
              let x := s32 (origin_x + s32 offset_x) in
              if (x <? area_left) || (x >? area_right) then []
              else
                let texcoord_x := Truncate8 (origin_texcoord_x + offset_x) in
                [ {| pc_x := x; pc_y := y; pc_r := r; pc_g := g; pc_b := b;
                     pc_u := texcoord_x; pc_v := texcoord_y |} ])
           (zrange (sprite_width cmd)))
    (zrange (sprite_height cmd)).

(** *** Triangles *)

(** The [do ... while (--w > 0)] of [DrawSpan]: [w] iterations; [x++] is on
    an [s32]. *)
Fixpoint span_loop (shading_enable texture_enable : bool) (y : Z) (idl : i_deltas)
    (w : nat) (x : Z) (ig : i_group) : list PixelCall :=
  match w with
  | O => []
  | S w' =>
      let r := Z.shiftr (ig_r ig) (COORD_FBS + COORD_POST_PADDING) in
      let g := Z.shiftr (ig_g ig) (COORD_FBS + COORD_POST_PADDING) in
      let b := Z.shiftr (ig_b ig) (COORD_FBS + COORD_POST_PADDING) in
      let u := Z.shiftr (ig_u ig) (COORD_FBS + COORD_POST_PADDING) in
      let v := Z.shiftr (ig_v ig) (COORD_FBS + COORD_POST_PADDING) in
      {| pc_x := x; pc_y := y;
         pc_r := Truncate8 r; pc_g := Truncate8 g; pc_b := Truncate8 b;
         pc_u := Truncate8 u; pc_v := Truncate8 v |}
      :: span_loop shading_enable texture_enable y idl w' (s32 (x + 1))
           (AddIDeltas_DX shading_enable texture_enable ig idl 1)
  end.

Definition DrawSpan_calls (shading_enable texture_enable : bool)
    (cmd : GPUBackendDrawCommand) (y x_start x_bound : Z)
    (ig : i_group) (idl : i_deltas) : list PixelCall :=
  if interlace_skip cmd y then []
  else
    let x_ig_adjust := x_start in
    let w := s32 (x_bound - x_start) in
    let x := TruncateGPUVertexPosition x_start in
    let '(x_ig_adjust, x, w) :=
      if x <? area_left then
        let delta := s32 (area_left - x) in
        (s32 (x_ig_adjust + delta), s32 (x + delta), s32 (w - delta))
      else (x_ig_adjust, x, w) in
    let w :=
      if s32 (x + w) >? s32 (area_right + 1)
      then s32 (s32 (area_right + 1) - x) else w in
    if w <=? 0 then []
    else
      let ig := AddIDeltas_DX shading_enable texture_enable ig idl x_ig_adjust in
      let ig := AddIDeltas_DY shading_enable texture_enable ig idl y in
      span_loop shading_enable texture_enable y idl (Z.to_nat w) x ig.

(** The [while (yi > yb)] loop of a half in decrement mode; [n] is the
    number of times its condition holds, [yi - yb]. *)
Fixpoint dec_loop (shading_enable texture_enable : bool) (cmd : GPUBackendDrawCommand)
    (ig : i_group) (idl : i_deltas) (ls rs : Z)
    (n : nat) (yi lc rc : Z) : list PixelCall :=
  match n with
  | O => []
  | S n' =>
      let yi := yi - 1 in
      let lc := u64 (lc - ls) in
      let rc := u64 (rc - rs) in
      let y := TruncateGPUVertexPosition yi in
      if y <? area_top then []
      else
        (if y >? area_bottom then []
         else DrawSpan_calls shading_enable texture_enable cmd yi
                (GetPolyXFP_Int lc) (GetPolyXFP_Int rc) ig idl)
        ++ dec_loop shading_enable texture_enable cmd ig idl ls rs n' yi lc rc
  end.

(** The [while (yi < yb)] loop of a half in increment mode; [n] is [yb - yi]. *)
Fixpoint inc_loop (shading_enable texture_enable : bool) (cmd : GPUBackendDrawCommand)
    (ig : i_group) (idl : i_deltas) (ls rs : Z)
    (n : nat) (yi lc rc : Z) : list PixelCall :=
  match n with
  | O => []
  | S n' =>
      let y := TruncateGPUVertexPosition yi in
      if y >? area_bottom then []
      else
        (if y >=? area_top then
           DrawSpan_calls shading_enable texture_enable cmd yi
             (GetPolyXFP_Int lc) (GetPolyXFP_Int rc) ig idl
         else [])
        ++ inc_loop shading_enable texture_enable cmd ig idl ls rs n'
             (yi + 1) (u64 (lc + ls)) (u64 (rc + rs))
  end.

(** One iteration of [for (u32 i = 0; i < 2; i++)] over [tripart]. *)
Definition half_calls (shading_enable texture_enable : bool) (cmd : GPUBackendDrawCommand)
    (ig : i_group) (idl : i_deltas) (tp : TriangleHalf) : list PixelCall :=
  let yi := y_coord tp in
  let yb := y_bound tp in
  let lc := x_coord tp false in
  let ls := x_step tp false in
  let rc := x_coord tp true in
  let rs := x_step tp true in
  if dec_mode tp then
    dec_loop shading_enable texture_enable cmd ig idl ls rs (Z.to_nat (yi - yb)) yi lc rc
  else
    inc_loop shading_enable texture_enable cmd ig idl ls rs (Z.to_nat (yb - yi)) yi lc rc.

Definition DrawTriangle_calls (shading_enable texture_enable : bool)
    (cmd : GPUBackendDrawCommand) (v0 v1 v2 : Vertex) : list PixelCall :=
  let '(v0, v1, v2, core_vertex) := sort_vertices v0 v1 v2 in
  if vy v0 =? vy v2 then []
  else if (u32 (abs32 (s32 (vx v2 - vx v0))) >=? MAX_PRIMITIVE_WIDTH)
       || (u32 (abs32 (s32 (vx v2 - vx v1))) >=? MAX_PRIMITIVE_WIDTH)
       || (u32 (abs32 (s32 (vx v1 - vx v0))) >=? MAX_PRIMITIVE_WIDTH)
       || (u32 (s32 (vy v2 - vy v0)) >=? MAX_PRIMITIVE_HEIGHT)
  then []
  else
    let base_coord := MakePolyXFP (vx v0) in
    let base_step := MakePolyXFPStep (s32 (vx v2 - vx v0)) (s32 (vy v2 - vy v0)) in
    let '(bound_coord_us, right_facing) :=
      if vy v1 =? vy v0 then (0, vx v1 >? vx v0)
      else
        let bound_coord_us :=
          MakePolyXFPStep (s32 (vx v1 - vx v0)) (s32 (vy v1 - vy v0)) in
        (bound_coord_us, bound_coord_us >? base_step) in
    let bound_coord_ls :=
      if vy v2 =? vy v1 then 0
      else MakePolyXFPStep (s32 (vx v2 - vx v1)) (s32 (vy v2 - vy v1)) in
    match CalcIDeltas shading_enable texture_enable v0 v1 v2 with
    | None => []
    | Some idl =>
        let vertices := (v0, v1, v2) in
        let cv := vertex_at vertices core_vertex in
        let origin (a : Z) : Z :=
          u32 (Z.shiftl (COORD_MF_INT a + Z.shiftl 1 (COORD_FBS - 1)) COORD_POST_PADDING) in
        let ig :=
          {| ig_u := if texture_enable then origin (vu cv) else 0;
             ig_v := if texture_enable then origin (vv cv) else 0;
             ig_r := origin (vr cv);
             ig_g := origin (vg cv);
             ig_b := origin (vb cv) |} in
        let ig := AddIDeltas_DX shading_enable texture_enable ig idl (- vx cv) in
        let ig := AddIDeltas_DY shading_enable texture_enable ig idl (- vy cv) in
        let vo := if negb (core_vertex =? 0) then 1 else 0 in
        let vp := if core_vertex =? 2 then 3 else 0 in
        let blank := fun _ : bool => 0 in
        let tripart_vo :=
          {| y_coord := vy (vertex_at vertices (Z.lxor 0 vo));
             y_bound := vy (vertex_at vertices (Z.lxor 1 vo));
             x_coord :=
               set2 (set2 blank right_facing
                       (u64 (MakePolyXFP (vx (vertex_at vertices (Z.lxor 0 vo))))))
                    (negb right_facing)
                    (u64 (base_coord
                          + s32 (vy (vertex_at vertices vo) - vy (vertex_at vertices 0))
                            * base_step));
             x_step :=
               set2 (set2 blank right_facing (u64 bound_coord_us))
                    (negb right_facing) (u64 base_step);
             dec_mode := negb (vo =? 0) |} in
        let tripart_vo1 :=
          {| y_coord := vy (vertex_at vertices (Z.lxor 1 vp));
             y_bound := vy (vertex_at vertices (Z.lxor 2 vp));
             x_coord :=
               set2 (set2 blank right_facing
                       (u64 (MakePolyXFP (vx (vertex_at vertices (Z.lxor 1 vp))))))
                    (negb right_facing)
                    (u64 (base_coord
                          + s32 (vy (vertex_at vertices (Z.lxor 1 vp))
                                 - vy (vertex_at vertices 0))
                            * base_step));
             x_step :=
               set2 (set2 blank right_facing (u64 bound_coord_ls))
                    (negb right_facing) (u64 base_step);
             dec_mode := negb (vp =? 0) |} in
        (* tripart[vo] and tripart[vo ^ 1], visited in index order *)
        let '(tripart0, tripart1) :=
          if vo =? 0 then (tripart_vo, tripart_vo1) else (tripart_vo1, tripart_vo) in
        half_calls shading_enable texture_enable cmd ig idl tripart0
        ++ half_calls shading_enable texture_enable cmd ig idl tripart1
    end.

(** *** Lines *)

(** The [for (s32 i = 0; i <= k; i++)] of [DrawLine]: [n] iterations left.
    [p0] is the first endpoint after the swap. *)
Fixpoint line_loop (shading_enable : bool) (cmd : GPUBackendDrawCommand)
    (p0 : LineVertex) (step : line_fxp_step)
    (n : nat) (cur_point : line_fxp_coord) : list PixelCall :=
  match n with
  | O => []
  | S n' =>
      let x := s32 (Z.land (Z.shiftr (cur_x cur_point) Line_XY_FractBits) 2047) in
      let y := s32 (Z.land (Z.shiftr (cur_y cur_point) Line_XY_FractBits) 2047) in
      (if negb (interlace_skip cmd y)
          && (x >=? area_left) && (x <=? area_right)
          && (y >=? area_top) && (y <=? area_bottom)
       then
         let r := if shading_enable
                  then Truncate8 (Z.shiftr (cur_r cur_point) Line_RGB_FractBits) else lr p0 in
         let g := if shading_enable
                  then Truncate8 (Z.shiftr (cur_g cur_point) Line_RGB_FractBits) else lg p0 in
         let b := if shading_enable
                  then Truncate8 (Z.shiftr (cur_b cur_point) Line_RGB_FractBits) else lb p0 in
         [ {| pc_x := x; pc_y := y; pc_r := r; pc_g := g; pc_b := b;
              pc_u := 0; pc_v := 0 |} ]
       else [])
      ++ line_loop shading_enable cmd p0 step n'
           {| cur_x := u64 (cur_x cur_point + dx_dk step);
              cur_y := u64 (cur_y cur_point + dy_dk step);
              cur_r := if shading_enable then u32 (cur_r cur_point + dr_dk step)
                       else cur_r cur_point;
              cur_g := if shading_enable then u32 (cur_g cur_point + dg_dk step)
                       else cur_g cur_point;
              cur_b := if shading_enable then u32 (cur_b cur_point + db_dk step)
                       else cur_b cur_point |}
  end.

(** Endpoints after [if (p0->x >= p1->x && k > 0) std::swap(p0, p1)]. *)
Definition line_endpoints (p0 p1 : LineVertex) (k : Z) : LineVertex * LineVertex :=
  if (lx p0 >=? lx p1) && (k >? 0) then (p1, p0) else (p0, p1).

(** [i_dx >= MAX_PRIMITIVE_WIDTH] compares an [s32] with an unsigned
    constant: [i_dx] is converted to [u32]. *)
Definition DrawLine_calls (shading_enable : bool) (cmd : GPUBackendDrawCommand)
    (p0 p1 : LineVertex) : list PixelCall :=
  let i_dx := abs32 (s32 (lx p1 - lx p0)) in
  let i_dy := abs32 (s32 (ly p1 - ly p0)) in
  let k := if i_dx >? i_dy then i_dx else i_dy in
  if (u32 i_dx >=? MAX_PRIMITIVE_WIDTH) || (u32 i_dy >=? MAX_PRIMITIVE_HEIGHT) then []
  else
    let '(p0, p1) := line_endpoints p0 p1 k in
    let step :=
      if k =? 0 then
        {| dx_dk := 0; dy_dk := 0; dr_dk := 0; dg_dk := 0; db_dk := 0 |}
      else
        {| dx_dk := LineDivide (s32 (lx p1 - lx p0)) k;
           dy_dk := LineDivide (s32 (ly p1 - ly p0)) k;
           dr_dk := if shading_enable then line_color_step (lr p0) (lr p1) k else 0;
           dg_dk := if shading_enable then line_color_step (lg p0) (lg p1) k else 0;
           db_dk := if shading_enable then line_color_step (lb p0) (lb p1) k else 0 |} in
    let half := Z.shiftl 1 (Line_XY_FractBits - 1) in
    let cur_point :=
      {| cur_x := u64 (u64 (Z.lor (u64 (Z.shiftl (u64 (lx p0)) Line_XY_FractBits)) half) - 1024);
         cur_y :=
           (let y := u64 (Z.lor (u64 (Z.shiftl (u64 (ly p0)) Line_XY_FractBits)) half) in
            if dy_dk step <? 0 then u64 (y - 1024) else y);
         cur_r := if shading_enable
                  then u32 (Z.lor (Z.shiftl (lr p0) Line_RGB_FractBits)
                                  (Z.shiftl 1 (Line_RGB_FractBits - 1))) else 0;
         cur_g := if shading_enable
                  then u32 (Z.lor (Z.shiftl (lg p0) Line_RGB_FractBits)
                                  (Z.shiftl 1 (Line_RGB_FractBits - 1))) else 0;
         cur_b := if shading_enable
                  then u32 (Z.lor (Z.shiftl (lb p0) Line_RGB_FractBits)
                                  (Z.shiftl 1 (Line_RGB_FractBits - 1))) else 0 |} in
    line_loop shading_enable cmd p0 step (Z.to_nat (k + 1)) cur_point.

End Rasterizers.

(** ** The rasterizers as VRAM transformers *)

Section Draw.

Variable g_dither_lut : DitherLUT.
Variable g_drawing_area : DrawingArea.

(** [DrawRectangle<texture_enable, raw_texture_enable, transparency_enable>]. *)
Definition DrawRectangle (texture_enable raw_texture_enable transparency_enable : bool)
    (cmd : GPUBackendDrawSpriteCommand) (vram : VRAM) : VRAM :=
  run_calls g_dither_lut texture_enable raw_texture_enable transparency_enable false
    (sprite_cmd cmd) (DrawRectangle_calls g_drawing_area cmd) vram.

(** [DrawTriangle<shading_enable, texture_enable, raw_texture_enable,
    transparency_enable, dithering_enable>]. *)
Definition DrawTriangle
    (shading_enable texture_enable raw_texture_enable transparency_enable
       dithering_enable : bool)
    (cmd : GPUBackendDrawCommand) (v0 v1 v2 : Vertex) (vram : VRAM) : VRAM :=
  run_calls g_dither_lut texture_enable raw_texture_enable transparency_enable
    dithering_enable cmd
    (DrawTriangle_calls g_drawing_area shading_enable texture_enable cmd v0 v1 v2) vram.

(** [DrawLine<shading_enable, transparency_enable, dithering_enable>]. *)
Definition DrawLine (shading_enable transparency_enable dithering_enable : bool)
    (cmd : GPUBackendDrawCommand) (p0 p1 : LineVertex) (vram : VRAM) : VRAM :=
  run_calls g_dither_lut false false transparency_enable dithering_enable cmd
    (DrawLine_calls g_drawing_area shading_enable cmd p0 p1) vram.

End Draw.

(** ** Function tables *)

(** A table entry is a template instantiation, named by its arguments. *)
Inductive RectangleFunction :=
| DrawRectangle_ (texture_enable raw_texture_enable transparency_enable : bool).

Inductive LineFunction :=
| DrawLine_ (shading_enable transparency_enable dithering_enable : bool).

Inductive TriangleFunction :=
| DrawTriangle_ (shading_enable texture_enable raw_texture_enable transparency_enable
                   dithering_enable : bool).

(** [a[i]] on a two-element array written [{a0, a1}]. *)
Definition at2 {A : Type} (a : A * A) (i : bool) : A := if i then snd a else fst a.

Definition DrawRectangleFunctions
    : ((RectangleFunction * RectangleFunction) * (RectangleFunction * RectangleFunction))
      * ((RectangleFunction * RectangleFunction) * (RectangleFunction * RectangleFunction)) :=
  (((DrawRectangle_ false false false, DrawRectangle_ false false true),
    (DrawRectangle_ false false false, DrawRectangle_ false false true)),
   ((DrawRectangle_ true false false, DrawRectangle_ true false true),
    (DrawRectangle_ true true false, DrawRectangle_ true true true))).

Definition DrawLineFunctions
    : ((LineFunction * LineFunction) * (LineFunction * LineFunction))
      * ((LineFunction * LineFunction) * (LineFunction * LineFunction)) :=
  (((DrawLine_ false false false, DrawLine_ false false true),
    (DrawLine_ false true false, DrawLine_ false true true)),
   ((DrawLine_ true false false, DrawLine_ true false true),
    (DrawLine_ true true false, DrawLine_ true true true))).

Definition TriangleRow : Type :=
  (TriangleFunction * TriangleFunction) * (TriangleFunction * TriangleFunction).

Definition DrawTriangleFunctions
    : ((TriangleRow * TriangleRow) * (TriangleRow * TriangleRow))
      * ((TriangleRow * TriangleRow) * (TriangleRow * TriangleRow)) :=
  (((((DrawTriangle_ false false false false false, DrawTriangle_ false false false false true),
      (DrawTriangle_ false false false true false, DrawTriangle_ false false false true true)),
     ((DrawTriangle_ false false false false false, DrawTriangle_ false false false false false),
      (DrawTriangle_ false false false true false, DrawTriangle_ false false false true false))),
    (((DrawTriangle_ false true false false false, DrawTriangle_ false true false false true),
      (DrawTriangle_ false true false true false, DrawTriangle_ false true false true true)),
     ((DrawTriangle_ false true true false false, DrawTriangle_ false true true false false),
      (DrawTriangle_ false true true true false, DrawTriangle_ false true true true false)))),
   ((((DrawTriangle_ true false false false false, DrawTriangle_ true false false false true),
      (DrawTriangle_ true false false true false, DrawTriangle_ true false false true true)),
     ((DrawTriangle_ true false false false false, DrawTriangle_ true false false false false),
      (DrawTriangle_ true false false true false, DrawTriangle_ true false false true false))),
    (((DrawTriangle_ true true false false false, DrawTriangle_ true true false false true),
      (DrawTriangle_ true true false true false, DrawTriangle_ true true false true true)),
     ((DrawTriangle_ true true true false false, DrawTriangle_ true true true false false),
      (DrawTriangle_ true true true true false, DrawTriangle_ true true true true false))))).

(** [DrawRectangleFunctions[texture][raw_texture][transparent]]. *)
Definition GetDrawRectangleFunction (texture raw_texture transparent : bool)
    : RectangleFunction :=
  at2 (at2 (at2 DrawRectangleFunctions texture) raw_texture) transparent.

(** [DrawLineFunctions[shading][transparent][dithering]]. *)
Definition GetDrawLineFunction (shading transparent dithering : bool) : LineFunction :=
  at2 (at2 (at2 DrawLineFunctions shading) transparent) dithering.

(** [DrawTriangleFunctions[shading][texture][raw_texture][transparent][dithering]]. *)
Definition GetDrawTriangleFunction (shading texture raw_texture transparent dithering : bool)
    : TriangleFunction :=
  at2 (at2 (at2 (at2 (at2 DrawTriangleFunctions shading) texture) raw_texture) transparent)
      dithering.

(** The dithering argument of an instantiation. *)
Definition triangle_dithering (f : TriangleFunction) : bool :=
  match f with DrawTriangle_ _ _ _ _ dithering_enable => dithering_enable end.

(** ** Draw commands *)

(** One draw command as it reaches the rasterizer: the feature flags that
    index the function table, and the arguments of the selected function. *)
Inductive DrawCommand :=
| RectangleCommand (texture raw_texture transparent : bool)
    (cmd : GPUBackendDrawSpriteCommand)
| TriangleCommand (shading texture raw_texture transparent dithering : bool)
    (cmd : GPUBackendDrawCommand) (v0 v1 v2 : Vertex)
| LineCommand (shading transparent dithering : bool)
    (cmd : GPUBackendDrawCommand) (p0 p1 : LineVertex).

(** The [GPUBackendDrawCommand] a draw command carries. *)
Definition command_base (c : DrawCommand) : GPUBackendDrawCommand :=
  match c with
  | RectangleCommand _ _ _ cmd => sprite_cmd cmd
  | TriangleCommand _ _ _ _ _ cmd _ _ _ => cmd
  | LineCommand _ _ _ cmd _ _ => cmd
  end.

(** Calling the table entry selected by the flags. *)
Definition Draw (g_dither_lut : DitherLUT) (g_drawing_area : DrawingArea)
    (c : DrawCommand) (vram : VRAM) : VRAM :=
  match c with
  | RectangleCommand texture raw_texture transparent cmd =>
      match GetDrawRectangleFunction texture raw_texture transparent with
      | DrawRectangle_ t r tr => DrawRectangle g_dither_lut g_drawing_area t r tr cmd vram
      end
  | TriangleCommand shading texture raw_texture transparent dithering cmd v0 v1 v2 =>
      match GetDrawTriangleFunction shading texture raw_texture transparent dithering with
      | DrawTriangle_ s t r tr d =>
          DrawTriangle g_dither_lut g_drawing_area s t r tr d cmd v0 v1 v2 vram
      end
  | LineCommand shading transparent dithering cmd p0 p1 =>
      match GetDrawLineFunction shading transparent dithering with
      | DrawLine_ s tr d => DrawLine g_dither_lut g_drawing_area s tr d cmd p0 p1 vram
      end
  end.

(** Whether [(x, y)] is inside the drawing area, inclusive on all sides. *)
Definition in_drawing_area (g_drawing_area : DrawingArea) (x y : Z) : Prop :=
  area_left g_drawing_area <= x <= area_right g_drawing_area
  /\ area_top g_drawing_area <= y <= area_bottom g_drawing_area.

(** Vertex positions as the data model has them: sign-extended from 11 bits. *)
Definition position_11bit (v : Vertex) : Prop :=
  - 1024 <= vx v <= 1023 /\ - 1024 <= vy v <= 1023.

Definition wf_command (c : DrawCommand) : Prop :=
  match c with
  | TriangleCommand _ _ _ _ _ _ v0 v1 v2 =>
      position_11bit v0 /\ position_11bit v1 /\ position_11bit v2
  | _ => True
  end.

(** ** Rounding of a quotient *)

(** [q] is [n / d] rounded away from zero: the multiple [q * d] is at least
    [n] in magnitude and less than one [d] away from it. *)
Definition rounds_away (n d q : Z) : Prop :=
  Z.abs n <= Z.abs (q * d) /\ Z.abs (q * d - n) < Z.abs d.

(** [q] is [n / d] rounded toward zero. *)
Definition rounds_toward_zero (n d q : Z) : Prop :=
  Z.abs (q * d) <= Z.abs n /\ Z.abs (n - q * d) < Z.abs d.

(** ** Auxiliary definitions for the blend arithmetic *)

(** A 16-bit word from its three 5-bit channels and what lies above them. *)
Definition pack (r g b m : Z) : Z := r + 32 * (g + 32 * (b + 32 * m)).

(** [P] on every [z] with [0 <= z < n]. *)
Fixpoint forall_below (n : nat) (P : Z -> bool) : bool :=
  match n with
  | O => true
  | S n' => P (Z.of_nat n') && forall_below n' P
  end.

(** Per channel, with [f] and [b] the foreground and background channels:
    the low bit of [f ^ b], and the carry out of and the rest of
    [f + b - ((f ^ b) & 1)]. *)
Definition add_x (f b : Z) : Z := Z.land (Z.lxor f b) 1.
Definition add_k (f b : Z) : Z := (f + b - add_x f b) / 32.
Definition add_l (f b : Z) : Z := (f + b - add_x f b) mod 32.

Definition add_channel_ok (f b : Z) : bool :=
  (Z.land b 31 =? b) && (0 <=? add_x f b) && (add_x f b <=? f + b)
  && (f + b - add_x f b =? 32 * add_k f b + add_l f b)
  && (0 <=? add_l f b) && (add_l f b <=? 30)
  && (0 <=? add_k f b) && (add_k f b <=? 1)
  && (Z.land (add_l f b) 1 =? 0) && (Z.land (add_l f b + 1) 1 =? 1)
  && (0 <=? f + b - 32 * add_k f b) && (f + b - 32 * add_k f b <? 32)
  && (Z.lor (f + b - 32 * add_k f b) (31 * add_k f b) =? Z.min 31 (f + b)).

(** The same for the subtraction, biased by the guard bit: [sub_n] is 1 when
    the channel does not borrow. *)
Definition sub_x (b f : Z) : Z := Z.land (Z.lxor b f) 1.
Definition sub_n (b f : Z) : Z := (b - f + 32) / 32.
Definition sub_l (b f : Z) : Z := (b - f + 32) mod 32.
Definition sub_lx (b f : Z) : Z := (b - f + 32 - sub_x b f) mod 32.

Definition sub_channel_ok (b f : Z) : bool :=
  (Z.land f 31 =? f) && (0 <=? sub_x b f) && (sub_x b f <=? 1)
  && (b - f + 32 =? 32 * sub_n b f + sub_l b f)
  && (b - f + 32 - sub_x b f =? 32 * sub_n b f + sub_lx b f)
  && (0 <=? sub_l b f) && (sub_l b f <? 32)
  && (0 <=? sub_lx b f) && (sub_lx b f <=? 30)
  && (0 <=? sub_n b f) && (sub_n b f <=? 1)
  && (Z.land (sub_lx b f) 1 =? 0) && (Z.land (sub_lx b f + 1) 1 =? 1)
  && (Z.land (sub_l b f) (31 * sub_n b f) =? Z.max 0 (b - f)).

(** ** Concrete inputs *)

(** A table without dither offsets: every entry clamps [value >> 3] to 5
    bits, as the [(2, 3)] entry used with dithering off does. *)
Definition plain_lut : DitherLUT := fun _ _ value => Z.min 31 (Z.shiftr value 3).

Definition full_area : DrawingArea :=
  {| da_left := 0; da_top := 0; da_right := 1023; da_bottom := 511 |}.

Definition small_area : DrawingArea :=
  {| da_left := 0; da_top := 0; da_right := 3; da_bottom := 3 |}.

Definition blank_vram : VRAM := fun _ => 0.

Definition plain_cmd : GPUBackendDrawCommand :=
  {| texture_mode := Direct16Bit;
     transparency_mode := HalfBackgroundPlusHalfForeground;
     TexturePageBaseX := 0; TexturePageBaseY := 0;
     PaletteXBase := 0; PaletteYBase := 0;
     window_and_x := 255; window_and_y := 255;
     window_or_x := 0; window_or_y := 0;
     interlaced_rendering := false; active_line_lsb := 0;
     MaskAND := 0; MaskOR := 0 |}.

(** [plain_cmd] with the mask test on. *)
Definition masked_cmd : GPUBackendDrawCommand :=
  {| texture_mode := Direct16Bit;
     transparency_mode := HalfBackgroundPlusHalfForeground;
     TexturePageBaseX := 0; TexturePageBaseY := 0;
     PaletteXBase := 0; PaletteYBase := 0;
     window_and_x := 255; window_and_y := 255;
     window_or_x := 0; window_or_y := 0;
     interlaced_rendering := false; active_line_lsb := 0;
     MaskAND := 0x8000; MaskOR := 0 |}.

(** A 1x1 red sprite at (5, 5), mask test on. *)
Definition masked_sprite : GPUBackendDrawSpriteCommand :=
  {| sprite_cmd := masked_cmd; sprite_x := 5; sprite_y := 5;
     sprite_width := 1; sprite_height := 1;
     sprite_color := 255; sprite_texcoord := 0 |}.

(** VRAM with the mask bit set at (5, 5). *)
Definition masked_vram : VRAM := fun i => if i =? pixel_index 5 5 then 0x8000 else 0.

Definition mkVertex (x y r : Z) : Vertex :=
  {| vx := x; vy := y; vr := r; vg := 0; vb := 0; vu := 0; vv := 0 |}.

Definition mkLineVertex (x y r g b : Z) : LineVertex :=
  {| lx := x; ly := y; lr := r; lg := g; lb := b |}.

(** The Gouraud triangle of scenario 5. *)
Definition gouraud_triangle : DrawCommand :=
  TriangleCommand true false false false false plain_cmd
    (mkVertex 0 0 255) (mkVertex 10 0 0) (mkVertex 0 10 0).

(** Vertices whose red gradient along [x] is not a whole number. *)
Definition grad_A : Vertex := mkVertex 0 0 1.
Definition grad_B : Vertex := mkVertex 3 0 0.
Definition grad_C : Vertex := mkVertex 0 3 0.

(** A point outside [small_area]. *)
Definition point_5_5 : LineVertex := mkLineVertex 5 5 255 0 0.

(** A three-pixel triangle. *)
Definition small_triangle : DrawCommand :=
  TriangleCommand false false false false false plain_cmd
    (mkVertex 0 0 255) (mkVertex 2 0 255) (mkVertex 0 2 255).

(** [masked_sprite] without the mask test. *)
Definition plain_sprite : GPUBackendDrawSpriteCommand :=
  {| sprite_cmd := plain_cmd; sprite_x := 5; sprite_y := 5;
     sprite_width := 1; sprite_height := 1;
     sprite_color := 255; sprite_texcoord := 0 |}.

(** The drawing area [{0, 0, -1, -1}], its last two fields as the unsigned
    fields hold them. *)
Definition empty_area : DrawingArea :=
  {| da_left := 0; da_top := 0; da_right := 4294967295; da_bottom := 4294967295 |}.

(** [plain_cmd] drawing the even field only: rows with low bit 1 are skipped. *)
Definition interlaced_cmd : GPUBackendDrawCommand :=
  {| texture_mode := Direct16Bit;
     transparency_mode := HalfBackgroundPlusHalfForeground;
     TexturePageBaseX := 0; TexturePageBaseY := 0;
     PaletteXBase := 0; PaletteYBase := 0;
     window_and_x := 255; window_and_y := 255;
     window_or_x := 0; window_or_y := 0;
     interlaced_rendering := true; active_line_lsb := 1;
     MaskAND := 0; MaskOR := 0 |}.

(** A 2x2 red sprite at (4, 4), interlaced. *)
Definition interlaced_sprite : GPUBackendDrawSpriteCommand :=
  {| sprite_cmd := interlaced_cmd; sprite_x := 4; sprite_y := 4;
     sprite_width := 2; sprite_height := 2;
     sprite_color := 255; sprite_texcoord := 0 |}.

Definition line_a : LineVertex := mkLineVertex 2 3 255 0 0.
Definition line_b : LineVertex := mkLineVertex 9 6 0 255 0.

(** VRAM with a white pixel, bit 15 clear, at (50, 50). *)
Definition white_vram : VRAM := fun i => if i =? pixel_index 50 50 then 0x7FFF else 0.

(** Accumulators and deltas of a span: red falls by one unit per pixel. *)
Definition span_ig : i_group :=
  {| ig_u := 0; ig_v := 0; ig_r := 200 * 2 ^ 24 + 2 ^ 23; ig_g := 0; ig_b := 0 |}.

Definition span_idl : i_deltas :=
  {| du_dx := 0; dv_dx := 0; dr_dx := 2 ^ 32 - 2 ^ 24; dg_dx := 0; db_dx := 0;
     du_dy := 0; dv_dy := 0; dr_dy := 0; dg_dy := 0; db_dy := 0 |}.

(** A 4-bit palette command: texture page at (64, 0), palette at (0, 500). *)
Definition palette_cmd : GPUBackendDrawCommand :=
  {| texture_mode := Palette4Bit;
     transparency_mode := HalfBackgroundPlusHalfForeground;
     TexturePageBaseX := 64; TexturePageBaseY := 0;
     PaletteXBase := 0; PaletteYBase := 500;
     window_and_x := 255; window_and_y := 255;
     window_or_x := 0; window_or_y := 0;
     interlaced_rendering := false; active_line_lsb := 0;
     MaskAND := 0; MaskOR := 0 |}.

(** VRAM holding palette entry 1 = [0x7FFF] and a texture word whose second
    nibble is 1; and the same with a word changed outside the 1024 x 512
    array. *)
Definition palette_vram : VRAM :=
  fun i => if i =? pixel_index 1 500 then 0x7FFF
           else if i =? pixel_index 64 0 then 0x0010 else 0.

Definition palette_vram' : VRAM :=
  fun i => if i =? 1024 * 512 + 7 then 0x1234 else palette_vram i.

(** A triangle with a different red at each vertex; the leftmost vertices
    are the first and the third. *)
Definition tri_A : Vertex := mkVertex 0 0 40.
Definition tri_B : Vertex := mkVertex 4 0 80.
Definition tri_C : Vertex := mkVertex 0 4 120.

(** The same triangle in one colour. *)
Definition red_A : Vertex := mkVertex 0 0 255.
Definition red_B : Vertex := mkVertex 4 0 255.
Definition red_C : Vertex := mkVertex 0 4 255.

(** VRAM with a white texel, bit 15 set, at (0, 0). *)
Definition texture_vram : VRAM := fun i => if i =? pixel_index 0 0 then 0xFFFF else 0.

(** The gradients of the triangle [tri_A], [tri_B], [tri_C]: red rises by 10
    per column and by 20 per row, in fixed point with 24 fraction bits. *)
Definition tri_idl : i_deltas :=
  {| du_dx := 0; dv_dx := 0; dr_dx := 10 * 2 ^ 24; dg_dx := 0; db_dx := 0;
     du_dy := 0; dv_dy := 0; dr_dy := 20 * 2 ^ 24; dg_dy := 0; db_dy := 0 |}.

(** ** Further definitions used by the properties below *)

(** The shader calls a draw command makes: those of the table entry its
    flags select. *)
Definition command_calls (g_drawing_area : DrawingArea) (c : DrawCommand)
    : list PixelCall :=
  match c with
  | RectangleCommand _ _ _ cmd => DrawRectangle_calls g_drawing_area cmd
  | TriangleCommand shading texture raw_texture transparent dithering cmd v0 v1 v2 =>
      match GetDrawTriangleFunction shading texture raw_texture transparent dithering with
      | DrawTriangle_ s t _ _ _ => DrawTriangle_calls g_drawing_area s t cmd v0 v1 v2
      end
  | LineCommand shading transparent dithering cmd p0 p1 =>
      match GetDrawLineFunction shading transparent dithering with
      | DrawLine_ s _ _ => DrawLine_calls g_drawing_area s cmd p0 p1
      end
  end.

(** The drawing area lies inside VRAM. *)
Definition area_in_vram (g_drawing_area : DrawingArea) : Prop :=
  0 <= area_left g_drawing_area /\ area_right g_drawing_area < VRAM_WIDTH
  /\ 0 <= area_top g_drawing_area /\ area_bottom g_drawing_area < VRAM_HEIGHT.

(** The left and right bounds of the drawing area are far from the ends of
    the [s32] range, as those of every drawing area in VRAM coordinates are:
    the clip arithmetic of [DrawSpan] does not overflow. *)
Definition area_bounded (g_drawing_area : DrawingArea) : Prop :=
  - 2 ^ 30 <= area_left g_drawing_area <= 2 ^ 30
  /\ - 2 ^ 30 <= area_right g_drawing_area <= 2 ^ 30.

(** Smallest and largest of three. *)
Definition min3 (a b c : Z) : Z := Z.min a (Z.min b c).
Definition max3 (a b c : Z) : Z := Z.max a (Z.max b c).

(** Vertex positions as the [s32] fields hold them. *)
Definition position_s32 (v : Vertex) : Prop :=
  - 2 ^ 31 <= vx v < 2 ^ 31 /\ - 2 ^ 31 <= vy v < 2 ^ 31.

(** The three widths and the height of a triangle are less than [2^31]: the
    [s32] differences [DrawTriangle] takes of its positions do not overflow. *)
Definition extents_s32 (v0 v1 v2 : Vertex) : Prop :=
  Z.abs (vx v1 - vx v0) < 2 ^ 31
  /\ Z.abs (vx v2 - vx v1) < 2 ^ 31
  /\ Z.abs (vx v2 - vx v0) < 2 ^ 31
  /\ max3 (vy v0) (vy v1) (vy v2) - min3 (vy v0) (vy v1) (vy v2) < 2 ^ 31.

(** The sprite's rectangle is inside the [s32] range: [origin + offset] in
    [DrawRectangle] does not overflow. *)
Definition sprite_extent_s32 (cmd : GPUBackendDrawSpriteCommand) : Prop :=
  - 2 ^ 31 <= sprite_x cmd /\ sprite_x cmd + sprite_width cmd <= 2 ^ 31
  /\ - 2 ^ 31 <= sprite_y cmd /\ sprite_y cmd + sprite_height cmd <= 2 ^ 31.

(** The call [DrawRectangle] makes at [(x, y)]: the sprite's colour, and its
    texture coordinates advanced by the offset of [(x, y)] in the sprite. *)
Definition rectangle_call (cmd : GPUBackendDrawSpriteCommand) (x y : Z) : PixelCall :=
  {| pc_x := x; pc_y := y;
     pc_r := Truncate8 (sprite_color cmd);
     pc_g := Truncate8 (Z.shiftr (sprite_color cmd) 8);
     pc_b := Truncate8 (Z.shiftr (sprite_color cmd) 16);
     pc_u := Truncate8 (Truncate8 (sprite_texcoord cmd) + (x - sprite_x cmd));
     pc_v := Truncate8 (Truncate8 (Z.shiftr (sprite_texcoord cmd) 8) + (y - sprite_y cmd)) |}.

(** [(x, y)] is in the sprite's rectangle, in the drawing area, and on a row
    interlacing does not skip. *)
Definition in_rectangle (g_drawing_area : DrawingArea) (cmd : GPUBackendDrawSpriteCommand)
    (x y : Z) : Prop :=
  sprite_x cmd <= x < sprite_x cmd + sprite_width cmd
  /\ sprite_y cmd <= y < sprite_y cmd + sprite_height cmd
  /\ in_drawing_area g_drawing_area x y
  /\ interlace_skip (sprite_cmd cmd) y = false.

(** Per channel, for the half-and-half blend and for the quarter of the
    foreground: the facts checked on all 32 x 32 channel pairs. *)
Definition half_channel_ok (f b : Z) : bool :=
  (f + b - add_x f b =? 2 * ((f + b) / 2)) && (0 <=? (f + b) / 2) && ((f + b) / 2 <? 32).

Definition quarter_channel_ok (f g : Z) : bool :=
  (Z.land (f / 4 + 8 * (g mod 4)) 7 =? f / 4)
  && (0 <=? f / 4 + 8 * (g mod 4)) && (f / 4 + 8 * (g mod 4) <? 32)
  && (0 <=? f / 4) && (f / 4 <? 32).

(** What each blend mode does to one 5-bit channel, [f] of the foreground
    and [b] of the background. *)
Definition blend_channel (mode : GPUTransparencyMode) (f b : Z) : Z :=
  match mode with
  | HalfBackgroundPlusHalfForeground => (f + b) / 2
  | BackgroundPlusForeground => Z.min 31 (f + b)
  | BackgroundMinusForeground => Z.max 0 (b - f)
  | BackgroundPlusQuarterForeground => Z.min 31 (f / 4 + b)
  end.

(** A word is as it was, or is a 16-bit word with every [MaskOR] bit set. *)
Definition kept_or_stored (cmd : GPUBackendDrawCommand) (before after : Z) : Prop :=
  after = before
  \/ (0 <= after < 65536 /\ Z.land after (MaskOR cmd) = MaskOR cmd).

(** An attribute accumulator after [k] steps of [d], when its feature is on;
    left alone when it is off. *)
Definition stepped (flag : bool) (a d k : Z) : Z := if flag then u32 (a + d * k) else a.

(** The 8-bit attribute [DrawSpan] reads off an accumulator. *)
Definition attr (a : Z) : Z := Truncate8 (Z.shiftr a (COORD_FBS + COORD_POST_PADDING)).

(** The attribute at pixel [(x, y)] from the accumulator [a] at the origin
    and the per-pixel deltas: affine in [(x, y)] modulo [2^32] when the
    feature is on, constant when it is off. *)
Definition interpolated (flag : bool) (a d_dx d_dy x y : Z) : Z :=
  Truncate8
    (Z.shiftr (if flag then u32 (a + d_dx * x + d_dy * y) else a)
       (COORD_FBS + COORD_POST_PADDING)).

(** Every accumulator of [ig] is already reduced modulo [2^32] where its
    feature is on. *)
Definition normal (sh tx : bool) (ig : i_group) : Prop :=
  stepped tx (ig_u ig) 0 0 = ig_u ig /\ stepped tx (ig_v ig) 0 0 = ig_v ig
  /\ stepped sh (ig_r ig) 0 0 = ig_r ig /\ stepped sh (ig_g ig) 0 0 = ig_g ig
  /\ stepped sh (ig_b ig) 0 0 = ig_b ig.

(** Where a shader call lands. *)
Definition position (c : PixelCall) : Z * Z := (pc_x c, pc_y c).

(** The call's position is inside the 1024 x 512 VRAM array. *)
Definition in_vram (c : PixelCall) : Prop :=
  0 <= pc_x c < VRAM_WIDTH /\ 0 <= pc_y c < VRAM_HEIGHT.

(** An attribute of the core vertex as [DrawTriangle] loads it into an
    accumulator:
    [(COORD_MF_INT(a) + (1 << (COORD_FBS - 1))) << COORD_POST_PADDING]. *)
Definition attribute_origin (a : Z) : Z :=
  u32 (Z.shiftl (COORD_MF_INT a + Z.shiftl 1 (COORD_FBS - 1)) COORD_POST_PADDING).

(** The accumulators [DrawTriangle] hands to each of its spans: those of the
    core vertex [cv], moved back to the origin of the coordinates. *)
Definition triangle_ig (shading_enable texture_enable : bool) (idl : i_deltas)
    (cv : Vertex) : i_group :=
  let ig :=
    {| ig_u := if texture_enable then attribute_origin (vu cv) else 0;
       ig_v := if texture_enable then attribute_origin (vv cv) else 0;
       ig_r := attribute_origin (vr cv);
       ig_g := attribute_origin (vg cv);
       ig_b := attribute_origin (vb cv) |} in
  let ig := AddIDeltas_DX shading_enable texture_enable ig idl (- vx cv) in
  AddIDeltas_DY shading_enable texture_enable ig idl (- vy cv).

(** The attribute at offset [(x, y)] from the core vertex, whose attribute
    is [a]: affine in the offset modulo [2^32] when the feature is on,
    the core vertex's otherwise. *)
Definition plane (flag : bool) (a d_dx d_dy x y : Z) : Z :=
  attr (if flag then u32 (attribute_origin a + d_dx * x + d_dy * y) else attribute_origin a).

(** Vertex colours as the [u8] fields hold them; two vertices of one
    colour; a call made with the colour of a vertex. *)
Definition colour_u8 (v : Vertex) : Prop :=
  0 <= vr v < 256 /\ 0 <= vg v < 256 /\ 0 <= vb v < 256.

Definition same_colour (v w : Vertex) : Prop :=
  vr v = vr w /\ vg v = vg w /\ vb v = vb w.

Definition shaded_with (v : Vertex) (c : PixelCall) : Prop :=
  pc_r c = vr v /\ pc_g c = vg v /\ pc_b c = vb v.

(** [k] of [DrawLine]: the larger of the two extents. *)
Definition line_length (p0 p1 : LineVertex) : Z :=
  let i_dx := abs32 (s32 (lx p1 - lx p0)) in
  let i_dy := abs32 (s32 (ly p1 - ly p0)) in
  if i_dx >? i_dy then i_dx else i_dy.

(** [step] of [DrawLine], from the endpoints after the swap. *)
Definition line_step (shading_enable : bool) (p0 p1 : LineVertex) (k : Z) : line_fxp_step :=
  if k =? 0 then
    {| dx_dk := 0; dy_dk := 0; dr_dk := 0; dg_dk := 0; db_dk := 0 |}
  else
    {| dx_dk := LineDivide (s32 (lx p1 - lx p0)) k;
       dy_dk := LineDivide (s32 (ly p1 - ly p0)) k;
       dr_dk := if shading_enable then line_color_step (lr p0) (lr p1) k else 0;
       dg_dk := if shading_enable then line_color_step (lg p0) (lg p1) k else 0;
       db_dk := if shading_enable then line_color_step (lb p0) (lb p1) k else 0 |}.

(** [cur_point] of [DrawLine] before the loop. *)
Definition line_start (shading_enable : bool) (p0 : LineVertex) (step : line_fxp_step)
    : line_fxp_coord :=
  let half := Z.shiftl 1 (Line_XY_FractBits - 1) in
  let colour c :=
    if shading_enable
    then u32 (Z.lor (Z.shiftl c Line_RGB_FractBits) (Z.shiftl 1 (Line_RGB_FractBits - 1)))
    else 0 in
  {| cur_x := u64 (u64 (Z.lor (u64 (Z.shiftl (u64 (lx p0)) Line_XY_FractBits)) half) - 1024);
     cur_y :=
       (let y := u64 (Z.lor (u64 (Z.shiftl (u64 (ly p0)) Line_XY_FractBits)) half) in
        if dy_dk step <? 0 then u64 (y - 1024) else y);
     cur_r := colour (lr p0);
     cur_g := colour (lg p0);
     cur_b := colour (lb p0) |}.

(** [cur_point] after [i] iterations of the loop. *)
Definition line_point_at (shading_enable : bool) (step : line_fxp_step)
    (cur_point : line_fxp_coord) (i : Z) : line_fxp_coord :=
  {| cur_x := u64 (cur_x cur_point + i * dx_dk step);
     cur_y := u64 (cur_y cur_point + i * dy_dk step);
     cur_r := if shading_enable then u32 (cur_r cur_point + i * dr_dk step)
              else cur_r cur_point;
     cur_g := if shading_enable then u32 (cur_g cur_point + i * dg_dk step)
              else cur_g cur_point;
     cur_b := if shading_enable then u32 (cur_b cur_point + i * db_dk step)
              else cur_b cur_point |}.

(** The shader call the loop of [DrawLine] makes at [cur_point], when the
    pixel is visible. *)
Definition line_call (shading_enable : bool) (p0 : LineVertex)
    (cur_point : line_fxp_coord) : PixelCall :=
  {| pc_x := s32 (Z.land (Z.shiftr (cur_x cur_point) Line_XY_FractBits) 2047);
     pc_y := s32 (Z.land (Z.shiftr (cur_y cur_point) Line_XY_FractBits) 2047);
     pc_r := if shading_enable
             then Truncate8 (Z.shiftr (cur_r cur_point) Line_RGB_FractBits) else lr p0;
     pc_g := if shading_enable
             then Truncate8 (Z.shiftr (cur_g cur_point) Line_RGB_FractBits) else lg p0;
     pc_b := if shading_enable
             then Truncate8 (Z.shiftr (cur_b cur_point) Line_RGB_FractBits) else lb p0;
     pc_u := 0; pc_v := 0 |}.

(** Endpoint colours as the [u8] fields hold them; a call whose colour is
    between those of two endpoints, channel by channel; a call with the
    colour of an endpoint; an endpoint at coordinates 0 to 2047, which the
    [& 2047] of the loop leaves alone. *)
Definition line_colour_u8 (p : LineVertex) : Prop :=
  0 <= lr p < 256 /\ 0 <= lg p < 256 /\ 0 <= lb p < 256.

Definition coloured_between (p0 p1 : LineVertex) (c : PixelCall) : Prop :=
  Z.min (lr p0) (lr p1) <= pc_r c <= Z.max (lr p0) (lr p1)
  /\ Z.min (lg p0) (lg p1) <= pc_g c <= Z.max (lg p0) (lg p1)
  /\ Z.min (lb p0) (lb p1) <= pc_b c <= Z.max (lb p0) (lb p1).

Definition coloured_as (p : LineVertex) (c : PixelCall) : Prop :=
  pc_r c = lr p /\ pc_g c = lg p /\ pc_b c = lb p.

Definition line_position_unsigned (p : LineVertex) : Prop :=
  0 <= lx p <= 2047 /\ 0 <= ly p <= 2047.

(** Endpoint positions as the [s32] fields hold them. *)
Definition line_position_s32 (p : LineVertex) : Prop :=
  - 2 ^ 31 <= lx p < 2 ^ 31 /\ - 2 ^ 31 <= ly p < 2 ^ 31.

(** The width and the height of a line are less than [2^31]: the [s32]
    differences [DrawLine] takes of its positions do not overflow. *)
Definition line_extents_s32 (p0 p1 : LineVertex) : Prop :=
  Z.abs (lx p1 - lx p0) < 2 ^ 31 /\ Z.abs (ly p1 - ly p0) < 2 ^ 31.

(** The positions of a draw command as its [s32] fields hold them. *)
Definition positions_s32 (c : DrawCommand) : Prop :=
  match c with
  | TriangleCommand _ _ _ _ _ _ v0 v1 v2 =>
      position_s32 v0 /\ position_s32 v1 /\ position_s32 v2
  | _ => True
  end.

(** * Properties *)

(** ** Two's complement wrap *)

Lemma s32_range (z : Z) : - 2 ^ 31 <= s32 z < 2 ^ 31.
Proof. unfold s32. pose proof (Z.mod_pos_bound (z + 2 ^ 31) (2 ^ 32)). lia. Qed.

Lemma s32_small (z : Z) : - 2 ^ 31 <= z < 2 ^ 31 -> s32 z = z.
Proof. intros Hz. unfold s32. rewrite Z.mod_small; lia. Qed.

Lemma s32_wrap (z : Z) : s32 z = z - 2 ^ 32 * ((z + 2 ^ 31) / 2 ^ 32).
Proof. unfold s32. rewrite Z.mod_eq by lia. lia. Qed.

Lemma s32_congr (a b k : Z) : a = b + k * 2 ^ 32 -> s32 a = s32 b.
Proof.
  intros ->. unfold s32.
  replace (b + k * 2 ^ 32 + 2 ^ 31) with (b + 2 ^ 31 + k * 2 ^ 32) by lia.
  now rewrite Z.mod_add by lia.
Qed.

Lemma s32_idemp (z : Z) : s32 (s32 z) = s32 z.
Proof. apply s32_small, s32_range. Qed.

Lemma s32_add_l (a b : Z) : s32 (s32 a + b) = s32 (a + b).
Proof. apply (s32_congr _ _ (- ((a + 2 ^ 31) / 2 ^ 32))). rewrite (s32_wrap a). lia. Qed.

Lemma s32_add_r (a b : Z) : s32 (a + s32 b) = s32 (a + b).
Proof. rewrite Z.add_comm, s32_add_l. f_equal. lia. Qed.

Lemma s32_sub_l (a b : Z) : s32 (s32 a - b) = s32 (a - b).
Proof. apply (s32_congr _ _ (- ((a + 2 ^ 31) / 2 ^ 32))). rewrite (s32_wrap a). lia. Qed.

Lemma s32_sub_r (a b : Z) : s32 (a - s32 b) = s32 (a - b).
Proof. apply (s32_congr _ _ ((b + 2 ^ 31) / 2 ^ 32)). rewrite (s32_wrap b). lia. Qed.

Lemma s32_mul_l (a b : Z) : s32 (s32 a * b) = s32 (a * b).
Proof. apply (s32_congr _ _ (- ((a + 2 ^ 31) / 2 ^ 32) * b)). rewrite (s32_wrap a). lia. Qed.

Lemma s32_mul_r (a b : Z) : s32 (a * s32 b) = s32 (a * b).
Proof. rewrite Z.mul_comm, s32_mul_l. f_equal. lia. Qed.

Lemma u32_s32 (z : Z) : u32 (s32 z) = u32 z.
Proof.
  unfold u32. rewrite (s32_wrap z).
  replace (z - 2 ^ 32 * ((z + 2 ^ 31) / 2 ^ 32))
    with (z + (- ((z + 2 ^ 31) / 2 ^ 32)) * 2 ^ 32) by lia.
  now rewrite Z.mod_add by lia.
Qed.

(** Equal modulo [2^32] and less than [2^32] apart: equal. *)
Lemma s32_inj (a b : Z) : s32 a = s32 b -> - 2 ^ 32 < a - b < 2 ^ 32 -> a = b.
Proof. rewrite !s32_wrap. intros E H. lia. Qed.

(** [std::abs] is the magnitude, but for [-2^31]. *)
Lemma abs32_small (z : Z) : - 2 ^ 31 < z < 2 ^ 31 -> abs32 z = Z.abs z.
Proof. intros Hz. unfold abs32. apply s32_small. lia. Qed.

Lemma u32_abs32 (z : Z) : - 2 ^ 31 <= z < 2 ^ 31 -> u32 (abs32 z) = Z.abs z.
Proof.
  intros Hz. unfold abs32. rewrite u32_s32. unfold u32. apply Z.mod_small. lia.
Qed.

(** A difference that passes a size test of [DrawTriangle] or [DrawLine] is
    smaller than the limit in magnitude, and [std::abs] is exact on it. *)
Lemma size_test (d limit : Z) :
  limit <= 2 ^ 31 ->
  (u32 (abs32 (s32 d)) >=? limit) = false ->
  Z.abs (s32 d) < limit /\ abs32 (s32 d) = Z.abs (s32 d).
Proof.
  intros Hl Ht. pose proof (s32_range d) as Hr.
  rewrite u32_abs32 in Ht by exact Hr.
  destruct (Z.geb_spec (Z.abs (s32 d)) limit); [discriminate |].
  split; [assumption |]. apply abs32_small. lia.
Qed.

(** The difference of two [s32] values wraps to 0 only when they are equal. *)
Lemma s32_sub_zero (a b : Z) :
  - 2 ^ 31 <= a < 2 ^ 31 -> - 2 ^ 31 <= b < 2 ^ 31 -> s32 (a - b) = 0 -> a = b.
Proof. intros Ha Hb. rewrite s32_wrap. lia. Qed.

(** [std::abs] of a wrapped difference does not depend on its direction. *)
Lemma abs32_sym (a b : Z) : abs32 (s32 (a - b)) = abs32 (s32 (b - a)).
Proof.
  unfold abs32. f_equal.
  pose proof (s32_range (a - b)). pose proof (s32_range (b - a)).
  pose proof (s32_wrap (a - b)). pose proof (s32_wrap (b - a)). lia.
Qed.

(** Two differences that pass the size tests of [DrawLine], not both 0: [k]
    is positive. *)
Lemma line_length_positive (dx dy : Z) :
  (u32 (abs32 (s32 dx)) >=? MAX_PRIMITIVE_WIDTH)
  || (u32 (abs32 (s32 dy)) >=? MAX_PRIMITIVE_HEIGHT) = false ->
  s32 dx <> 0 \/ s32 dy <> 0 ->
  0 < (if abs32 (s32 dx) >? abs32 (s32 dy) then abs32 (s32 dx) else abs32 (s32 dy)) < 1024.
Proof.
  intros Hsize Hne. apply orb_false_iff in Hsize. destruct Hsize as [Hw Hh].
  apply size_test in Hw; [| unfold MAX_PRIMITIVE_WIDTH; lia].
  apply size_test in Hh; [| unfold MAX_PRIMITIVE_HEIGHT; lia].
  unfold MAX_PRIMITIVE_WIDTH, MAX_PRIMITIVE_HEIGHT in *.
  destruct Hw as [Hw ->], Hh as [Hh ->].
  destruct (Z.gtb_spec (Z.abs (s32 dx)) (Z.abs (s32 dy))); lia.
Qed.

(** ** The pixel shader touches one word, and only when the mask test passes *)

Lemma pixel_index_u32 (x y : Z) : pixel_index (u32 x) (u32 y) = pixel_index x y.
Proof.
  unfold pixel_index, u32, VRAM_WIDTH.
  rewrite Z.add_mod_idemp_r by lia.
  rewrite <- Z.add_mod_idemp_l by lia.
  rewrite Z.mul_mod_idemp_r by lia.
  rewrite Z.add_mod_idemp_l by lia.
  reflexivity.
Qed.

Lemma SetPixel_other (vram : VRAM) (x y value i : Z) :
  i <> pixel_index x y -> SetPixel vram x y value i = vram i.
Proof.
  intros Hne. unfold SetPixel.
  destruct (Z.eqb_spec i (pixel_index x y)); [contradiction | reflexivity].
Qed.

Section ShaderFrame.

Variable g_dither_lut : DitherLUT.
Variables texture_enable raw_texture_enable transparency_enable dithering_enable : bool.
Variable cmd : GPUBackendDrawCommand.

Local Abbreviation shade :=
  (ShadePixel g_dither_lut texture_enable raw_texture_enable transparency_enable
     dithering_enable cmd).
Local Abbreviation run :=
  (run_calls g_dither_lut texture_enable raw_texture_enable transparency_enable
     dithering_enable cmd).

Lemma ShadePixel_other (x y r g b u v : Z) (vram : VRAM) (i : Z) :
  i <> pixel_index x y -> shade x y r g b u v vram i = vram i.
Proof.
  intros Hne. unfold ShadePixel.
  destruct (shade_color _ _ _ _ _ _ _ _ _ _ _ _ _ _); [| reflexivity].
  destruct (negb _); [reflexivity |].
  now apply SetPixel_other.
Qed.

Lemma ShadePixel_masked (x y r g b u v : Z) (vram : VRAM) (i : Z) :
  Z.land (vram i) (MaskAND cmd) <> 0 -> shade x y r g b u v vram i = vram i.
Proof.
  intros Hmask.
  destruct (Z.eq_dec i (pixel_index x y)) as [-> | Hne];
    [| now apply ShadePixel_other].
  unfold ShadePixel.
  destruct (shade_color _ _ _ _ _ _ _ _ _ _ _ _ _ _); [| reflexivity].
  unfold GetPixel.
  destruct (Z.eqb_spec (Z.land (vram (pixel_index x y)) (MaskAND cmd)) 0);
    [contradiction | reflexivity].
Qed.

Lemma run_calls_masked (calls : list PixelCall) (vram : VRAM) (i : Z) :
  Z.land (vram i) (MaskAND cmd) <> 0 -> run calls vram i = vram i.
Proof.
  revert vram. induction calls as [| c calls IH]; intros vram Hmask; [reflexivity |].
  unfold run_calls in *. cbn [fold_left].
  rewrite IH; rewrite ShadePixel_masked; auto.
Qed.

(** A word that a run of shader calls changed is the target of one of them. *)
Lemma run_calls_changed (calls : list PixelCall) (vram : VRAM) (i : Z) :
  run calls vram i <> vram i ->
  exists c, In c calls /\ i = pixel_index (pc_x c) (pc_y c).
Proof.
  revert vram. induction calls as [| c calls IH]; intros vram Hch;
    [now contradiction Hch |].
  unfold run_calls in *. cbn [fold_left] in Hch.
  destruct (Z.eq_dec i (pixel_index (pc_x c) (pc_y c))) as [Heq | Hne].
  - exists c. split; [now left | exact Heq].
  - rewrite <- pixel_index_u32 in Hne.
    destruct (IH _ (fun H => Hch (eq_trans H (ShadePixel_other _ _ _ _ _ _ _ vram i Hne))))
      as (c' & Hin & Hc').
    exists c'. split; [now right | exact Hc'].
Qed.

End ShaderFrame.

(** C1. Mask-bit monotonicity: for every draw command (rectangle, triangle or
    line) and every VRAM word [i = pixel_index x y], if the word has one of
    the [MaskAND] bits set before the draw, it holds the same value after the
    draw. *)
Theorem mask_bit_monotonicity
    (g_dither_lut : DitherLUT) (g_drawing_area : DrawingArea)
    (c : DrawCommand) (vram : VRAM) (i : Z) :
  Z.land (vram i) (MaskAND (command_base c)) <> 0 ->
  Draw g_dither_lut g_drawing_area c vram i = vram i.
Proof.
  intros Hmask. destruct c; cbn [Draw command_base] in *.
  - destruct (GetDrawRectangleFunction _ _ _).
    now apply run_calls_masked.
  - destruct (GetDrawTriangleFunction _ _ _ _ _).
    now apply run_calls_masked.
  - destruct (GetDrawLineFunction _ _ _).
    now apply run_calls_masked.
Qed.


Lemma mask_bit_monotonicity_witness :
  Draw plain_lut full_area (RectangleCommand false false false masked_sprite)
    masked_vram (pixel_index 5 5)
  = masked_vram (pixel_index 5 5).
Proof.
  apply (mask_bit_monotonicity plain_lut full_area
           (RectangleCommand false false false masked_sprite) masked_vram
           (pixel_index 5 5)).
  vm_compute. discriminate.
Defined.

(** Scenario 2 and its converse: the masked pixel keeps [0x8000]; with the
    mask test off the same sprite writes red there. *)
Example mask_test_blocks_write :
  Draw plain_lut full_area (RectangleCommand false false false masked_sprite)
    masked_vram (pixel_index 5 5) = 0x8000
  /\ Draw plain_lut full_area (RectangleCommand false false false plain_sprite)
       masked_vram (pixel_index 5 5) = 0x001F.
Proof. split; vm_compute; reflexivity. Qed.

(** C3. Texel-zero discard: a textured shader invocation whose sampled texel
    (after the texture window and the palette) is 0 leaves VRAM as it was,
    whatever the blend mode, the mask parameters and the modulation colour. *)
Theorem texel_zero_discard
    (g_dither_lut : DitherLUT)
    (raw_texture_enable transparency_enable dithering_enable : bool)
    (cmd : GPUBackendDrawCommand)
    (x y color_r color_g color_b texcoord_x texcoord_y : Z) (vram : VRAM) :
  texture_color cmd vram texcoord_x texcoord_y = 0 ->
  ShadePixel g_dither_lut true raw_texture_enable transparency_enable dithering_enable
    cmd x y color_r color_g color_b texcoord_x texcoord_y vram = vram.
Proof.
  intros Htexel. unfold ShadePixel, shade_color.
  rewrite Htexel. reflexivity.
Qed.

Lemma texel_zero_discard_witness :
  ShadePixel plain_lut true false true false plain_cmd 5 5 255 255 255 0 0 blank_vram
  = blank_vram.
Proof.
  apply (texel_zero_discard plain_lut false true false plain_cmd 5 5 255 255 255 0 0
           blank_vram).
  vm_compute. reflexivity.
Defined.

(** ** Every shader call of a rasterizer is inside the drawing area *)

Lemma TruncateGPUVertexPosition_small (z : Z) :
  - 1024 <= z <= 1023 -> TruncateGPUVertexPosition z = z.
Proof.
  intros Hz. unfold TruncateGPUVertexPosition.
  rewrite Z.mod_small; lia.
Qed.

Section Clip.

Variable g_drawing_area : DrawingArea.

Local Abbreviation inside := (fun c => in_drawing_area g_drawing_area (pc_x c) (pc_y c)).

Lemma DrawRectangle_calls_inside (cmd : GPUBackendDrawSpriteCommand) :
  Forall inside (DrawRectangle_calls g_drawing_area cmd).
Proof.
  apply Forall_forall. intros c Hin. unfold DrawRectangle_calls in Hin.
  destruct (UnpackColorRGB24 _) as [[r g] b].
  destruct (UnpackTexcoord _) as [tx ty].
  apply in_flat_map in Hin. destruct Hin as (oy & _ & Hin).
  destruct (_ || _ || _) eqn:Hrow; [contradiction |].
  apply in_flat_map in Hin. destruct Hin as (ox & _ & Hin).
  destruct (_ || _) eqn:Hcol in Hin; [contradiction |].
  destruct Hin as [<- | []]. cbn [pc_x pc_y].
  apply orb_false_iff in Hrow. destruct Hrow as [Hrow _].
  apply orb_false_iff in Hrow. apply orb_false_iff in Hcol.
  unfold in_drawing_area. lia.
Qed.


Lemma sort_vertices_11bit (v0 v1 v2 : Vertex) :
  position_11bit v0 -> position_11bit v1 -> position_11bit v2 ->
  let '(a, b, c, _) := sort_vertices v0 v1 v2 in
  position_11bit a /\ position_11bit b /\ position_11bit c.
Proof.
  intros H0 H1 H2. unfold sort_vertices.
  destruct (vy v2 <? vy v1); destruct (vy v1 <? vy v0); destruct (vy v2 <? vy v0);
    repeat match goal with |- context [if ?b then _ else _] => destruct b end;
    auto.
Qed.

Lemma vertex_at_11bit (a b c : Vertex) (i : Z) :
  position_11bit a -> position_11bit b -> position_11bit c ->
  position_11bit (vertex_at (a, b, c) i).
Proof.
  intros. unfold vertex_at. destruct (i =? 0); [| destruct (i =? 1)]; assumption.
Qed.

Lemma line_loop_inside (shading_enable : bool) (cmd : GPUBackendDrawCommand)
    (p0 : LineVertex) (step : line_fxp_step) (n : nat) (cur_point : line_fxp_coord) :
  Forall inside (line_loop g_drawing_area shading_enable cmd p0 step n cur_point).
Proof.
  revert cur_point. induction n as [| n IH]; intros cur_point; [constructor |].
  cbn [line_loop]. apply Forall_app. split; [| apply IH].
  destruct (_ && _ && _ && _ && _) eqn:Hin; [| constructor].
  repeat (apply andb_true_iff in Hin; destruct Hin as [Hin ?]).
  constructor; [| constructor]. cbn [pc_x pc_y]. unfold in_drawing_area. lia.
Qed.

Lemma DrawLine_calls_inside (shading_enable : bool) (cmd : GPUBackendDrawCommand)
    (p0 p1 : LineVertex) :
  Forall inside (DrawLine_calls g_drawing_area shading_enable cmd p0 p1).
Proof.
  unfold DrawLine_calls.
  destruct (_ || _); [constructor |].
  destruct (line_endpoints _ _ _). apply line_loop_inside.
Qed.

End Clip.

(** Inside VRAM two positions share a word only if they are equal. *)
Lemma pixel_index_inj (x y x' y' : Z) :
  0 <= x < VRAM_WIDTH -> 0 <= y < VRAM_HEIGHT ->
  0 <= x' < VRAM_WIDTH -> 0 <= y' < VRAM_HEIGHT ->
  pixel_index x y = pixel_index x' y' -> x = x' /\ y = y'.
Proof.
  unfold pixel_index, u32, VRAM_WIDTH, VRAM_HEIGHT. intros Hx Hy Hx' Hy' E.
  rewrite !Z.mod_small in E by lia. lia.
Qed.

(** Drawing-area bounds below [2^31] are read as they are. *)
Lemma area_bounds_small (g_drawing_area : DrawingArea) :
  0 <= da_left g_drawing_area < 2 ^ 31 -> 0 <= da_top g_drawing_area < 2 ^ 31 ->
  0 <= da_right g_drawing_area < 2 ^ 31 -> 0 <= da_bottom g_drawing_area < 2 ^ 31 ->
  area_left g_drawing_area = da_left g_drawing_area
  /\ area_top g_drawing_area = da_top g_drawing_area
  /\ area_right g_drawing_area = da_right g_drawing_area
  /\ area_bottom g_drawing_area = da_bottom g_drawing_area.
Proof.
  intros Hl Ht Hr Hb. unfold area_left, area_top, area_right, area_bottom, s32.
  rewrite !Z.mod_small by lia. lia.
Qed.

(** ** Function table *)

(** C5, as amended. The entry of the triangle table for the flags
    [shading, texture, raw_texture, transparent, dithering] is the
    instantiation with the same shading, texture and transparency, with
    raw_texture kept only when texture is on, and with dithering kept unless
    raw_texture is set: so with raw_texture set dithering is forced off,
    textured or not, and with texture off and raw_texture clear the
    dithering flag is honoured. *)
Theorem triangle_dispatch (shading texture raw_texture transparent dithering : bool) :
  GetDrawTriangleFunction shading texture raw_texture transparent dithering
  = DrawTriangle_ shading texture (texture && raw_texture) transparent
      (dithering && negb raw_texture).
Proof.
  destruct shading, texture, raw_texture, transparent, dithering; reflexivity.
Qed.

(** C5 as stated fails: with texture off, raw_texture off and dithering on
    the selected function dithers, and it is not the one selected with
    raw_texture on. *)
Lemma triangle_dispatch_untextured_dithers :
  triangle_dithering (GetDrawTriangleFunction false false false false true) = true
  /\ GetDrawTriangleFunction false false false false true
     <> DrawTriangle_ false false false false false
  /\ GetDrawTriangleFunction false false false false true
     <> GetDrawTriangleFunction false false true false true.
Proof. repeat split; discriminate. Qed.

(** ** Vertex sort *)




(** ** Lines *)

(** With shading off every call of the line loop carries the colour of the
    loop's [p0]. *)
Lemma line_loop_flat_color (g_drawing_area : DrawingArea) (cmd : GPUBackendDrawCommand)
    (p0 : LineVertex) (step : line_fxp_step) (n : nat) (cur_point : line_fxp_coord) :
  Forall (fun c => pc_r c = lr p0 /\ pc_g c = lg p0 /\ pc_b c = lb p0)
    (line_loop g_drawing_area false cmd p0 step n cur_point).
Proof.
  revert cur_point. induction n as [| n IH]; intros cur_point; [constructor |].
  cbn [line_loop]. apply Forall_app. split; [| apply IH].
  destruct (_ && _ && _ && _ && _); repeat constructor.
Qed.

(** C10. A flat-shaded line with distinct endpoints and [p0.x >= p1.x] is
    drawn from the swapped endpoints: every pixel it draws is shaded with
    [p1]'s RGB.  The endpoint positions are [s32] values, as the fields of a
    line vertex are. *)
Theorem flat_line_color_from_left_endpoint
    (g_drawing_area : DrawingArea) (cmd : GPUBackendDrawCommand) (p0 p1 : LineVertex) :
  line_position_s32 p0 -> line_position_s32 p1 ->
  Z.max (Z.abs (lx p1 - lx p0)) (Z.abs (ly p1 - ly p0)) > 0 ->
  lx p0 >= lx p1 ->
  Forall (fun c => pc_r c = lr p1 /\ pc_g c = lg p1 /\ pc_b c = lb p1)
    (DrawLine_calls g_drawing_area false cmd p0 p1).
Proof.
  intros [Hx0 Hy0] [Hx1 Hy1] Hk Hx. unfold DrawLine_calls.
  destruct (_ || _) eqn:Hsize; [constructor |].
  apply orb_false_iff in Hsize. destruct Hsize as [Hw Hh].
  apply size_test in Hw; [| unfold MAX_PRIMITIVE_WIDTH; lia].
  apply size_test in Hh; [| unfold MAX_PRIMITIVE_HEIGHT; lia].
  destruct Hw as [_ ->], Hh as [_ ->].
  assert (Hne : s32 (lx p1 - lx p0) <> 0 \/ s32 (ly p1 - ly p0) <> 0).
  { destruct (Z.eq_dec (lx p1) (lx p0)) as [Ex | Ex];
      [right | left]; intros E; apply s32_sub_zero in E; lia. }
  unfold line_endpoints.
  destruct (Z.geb_spec (lx p0) (lx p1)); [| lia].
  match goal with |- context [(if ?a >? ?b then _ else _) >? 0] =>
    destruct (Z.gtb_spec a b) end;
    match goal with |- context [true && (?a >? 0)] =>
      destruct (Z.gtb_spec a 0); [| lia] end;
    cbn [andb]; apply line_loop_flat_color.
Qed.

Lemma flat_line_color_from_left_endpoint_witness :
  Forall (fun c => pc_r c = 7 /\ pc_g c = 8 /\ pc_b c = 9)
    (DrawLine_calls full_area false plain_cmd
       (mkLineVertex 5 9 255 254 253) (mkLineVertex 5 5 7 8 9)).
Proof.
  apply (flat_line_color_from_left_endpoint full_area plain_cmd
           (mkLineVertex 5 9 255 254 253) (mkLineVertex 5 5 7 8 9));
    [ unfold line_position_s32; cbn; lia
    | unfold line_position_s32; cbn; lia
    | vm_compute; reflexivity
    | vm_compute; discriminate ].
Defined.

(** The line of the witness does draw pixels, all with the second endpoint's
    colour. *)
Example flat_line_example :
  map (fun c => (pc_x c, pc_y c, pc_r c))
    (DrawLine_calls full_area false plain_cmd
       (mkLineVertex 5 9 255 254 253) (mkLineVertex 5 5 7 8 9))
  = [(5, 5, 7); (5, 6, 7); (5, 7, 7); (5, 8, 7); (5, 9, 7)].
Proof. vm_compute. reflexivity. Qed.

(** ** Blend arithmetic *)

(** *** Bitwise operations on words split at a bit position *)

Lemma testbit_split (k a b n : Z) :
  0 <= k -> 0 <= a < 2 ^ k -> 0 <= n ->
  Z.testbit (a + 2 ^ k * b) n = if n <? k then Z.testbit a n else Z.testbit b (n - k).
Proof.
  intros Hk Ha Hn.
  assert (Hpos : 0 < 2 ^ k) by (apply Z.pow_pos_nonneg; lia).
  destruct (Z.ltb_spec n k).
  - rewrite <- (Z.mod_pow2_bits_low (a + 2 ^ k * b) k n) by lia.
    replace (a + 2 ^ k * b) with (a + b * 2 ^ k) by lia.
    rewrite Z.mod_add by lia.
    rewrite Z.mod_small by lia. reflexivity.
  - replace n with ((n - k) + k) at 1 by lia.
    rewrite <- Z.div_pow2_bits by lia.
    replace (a + 2 ^ k * b) with (a + b * 2 ^ k) by lia.
    rewrite Z.div_add by lia.
    rewrite Z.div_small by lia. reflexivity.
Qed.

Lemma small_high_bits (k a n : Z) :
  0 <= a < 2 ^ k -> k <= n -> Z.testbit a n = false.
Proof.
  intros Ha Hn.
  destruct (Z.ltb_spec k 0).
  - rewrite Z.pow_neg_r in Ha by lia. lia.
  - rewrite <- (Z.mod_small a (2 ^ k)) by lia.
    apply Z.mod_pow2_bits_high. lia.
Qed.

Section BitOp.
Variable op : Z -> Z -> Z.
Variable f : bool -> bool -> bool.
Hypothesis f_false : f false false = false.
Hypothesis op_spec : forall a b n, Z.testbit (op a b) n = f (Z.testbit a n) (Z.testbit b n).

Lemma op_small (k a a' : Z) :
  0 <= k -> 0 <= a < 2 ^ k -> 0 <= a' < 2 ^ k -> 0 <= op a a' < 2 ^ k.
Proof.
  intros Hk Ha Ha'.
  assert (Hpos : 0 < 2 ^ k) by (apply Z.pow_pos_nonneg; lia).
  assert (Heq : op a a' mod 2 ^ k = op a a').
  { apply Z.bits_inj'. intros n Hn.
    destruct (Z.ltb_spec n k).
    - apply Z.mod_pow2_bits_low. lia.
    - rewrite Z.mod_pow2_bits_high by lia.
      rewrite op_spec, (small_high_bits k a n), (small_high_bits k a' n) by lia.
      now rewrite f_false. }
  rewrite <- Heq. apply Z.mod_pos_bound. lia.
Qed.

Lemma op_split (k a b a' b' : Z) :
  0 <= k -> 0 <= a < 2 ^ k -> 0 <= a' < 2 ^ k ->
  op (a + 2 ^ k * b) (a' + 2 ^ k * b') = op a a' + 2 ^ k * op b b'.
Proof.
  intros Hk Ha Ha'.
  apply Z.bits_inj'. intros n Hn.
  rewrite op_spec, !testbit_split by (auto using op_small).
  destruct (n <? k); now rewrite op_spec.
Qed.
End BitOp.

(** *** Checking a property of two channel values on all 32 x 32 of them *)

Lemma forall_below_spec (n : nat) (P : Z -> bool) :
  forall_below n P = true -> forall z, 0 <= z < Z.of_nat n -> P z = true.
Proof.
  induction n as [| n IH]; intros Hall z Hz; [lia |].
  cbn [forall_below] in Hall. apply andb_true_iff in Hall. destruct Hall as [Hn Hall].
  destruct (Z.eq_dec z (Z.of_nat n)) as [-> | Hne]; [exact Hn |].
  apply IH; [exact Hall | lia].
Qed.

(** *** Bitwise operations act channel by channel *)

Section PackOp.
Variable op : Z -> Z -> Z.
Variable f : bool -> bool -> bool.
Hypothesis f_false : f false false = false.
Hypothesis op_spec : forall a b n, Z.testbit (op a b) n = f (Z.testbit a n) (Z.testbit b n).

Lemma op_pack (r g b m r' g' b' m' : Z) :
  0 <= r < 32 -> 0 <= g < 32 -> 0 <= b < 32 ->
  0 <= r' < 32 -> 0 <= g' < 32 -> 0 <= b' < 32 ->
  op (pack r g b m) (pack r' g' b' m') = pack (op r r') (op g g') (op b b') (op m m').
Proof.
  intros. unfold pack. change 32 with (2 ^ 5).
  now rewrite !(op_split op f f_false op_spec 5) by lia.
Qed.
End PackOp.

Lemma lxor_small5 (a b : Z) : 0 <= a < 32 -> 0 <= b < 32 -> 0 <= Z.lxor a b < 32.
Proof. apply (op_small Z.lxor xorb eq_refl Z.lxor_spec 5). lia. Qed.

Lemma land_pack : forall r g b m r' g' b' m' : Z,
  0 <= r < 32 -> 0 <= g < 32 -> 0 <= b < 32 ->
  0 <= r' < 32 -> 0 <= g' < 32 -> 0 <= b' < 32 ->
  Z.land (pack r g b m) (pack r' g' b' m')
  = pack (Z.land r r') (Z.land g g') (Z.land b b') (Z.land m m').
Proof. exact (op_pack Z.land andb eq_refl Z.land_spec). Qed.

Lemma lor_pack : forall r g b m r' g' b' m' : Z,
  0 <= r < 32 -> 0 <= g < 32 -> 0 <= b < 32 ->
  0 <= r' < 32 -> 0 <= g' < 32 -> 0 <= b' < 32 ->
  Z.lor (pack r g b m) (pack r' g' b' m')
  = pack (Z.lor r r') (Z.lor g g') (Z.lor b b') (Z.lor m m').
Proof. exact (op_pack Z.lor orb eq_refl Z.lor_spec). Qed.

Lemma lxor_pack : forall r g b m r' g' b' m' : Z,
  0 <= r < 32 -> 0 <= g < 32 -> 0 <= b < 32 ->
  0 <= r' < 32 -> 0 <= g' < 32 -> 0 <= b' < 32 ->
  Z.lxor (pack r g b m) (pack r' g' b' m')
  = pack (Z.lxor r r') (Z.lxor g g') (Z.lxor b b') (Z.lxor m m').
Proof. exact (op_pack Z.lxor xorb eq_refl Z.lxor_spec). Qed.


Lemma add_channel_facts (f b : Z) :
  0 <= f < 32 -> 0 <= b < 32 -> add_channel_ok f b = true.
Proof.
  intros Hf Hb.
  assert (Hall : forall_below 32 (fun f => forall_below 32 (fun b => add_channel_ok f b)) = true)
    by (vm_compute; reflexivity).
  apply (forall_below_spec 32 _ (forall_below_spec 32 _ Hall f Hf) b Hb).
Qed.

Lemma sub_channel_facts (b f : Z) :
  0 <= b < 32 -> 0 <= f < 32 -> sub_channel_ok b f = true.
Proof.
  intros Hb Hf.
  assert (Hall : forall_below 32 (fun b => forall_below 32 (fun f => sub_channel_ok b f)) = true)
    by (vm_compute; reflexivity).
  apply (forall_below_spec 32 _ (forall_below_spec 32 _ Hall b Hb) f Hf).
Qed.

Ltac split_facts H :=
  repeat (apply andb_true_iff in H;
          let H' := fresh "F" in destruct H as [H H']);
  repeat match goal with
         | F : (_ =? _) = true |- _ => apply Z.eqb_eq in F
         | F : (_ <=? _) = true |- _ => apply Z.leb_le in F
         | F : (_ <? _) = true |- _ => apply Z.ltb_lt in F
         end.

Lemma u32_small (z : Z) : 0 <= z < 2 ^ 32 -> u32 z = z.
Proof. intros. unfold u32. now apply Z.mod_small. Qed.

Lemma land_bit (l k : Z) :
  Z.land l 1 = 0 -> Z.land (l + 1) 1 = 1 -> 0 <= k <= 1 -> Z.land (l + k) 1 = k.
Proof.
  intros H0 H1 Hk. assert (k = 0 \/ k = 1) as [-> | ->] by lia;
    [now rewrite Z.add_0_r | exact H1].
Qed.

Lemma blend_add_pack (fr fg fb fm br bg bb bm : Z) :
  0 <= fr < 32 -> 0 <= fg < 32 -> 0 <= fb < 32 -> 0 <= fm <= 1 ->
  0 <= br < 32 -> 0 <= bg < 32 -> 0 <= bb < 32 -> 0 <= bm <= 1 ->
  blend BackgroundPlusForeground (pack fr fg fb fm) (pack br bg bb bm)
  = pack (Z.min 31 (fr + br)) (Z.min 31 (fg + bg)) (Z.min 31 (fb + bb)) fm.
Proof.
  intros Hfr Hfg Hfb Hfm Hbr Hbg Hbb Hbm.
  pose proof (add_channel_facts fr br Hfr Hbr) as Fr. split_facts Fr.
  pose proof (add_channel_facts fg bg Hfg Hbg) as Fg. split_facts Fg.
  pose proof (add_channel_facts fb bb Hfb Hbb) as Fb. split_facts Fb.
  pose proof (lxor_small5 fr br Hfr Hbr).
  pose proof (lxor_small5 fg bg Hfg Hbg).
  pose proof (lxor_small5 fb bb Hfb Hbb).
  assert (Hbm0 : Z.land bm 131070 = 0)
    by (assert (bm = 0 \/ bm = 1) as [-> | ->] by lia; reflexivity).
  assert (Hfm1 : Z.land (Z.lxor fm 0) 1 = fm)
    by (assert (fm = 0 \/ fm = 1) as [-> | ->] by lia; reflexivity).
  assert (Hkb : Z.land (add_k fb bb) 1 = add_k fb bb)
    by (assert (add_k fb bb = 0 \/ add_k fb bb = 1) as [-> | ->] by lia; reflexivity).
  unfold blend. cbv zeta.
  change 0xFFFF7FFF with (pack 31 31 31 131070).
  rewrite land_pack by lia.
  rewrite Fr, Fg, Fb, Hbm0.
  rewrite lxor_pack by lia.
  change 0x8421 with (pack 1 1 1 1).
  rewrite land_pack by lia.
  fold (add_x fr br) (add_x fg bg) (add_x fb bb). rewrite Hfm1.
  rewrite (u32_small (pack fr fg fb fm + pack br bg bb 0)) by (unfold pack; lia).
  replace (u32 (pack fr fg fb fm + pack br bg bb 0
                - pack (add_x fr br) (add_x fg bg) (add_x fb bb) fm))
    with (pack (add_l fr br) (add_l fg bg + add_k fr br) (add_l fb bb + add_k fg bg)
            (add_k fb bb))
    by (rewrite u32_small; unfold pack; lia).
  change 0x8420 with (pack 0 1 1 1).
  rewrite land_pack by lia.
  rewrite Z.land_0_r, !land_bit, Hkb by (assumption || lia).
  replace (u32 (pack fr fg fb fm + pack br bg bb 0
                - pack 0 (add_k fr br) (add_k fg bg) (add_k fb bb)))
    with (pack (fr + br - 32 * add_k fr br) (fg + bg - 32 * add_k fg bg)
            (fb + bb - 32 * add_k fb bb) fm)
    by (rewrite u32_small; unfold pack; lia).
  replace (u32 (pack 0 (add_k fr br) (add_k fg bg) (add_k fb bb)
                - Z.shiftr (pack 0 (add_k fr br) (add_k fg bg) (add_k fb bb)) 5))
    with (pack (31 * add_k fr br) (31 * add_k fg bg) (31 * add_k fb bb) 0).
  2:{ rewrite Z.shiftr_div_pow2 by lia. change (2 ^ 5) with 32.
      replace (pack 0 (add_k fr br) (add_k fg bg) (add_k fb bb) / 32)
        with (add_k fr br + 32 * (add_k fg bg + 32 * add_k fb bb))
        by (unfold pack; apply Z.div_unique with 0; lia).
      rewrite u32_small; unfold pack; lia. }
  rewrite lor_pack by lia.
  repeat match goal with
         | E : Z.lor _ _ = Z.min _ _ |- _ => rewrite E; clear E
         end.
  rewrite Z.lor_0_r.
  unfold Truncate16. apply Z.mod_small. unfold pack. lia.
Qed.

Lemma blend_sub_pack (fr fg fb fm br bg bb bm : Z) :
  0 <= fr < 32 -> 0 <= fg < 32 -> 0 <= fb < 32 -> 0 <= fm <= 1 ->
  0 <= br < 32 -> 0 <= bg < 32 -> 0 <= bb < 32 -> 0 <= bm <= 1 ->
  blend BackgroundMinusForeground (pack fr fg fb fm) (pack br bg bb bm)
  = pack (Z.max 0 (br - fr)) (Z.max 0 (bg - fg)) (Z.max 0 (bb - fb)) 1.
Proof.
  intros Hfr Hfg Hfb Hfm Hbr Hbg Hbb Hbm.
  pose proof (sub_channel_facts br fr Hbr Hfr) as Fr. split_facts Fr.
  pose proof (sub_channel_facts bg fg Hbg Hfg) as Fg. split_facts Fg.
  pose proof (sub_channel_facts bb fb Hbb Hfb) as Fb. split_facts Fb.
  pose proof (lxor_small5 br fr Hbr Hfr).
  pose proof (lxor_small5 bg fg Hbg Hfg).
  pose proof (lxor_small5 bb fb Hbb Hfb).
  assert (Hbm1 : Z.lor bm 1 = 1)
    by (assert (bm = 0 \/ bm = 1) as [-> | ->] by lia; reflexivity).
  assert (Hfm0 : Z.land fm 131070 = 0)
    by (assert (fm = 0 \/ fm = 1) as [-> | ->] by lia; reflexivity).
  assert (Hnb : Z.land (32 + sub_n bb fb) 33 = 32 + sub_n bb fb)
    by (assert (sub_n bb fb = 0 \/ sub_n bb fb = 1) as [-> | ->] by lia; reflexivity).
  unfold blend. cbv zeta.
  change 0x8000 with (pack 0 0 0 1).
  rewrite lor_pack by lia. rewrite !Z.lor_0_r, Hbm1.
  change 0xFFFF7FFF with (pack 31 31 31 131070).
  rewrite land_pack by lia.
  rewrite Fr, Fg, Fb, Hfm0.
  rewrite lxor_pack by lia.
  change 0x108420 with (pack 0 1 1 33).
  rewrite land_pack by lia.
  fold (sub_x bg fg) (sub_x bb fb).
  rewrite Z.land_0_r. change (Z.land (Z.lxor 1 0) 33) with 1.
  rewrite (u32_small (pack br bg bb 1 - pack fr fg fb 0 + pack 0 1 1 33))
    by (unfold pack; lia).
  replace (u32 (pack br bg bb 1 - pack fr fg fb 0 + pack 0 1 1 33
                - pack 0 (sub_x bg fg) (sub_x bb fb) 1))
    with (pack (sub_l br fr) (sub_lx bg fg + sub_n br fr) (sub_lx bb fb + sub_n bg fg)
            (32 + sub_n bb fb))
    by (rewrite u32_small; unfold pack; lia).
  rewrite land_pack by lia.
  rewrite Z.land_0_r, !land_bit, Hnb by (assumption || lia).
  replace (u32 (pack br bg bb 1 - pack fr fg fb 0 + pack 0 1 1 33
                - pack 0 (sub_n br fr) (sub_n bg fg) (32 + sub_n bb fb)))
    with (pack (sub_l br fr) (sub_l bg fg) (sub_l bb fb) 1)
    by (rewrite u32_small; unfold pack; lia).
  replace (u32 (pack 0 (sub_n br fr) (sub_n bg fg) (32 + sub_n bb fb)
                - Z.shiftr (pack 0 (sub_n br fr) (sub_n bg fg) (32 + sub_n bb fb)) 5))
    with (pack (31 * sub_n br fr) (31 * sub_n bg fg) (31 * sub_n bb fb) 31).
  2:{ rewrite Z.shiftr_div_pow2 by lia. change (2 ^ 5) with 32.
      replace (pack 0 (sub_n br fr) (sub_n bg fg) (32 + sub_n bb fb) / 32)
        with (sub_n br fr + 32 * (sub_n bg fg + 32 * (32 + sub_n bb fb)))
        by (unfold pack; apply Z.div_unique with 0; lia).
      rewrite u32_small; unfold pack; lia. }
  rewrite land_pack by lia.
  repeat match goal with
         | E : Z.land _ _ = Z.max _ _ |- _ => rewrite E; clear E
         end.
  change (Z.land 1 31) with 1.
  unfold Truncate16. apply Z.mod_small. unfold pack. lia.
Qed.

(** *** Channels of a packed word *)

Lemma channel_div_mod (c w : Z) : 0 <= c -> channel c w = (w / 2 ^ (5 * c)) mod 32.
Proof.
  intros Hc. unfold channel.
  rewrite Z.shiftr_div_pow2 by lia.
  change 31 with (Z.ones 5). now rewrite Z.land_ones by lia.
Qed.

Lemma channel_pack (r g b m : Z) :
  0 <= r < 32 -> 0 <= g < 32 -> 0 <= b < 32 ->
  channel 0 (pack r g b m) = r
  /\ channel 1 (pack r g b m) = g
  /\ channel 2 (pack r g b m) = b.
Proof.
  intros Hr Hg Hb. rewrite !channel_div_mod by lia.
  change (2 ^ (5 * 0)) with 1. change (2 ^ (5 * 1)) with 32.
  change (2 ^ (5 * 2)) with 1024.
  unfold pack. repeat split; Z.div_mod_to_equations; lia.
Qed.

Lemma word_unpack (w : Z) :
  0 <= w < 65536 ->
  w = pack (channel 0 w) (channel 1 w) (channel 2 w) (w / 32768)
  /\ 0 <= channel 0 w < 32 /\ 0 <= channel 1 w < 32 /\ 0 <= channel 2 w < 32
  /\ 0 <= w / 32768 <= 1.
Proof.
  intros Hw. rewrite !channel_div_mod by lia.
  change (2 ^ (5 * 0)) with 1. change (2 ^ (5 * 1)) with 32.
  change (2 ^ (5 * 2)) with 1024.
  unfold pack. repeat split; Z.div_mod_to_equations; lia.
Qed.

(** C7. Blend saturation: for all 16-bit foreground and background words
    and each of the three 5-bit channels, the Add formula yields
    [min(31, fg_channel + bg_channel)] and the Sub formula yields
    [max(0, bg_channel - fg_channel)]. *)
Theorem blend_saturation (fg bg c : Z) :
  0 <= fg < 65536 -> 0 <= bg < 65536 -> 0 <= c <= 2 ->
  channel c (blend BackgroundPlusForeground fg bg)
  = Z.min 31 (channel c fg + channel c bg)
  /\ channel c (blend BackgroundMinusForeground fg bg)
     = Z.max 0 (channel c bg - channel c fg).
Proof.
  intros Hfg Hbg Hc.
  destruct (word_unpack fg Hfg) as (Ef & Hfr & Hfg1 & Hfb & Hfm).
  destruct (word_unpack bg Hbg) as (Eb & Hbr & Hbg1 & Hbb & Hbm).
  rewrite Ef at 1 3. rewrite Eb at 1 3.
  rewrite blend_add_pack, blend_sub_pack by assumption.
  pose proof (channel_pack (Z.min 31 (channel 0 fg + channel 0 bg))
                (Z.min 31 (channel 1 fg + channel 1 bg))
                (Z.min 31 (channel 2 fg + channel 2 bg)) (fg / 32768)) as (A0 & A1 & A2);
    try lia.
  pose proof (channel_pack (Z.max 0 (channel 0 bg - channel 0 fg))
                (Z.max 0 (channel 1 bg - channel 1 fg))
                (Z.max 0 (channel 2 bg - channel 2 fg)) 1) as (S0 & S1 & S2);
    try lia.
  assert (c = 0 \/ c = 1 \/ c = 2) as [-> | [-> | ->]] by lia; split; assumption.
Qed.

Lemma blend_saturation_witness :
  channel 1 (blend BackgroundPlusForeground 0x7FFF 0x03E0) = Z.min 31 (31 + 31)
  /\ channel 1 (blend BackgroundMinusForeground 0x7FFF 0x03E0) = Z.max 0 (31 - 31).
Proof.
  apply (blend_saturation 0x7FFF 0x03E0 1); lia.
Defined.

(** C8. Add-blend commutativity: for all 16-bit words [a] and [b] the Add
    formula gives the same bits 0 to 14 for [(a, b)] and for [(b, a)]. *)
Theorem add_blend_commutative (a b : Z) :
  0 <= a < 65536 -> 0 <= b < 65536 ->
  Z.land (blend BackgroundPlusForeground a b) 0x7FFF
  = Z.land (blend BackgroundPlusForeground b a) 0x7FFF.
Proof.
  intros Ha Hb.
  destruct (word_unpack a Ha) as (Ea & Har & Hag & Hab & Ham).
  destruct (word_unpack b Hb) as (Eb & Hbr & Hbg & Hbb & Hbm).
  rewrite Ea at 1 2. rewrite Eb at 1 2.
  rewrite !blend_add_pack by assumption.
  rewrite (Z.add_comm (channel 0 b)), (Z.add_comm (channel 1 b)),
    (Z.add_comm (channel 2 b)).
  change 0x7FFF with (Z.ones 15). rewrite !Z.land_ones by lia.
  change (2 ^ 15) with 32768.
  unfold pack. Z.div_mod_to_equations. lia.
Qed.

Lemma add_blend_commutative_witness :
  Z.land (blend BackgroundPlusForeground 0x8421 0x7C1F) 0x7FFF
  = Z.land (blend BackgroundPlusForeground 0x7C1F 0x8421) 0x7FFF.
Proof.
  apply (add_blend_commutative 0x8421 0x7C1F); lia.
Defined.

(** ** Degenerate lines *)

Lemma shl32_u64 (x : Z) :
  u64 (Z.shiftl (u64 x) 32) = 2 ^ 32 * (x mod 2 ^ 32).
Proof.
  unfold u64. rewrite Z.shiftl_mul_pow2 by lia.
  change (2 ^ 64) with (2 ^ 32 * 2 ^ 32).
  rewrite Z.mul_comm, Z.mul_mod_distr_l by lia.
  rewrite Z.mod_mod_divide by (exists (2 ^ 32); reflexivity).
  reflexivity.
Qed.

Lemma u64_small (z : Z) : 0 <= z < 2 ^ 64 -> u64 z = z.
Proof. intros. unfold u64. now apply Z.mod_small. Qed.

Lemma lor_half (m : Z) :
  Z.lor (2 ^ 32 * m) (2 ^ 31) = 2 ^ 31 + 2 ^ 32 * m.
Proof.
  replace (2 ^ 32 * m) with (0 + 2 ^ 32 * m) by lia.
  replace (2 ^ 31) with (2 ^ 31 + 2 ^ 32 * 0) at 1 by lia.
  rewrite (op_split Z.lor orb eq_refl Z.lor_spec 32) by lia.
  now rewrite Z.lor_0_l, Z.lor_0_r.
Qed.

Lemma line_origin (x : Z) :
  u64 (Z.lor (u64 (Z.shiftl (u64 x) Line_XY_FractBits))
             (Z.shiftl 1 (Line_XY_FractBits - 1)))
  = 2 ^ 31 + 2 ^ 32 * (x mod 2 ^ 32).
Proof.
  unfold Line_XY_FractBits.
  rewrite shl32_u64. change (Z.shiftl 1 (32 - 1)) with (2 ^ 31).
  rewrite lor_half.
  pose proof (Z.mod_pos_bound x (2 ^ 32) ltac:(lia)) as Hm.
  unfold u64. apply Z.mod_small. lia.
Qed.

Lemma line_pixel (x bias : Z) :
  0 <= bias <= 1024 ->
  s32 (Z.land (Z.shiftr (2 ^ 31 + 2 ^ 32 * (x mod 2 ^ 32) - bias) Line_XY_FractBits) 2047)
  = x mod 2048.
Proof.
  intros Hb. unfold Line_XY_FractBits.
  pose proof (Z.mod_pos_bound x (2 ^ 32) ltac:(lia)) as Hm.
  rewrite Z.shiftr_div_pow2 by lia.
  replace ((2 ^ 31 + 2 ^ 32 * (x mod 2 ^ 32) - bias) / 2 ^ 32) with (x mod 2 ^ 32)
    by (apply Z.div_unique with (2 ^ 31 - bias); lia).
  change 2047 with (Z.ones 11). rewrite Z.land_ones by lia.
  rewrite Z.mod_mod_divide by (exists (2 ^ 21); reflexivity).
  change (2 ^ 11) with 2048.
  pose proof (Z.mod_pos_bound x 2048 ltac:(lia)).
  unfold s32. rewrite Z.mod_small; lia.
Qed.

(** C9, as amended. A line whose endpoints have the same position visits
    one position, [(p0.x mod 2048, p0.y mod 2048)]: exactly one pixel is
    drawn, there, when that position is inside the drawing area and its row
    is not skipped by interlacing; otherwise no pixel is drawn. *)
Theorem degenerate_line (g_drawing_area : DrawingArea) (shading_enable : bool)
    (cmd : GPUBackendDrawCommand) (p0 p1 : LineVertex) :
  lx p0 = lx p1 -> ly p0 = ly p1 ->
  let x := lx p0 mod 2048 in
  let y := ly p0 mod 2048 in
  map (fun c => (pc_x c, pc_y c))
    (DrawLine_calls g_drawing_area shading_enable cmd p0 p1)
  = if negb (interlace_skip cmd y)
       && (x >=? area_left g_drawing_area) && (x <=? area_right g_drawing_area)
       && (y >=? area_top g_drawing_area) && (y <=? area_bottom g_drawing_area)
    then [(x, y)] else [].
Proof.
  intros Hx Hy. unfold DrawLine_calls, line_endpoints.
  rewrite <- Hx, <- Hy, !Z.sub_diag.
  change (abs32 (s32 0)) with 0. change (u32 0) with 0.
  cbn [Z.abs Z.gtb Z.compare Z.geb orb andb MAX_PRIMITIVE_WIDTH MAX_PRIMITIVE_HEIGHT
       Z.eqb Z.add Z.to_nat Pos.to_nat Pos.iter_op Nat.add dy_dk Z.ltb].
  rewrite andb_false_r, !line_origin.
  change (Pos.to_nat 1) with 1%nat.
  cbn [line_loop cur_x cur_y].
  pose proof (Z.mod_pos_bound (lx p0) (2 ^ 32) ltac:(lia)) as Hm.
  rewrite (u64_small (_ - 1024)) by lia.
  rewrite (line_pixel (lx p0) 1024) by lia.
  rewrite <- (Z.sub_0_r (2 ^ 31 + 2 ^ 32 * (ly p0 mod 2 ^ 32))).
  rewrite (line_pixel (ly p0) 0) by lia.
  rewrite app_nil_r.
  destruct (_ && _ && _ && _ && _); reflexivity.
Qed.

Lemma degenerate_line_witness :
  map (fun c => (pc_x c, pc_y c))
    (DrawLine_calls full_area true plain_cmd point_5_5 point_5_5)
  = [(5, 5)].
Proof.
  apply (degenerate_line full_area true plain_cmd point_5_5 point_5_5); reflexivity.
Defined.

(** C9 as stated fails: the same degenerate line draws no pixel when its
    position is outside the drawing area, and VRAM is left as it was. *)
Lemma degenerate_line_clipped :
  DrawLine_calls small_area false plain_cmd point_5_5 point_5_5 = []
  /\ Draw plain_lut small_area (LineCommand false false false plain_cmd point_5_5 point_5_5)
       blank_vram (pixel_index 5 5) = blank_vram (pixel_index 5 5).
Proof. split; vm_compute; reflexivity. Qed.

(** ** Fixed-point divisions *)

Lemma quot_toward_zero (n d : Z) : d <> 0 -> rounds_toward_zero n d (Z.quot n d).
Proof.
  intros Hd. unfold rounds_toward_zero.
  pose proof (Z.quot_rem' n d) as E.
  pose proof (Z.rem_bound_abs n d Hd) as Hb.
  pose proof (Z.rem_sign_mul n d Hd) as Hs.
  generalize dependent (Z.rem n d). generalize dependent (Z.quot n d).
  intros q r E Hb Hs.
  assert (Hr : n - q * d = r) by lia. rewrite Hr.
  split; [| exact Hb].
  replace (q * d) with (n - r) by lia.
  assert (Hle : Z.abs r <= Z.abs n).
  { destruct (Z.eq_dec q 0) as [-> | Hq]; [replace r with n by lia; lia |].
    assert (Z.abs d <= Z.abs (q * d)) by (rewrite Z.abs_mul; nia).
    nia. }
  nia.
Qed.

Lemma adjusted_quot_away (n d : Z) :
  0 < d ->
  rounds_away n d (Z.quot (n + Z.sgn n * (d - 1)) d).
Proof.
  intros Hd. unfold rounds_away.
  destruct (Z.sgn_spec n) as [[Hn ->] | [[Hn ->] | [Hn ->]]].
  - rewrite Z.quot_div_nonneg by lia.
    Z.div_mod_to_equations. nia.
  - subst n. cbn. lia.
  - replace (n + - (1) * (d - 1)) with (- (- n + (d - 1))) by lia.
    rewrite Z.quot_opp_l by lia.
    rewrite Z.quot_div_nonneg by lia.
    Z.div_mod_to_equations. nia.
Qed.

Lemma shl32_s64 (x : Z) :
  - 2 ^ 31 <= x < 2 ^ 31 -> s64 (u64 (Z.shiftl (u64 x) 32)) = x * 2 ^ 32.
Proof.
  intros Hx. unfold s64, u64. rewrite Z.shiftl_mul_pow2 by lia.
  Z.div_mod_to_equations. lia.
Qed.

Lemma MakePolyXFPStep_closed (dx dy : Z) :
  - 2 ^ 31 <= dx < 2 ^ 31 -> 0 < dy ->
  MakePolyXFPStep dx dy = Z.quot (dx * 2 ^ 32 + Z.sgn dx * (dy - 1)) dy.
Proof.
  intros Hdx Hdy. unfold MakePolyXFPStep. rewrite shl32_s64 by lia.
  destruct (Z.sgn_spec dx) as [[Hn ->] | [[Hn ->] | [Hn ->]]].
  - destruct (Z.ltb_spec (dx * 2 ^ 32) 0); [lia |].
    destruct (Z.gtb_spec (dx * 2 ^ 32) 0); [| lia]. f_equal; lia.
  - subst dx. reflexivity.
  - destruct (Z.ltb_spec (dx * 2 ^ 32) 0); [| lia].
    destruct (Z.gtb_spec (dx * 2 ^ 32 - (dy - 1)) 0); [lia |]. f_equal; lia.
Qed.

Lemma LineDivide_closed (delta dk : Z) :
  - 2 ^ 31 <= delta < 2 ^ 31 -> 0 < dk ->
  LineDivide delta dk = Z.quot (delta * 2 ^ 32 + Z.sgn delta * (dk - 1)) dk.
Proof.
  intros Hdx Hdy. unfold LineDivide, Line_XY_FractBits. rewrite shl32_s64 by lia.
  destruct (Z.sgn_spec delta) as [[Hn ->] | [[Hn ->] | [Hn ->]]].
  - destruct (Z.ltb_spec (delta * 2 ^ 32) 0); [lia |].
    destruct (Z.gtb_spec (delta * 2 ^ 32) 0); [| lia]. f_equal; lia.
  - subst delta. reflexivity.
  - destruct (Z.ltb_spec (delta * 2 ^ 32) 0); [| lia].
    destruct (Z.gtb_spec (delta * 2 ^ 32 - (dk - 1)) 0); [lia |]. f_equal; lia.
Qed.

Lemma line_color_step_closed (c0 c1 k : Z) :
  0 <= c0 < 256 -> 0 <= c1 < 256 ->
  line_color_step c0 c1 k = Z.quot ((c1 - c0) * 2 ^ 12) k.
Proof.
  intros H0 H1. unfold line_color_step, Line_RGB_FractBits. f_equal.
  unfold s32, u32. rewrite Z.shiftl_mul_pow2 by lia.
  Z.div_mod_to_equations. lia.
Qed.

(** C4, as amended. The triangle edge slopes ([MakePolyXFPStep]) and the
    line position steps ([LineDivide]) divide after adjusting the numerator
    by plus or minus (denominator - 1), which rounds the quotient away from
    zero; the attribute gradients of [CalcIDeltas] and the line colour steps
    divide without adjustment, which rounds toward zero. *)
Theorem fixed_point_rounding (dx dy c0 c1 k denom : Z) (fx fy : Vertex -> Z)
    (A B C : Vertex) :
  - 2 ^ 31 < dx < 2 ^ 31 -> 0 < dy < 2 ^ 31 ->
  0 <= c0 < 256 -> 0 <= c1 < 256 -> 0 < k -> denom <> 0 ->
  (MakePolyXFPStep dx dy = Z.quot (dx * 2 ^ 32 + Z.sgn dx * (dy - 1)) dy
   /\ rounds_away (dx * 2 ^ 32) dy (MakePolyXFPStep dx dy))
  /\ (LineDivide dx dy = Z.quot (dx * 2 ^ 32 + Z.sgn dx * (dy - 1)) dy
      /\ rounds_away (dx * 2 ^ 32) dy (LineDivide dx dy))
  /\ (line_color_step c0 c1 k = Z.quot ((c1 - c0) * 2 ^ 12) k
      /\ rounds_toward_zero ((c1 - c0) * 2 ^ 12) k (line_color_step c0 c1 k))
  /\ (gradient_quotient fx fy A B C denom = Z.quot (CALCIS fx fy A B C * 2 ^ 12) denom
      /\ rounds_toward_zero (CALCIS fx fy A B C * 2 ^ 12) denom
           (gradient_quotient fx fy A B C denom)).
Proof.
  intros Hdx Hdy Hc0 Hc1 Hk Hdenom.
  rewrite MakePolyXFPStep_closed, LineDivide_closed, line_color_step_closed by lia.
  assert (Hsgn : Z.sgn dx = Z.sgn (dx * 2 ^ 32))
    by (rewrite Z.sgn_mul; change (Z.sgn (2 ^ 32)) with 1; lia).
  rewrite Hsgn.
  split; [split; [reflexivity | apply adjusted_quot_away; lia] |].
  split; [split; [reflexivity | apply adjusted_quot_away; lia] |].
  split; [split; [reflexivity | apply quot_toward_zero; lia] |].
  split; [reflexivity | now apply quot_toward_zero].
Qed.

Lemma fixed_point_rounding_witness :
  (MakePolyXFPStep 1 3 = Z.quot (1 * 2 ^ 32 + Z.sgn 1 * (3 - 1)) 3
   /\ rounds_away (1 * 2 ^ 32) 3 (MakePolyXFPStep 1 3))
  /\ (LineDivide 1 3 = Z.quot (1 * 2 ^ 32 + Z.sgn 1 * (3 - 1)) 3
      /\ rounds_away (1 * 2 ^ 32) 3 (LineDivide 1 3))
  /\ (line_color_step 0 1 3 = Z.quot ((1 - 0) * 2 ^ 12) 3
      /\ rounds_toward_zero ((1 - 0) * 2 ^ 12) 3 (line_color_step 0 1 3))
  /\ (gradient_quotient vr vy grad_A grad_B grad_C 9
      = Z.quot (CALCIS vr vy grad_A grad_B grad_C * 2 ^ 12) 9
      /\ rounds_toward_zero (CALCIS vr vy grad_A grad_B grad_C * 2 ^ 12) 9
           (gradient_quotient vr vy grad_A grad_B grad_C 9)).
Proof.
  apply (fixed_point_rounding 1 3 0 1 3 9 vr vy grad_A grad_B grad_C); lia.
Defined.

(** C4 as stated fails: a line colour step and an attribute gradient are
    truncated, not rounded away from zero. *)
Lemma color_divisions_truncate :
  line_color_step 0 1 3 = 1365
  /\ ~ rounds_away ((1 - 0) * 2 ^ 12) 3 (line_color_step 0 1 3)
  /\ gradient_quotient vr vy grad_A grad_B grad_C (CALCIS vx vy grad_A grad_B grad_C)
     = - 1365
  /\ ~ rounds_away (CALCIS vr vy grad_A grad_B grad_C * 2 ^ 12)
         (CALCIS vx vy grad_A grad_B grad_C)
         (gradient_quotient vr vy grad_A grad_B grad_C
            (CALCIS vx vy grad_A grad_B grad_C)).
Proof.
  split; [reflexivity |].
  split; [unfold rounds_away; intros [H _]; vm_compute in H; now apply H |].
  split; [reflexivity |].
  unfold rounds_away; intros [H _]; vm_compute in H; now apply H.
Qed.

(** ** Scenarios of the specification, evaluated *)

(** Scenario 1: an opaque flat 2x2 red rectangle at (10, 20). *)
Example scenario_opaque_rectangle :
  map (fun xy =>
         Draw plain_lut full_area
           (RectangleCommand false false false
              {| sprite_cmd := plain_cmd; sprite_x := 10; sprite_y := 20;
                 sprite_width := 2; sprite_height := 2;
                 sprite_color := 255; sprite_texcoord := 0 |})
           blank_vram (pixel_index (fst xy) (snd xy)))
    [(10, 20); (11, 20); (10, 21); (11, 21); (12, 20); (9, 20); (10, 22)]
  = [0x001F; 0x001F; 0x001F; 0x001F; 0; 0; 0].
Proof. vm_compute. reflexivity. Qed.

(** Scenario 4: half-half blend of white over white, bit 15 cleared. *)
Example scenario_half_half :
  Draw plain_lut full_area
    (RectangleCommand false false true
       {| sprite_cmd := plain_cmd; sprite_x := 50; sprite_y := 50;
          sprite_width := 1; sprite_height := 1;
          sprite_color := 0xFFFFFF; sprite_texcoord := 0 |})
    (fun i => if i =? pixel_index 50 50 then 0x7FFF else 0) (pixel_index 50 50)
  = 0x7FFF.
Proof. vm_compute. reflexivity. Qed.

(** Scenario 5: the Gouraud triangle interpolates red from 255 toward 0. *)
Example scenario_gouraud_red :
  map (fun c => (pc_x c, pc_r c))
    (filter (fun c => (pc_y c =? 0) && ((pc_x c =? 0) || (pc_x c =? 5)))
       (match gouraud_triangle with
        | TriangleCommand shading texture _ _ _ cmd v0 v1 v2 =>
            DrawTriangle_calls full_area shading texture cmd v0 v1 v2
        | _ => []
        end))
  = [(0, 255); (5, 128)].
Proof. vm_compute. reflexivity. Qed.

(** Scenario 6: an oversized triangle is rejected. *)
Example scenario_oversized_triangle :
  DrawTriangle_calls full_area false false plain_cmd
    (mkVertex 0 0 0) (mkVertex 0 0 0) (mkVertex 1024 0 0) = [].
Proof. vm_compute. reflexivity. Qed.

(** * Spans and triangles in 32-bit arithmetic *)

(** ** The loop and the clip of a span *)

Lemma TruncateGPUVertexPosition_range (z : Z) :
  - 1024 <= TruncateGPUVertexPosition z <= 1023.
Proof.
  unfold TruncateGPUVertexPosition.
  pose proof (Z.mod_pos_bound (z + 2 ^ 10) (2 ^ 11)). lia.
Qed.

Lemma u32_congr (a b k : Z) : a = b + k * 2 ^ 32 -> u32 a = u32 b.
Proof. intros ->. unfold u32. now rewrite Z.mod_add by lia. Qed.

Lemma zrange_succ (w : nat) :
  zrange (Z.of_nat (S w)) = 0 :: map Z.succ (zrange (Z.of_nat w)).
Proof.
  unfold zrange. rewrite !Nat2Z.id. cbn [seq map].
  f_equal. rewrite <- seq_shift, !map_map.
  apply map_ext. intros i. lia.
Qed.

Lemma in_zrange (n z : Z) : In z (zrange n) <-> 0 <= z < n.
Proof.
  unfold zrange. rewrite in_map_iff. split.
  - intros (i & <- & Hi). apply in_seq in Hi. lia.
  - intros Hz. exists (Z.to_nat z). split; [lia |]. apply in_seq. lia.
Qed.

Lemma zrange_nil (n : Z) : n <= 0 -> zrange n = [].
Proof. intros Hn. unfold zrange. now replace (Z.to_nat n) with 0%nat by lia. Qed.

Lemma AddIDeltas_DX_congr (sh tx : bool) (ig : i_group) (idl : i_deltas) (k k' : Z) :
  u32 k = u32 k' -> AddIDeltas_DX sh tx ig idl k = AddIDeltas_DX sh tx ig idl k'.
Proof. intros E. unfold AddIDeltas_DX. now rewrite E. Qed.

(** The loop of [DrawSpan] from an [s32] column [x]: the [i]-th call is at
    column [x + i], wrapped. *)
Lemma span_loop_positions (sh tx : bool) (y : Z) (idl : i_deltas) (w : nat) (x : Z)
    (ig : i_group) :
  s32 x = x ->
  map position (span_loop sh tx y idl w x ig)
  = map (fun i => (s32 (x + i), y)) (zrange (Z.of_nat w)).
Proof.
  revert x ig. induction w as [| w IH]; intros x ig Hx; [reflexivity |].
  rewrite zrange_succ. cbn [span_loop map]. rewrite IH, map_map by apply s32_idemp.
  unfold position at 1. cbn [pc_x pc_y]. rewrite Z.add_0_r, Hx. f_equal.
  apply map_ext. intros i. rewrite s32_add_l. do 2 f_equal. lia.
Qed.

(** Where [x + w] does not overflow the columns are [x] to [x + w - 1]. *)
Lemma span_loop_columns (sh tx : bool) (y : Z) (idl : i_deltas) (w : nat) (x : Z)
    (ig : i_group) :
  - 2 ^ 31 <= x -> x + Z.of_nat w <= 2 ^ 31 ->
  map position (span_loop sh tx y idl w x ig)
  = map (fun i => (x + i, y)) (zrange (Z.of_nat w)).
Proof.
  intros Hlo Hhi. destruct w as [| w]; [reflexivity |].
  rewrite span_loop_positions by (apply s32_small; lia).
  apply map_ext_in. intros i Hi. apply in_zrange in Hi.
  now rewrite s32_small by lia.
Qed.

Lemma In_position (l : list PixelCall) (p : Z * Z) :
  In p (map position l) -> exists c, In c l /\ pc_x c = fst p /\ pc_y c = snd p.
Proof.
  intros Hin. apply in_map_iff in Hin. destruct Hin as (c & <- & Hc).
  exists c. auto.
Qed.

Lemma position_In (l : list PixelCall) (c : PixelCall) :
  In c l -> In (pc_x c, pc_y c) (map position l).
Proof. intros Hin. apply in_map_iff. exists c. auto. Qed.

Section Span.

Variable g_drawing_area : DrawingArea.
Variables shading_enable texture_enable : bool.
Variable cmd : GPUBackendDrawCommand.

Local Abbreviation span :=
  (DrawSpan_calls g_drawing_area shading_enable texture_enable cmd).

(** A span that shades anything is one run of the loop: from an [s32]
    column [x], for [w] iterations, with the accumulators moved by as many
    columns as [x] is from the truncated [x_start], modulo [2^32]. *)
Lemma DrawSpan_calls_loop (y x_start x_bound : Z) (ig : i_group) (idl : i_deltas) :
  span y x_start x_bound ig idl = []
  \/ exists x w k,
       interlace_skip cmd y = false /\ s32 x = x /\ 0 < w < 2 ^ 31
       /\ u32 k = u32 (x_start + (x - TruncateGPUVertexPosition x_start))
       /\ span y x_start x_bound ig idl
          = span_loop shading_enable texture_enable y idl (Z.to_nat w) x
              (AddIDeltas_DY shading_enable texture_enable
                 (AddIDeltas_DX shading_enable texture_enable ig idl k) idl y).
Proof.
  unfold DrawSpan_calls.
  destruct (interlace_skip cmd y); [now left |].
  pose proof (TruncateGPUVertexPosition_range x_start) as Ht.
  set (x := TruncateGPUVertexPosition x_start) in *.
  destruct (x <? area_left g_drawing_area).
  - match goal with |- context [if ?a <=? 0 then _ else _] =>
      destruct (Z.leb_spec a 0) as [Hw | Hw]; [now left | right];
      exists (s32 (x + s32 (area_left g_drawing_area - x))), a,
        (s32 (x_start + s32 (area_left g_drawing_area - x)))
    end.
    split; [reflexivity |]. split; [apply s32_idemp |]. split.
    + split; [exact Hw |].
      destruct (_ >? _); apply s32_range.
    + split; [| reflexivity].
      rewrite u32_s32, !(s32_wrap (_ + _)), (s32_wrap (_ - _)).
      eapply u32_congr. instantiate (1 := (x + (area_left g_drawing_area - x - 2 ^ 32 * ((area_left g_drawing_area - x + 2 ^ 31) / 2 ^ 32)) + 2 ^ 31) / 2 ^ 32). lia.
  - match goal with |- context [if ?a <=? 0 then _ else _] =>
      destruct (Z.leb_spec a 0) as [Hw | Hw]; [now left | right];
      exists x, a, x_start
    end.
    split; [reflexivity |]. split; [apply s32_small; lia |]. split.
    + split; [exact Hw |].
      destruct (_ >? _); apply s32_range.
    + split; [f_equal; lia | reflexivity].
Qed.

(** The calls of a span: on row [y], which interlacing does not skip. *)
Lemma DrawSpan_calls_row (y x_start x_bound : Z) (ig : i_group) (idl : i_deltas)
    (c : PixelCall) :
  In c (span y x_start x_bound ig idl) -> pc_y c = y /\ interlace_skip cmd y = false.
Proof.
  intros Hin.
  destruct (DrawSpan_calls_loop y x_start x_bound ig idl) as [E | (x & w & k & Hs & Hx & _ & _ & E)];
    rewrite E in Hin; [contradiction |].
  split; [| exact Hs].
  apply position_In in Hin. rewrite span_loop_positions in Hin by exact Hx.
  apply in_map_iff in Hin. destruct Hin as (i & E' & _). congruence.
Qed.

(** With the area's bounds and the span's width far from the ends of the
    [s32] range, no step of the clip overflows: the span is the loop from
    [max(x, left)] up to [min(x + w, right + 1)]. *)
Lemma DrawSpan_calls_clip (y x_start x_bound : Z) (ig : i_group) (idl : i_deltas) :
  area_bounded g_drawing_area ->
  - 2 ^ 29 <= s32 (x_bound - x_start) <= 2 ^ 29 ->
  let x := TruncateGPUVertexPosition x_start in
  let lo := Z.max x (area_left g_drawing_area) in
  let hi := Z.min (x + s32 (x_bound - x_start)) (area_right g_drawing_area + 1) in
  span y x_start x_bound ig idl
  = if interlace_skip cmd y then []
    else if hi - lo <=? 0 then []
    else span_loop shading_enable texture_enable y idl (Z.to_nat (hi - lo)) lo
           (AddIDeltas_DY shading_enable texture_enable
              (AddIDeltas_DX shading_enable texture_enable ig idl (x_start + (lo - x)))
              idl y).
Proof.
  intros [Hl Hr] Hw x lo hi. unfold DrawSpan_calls. fold x.
  destruct (interlace_skip cmd y); [reflexivity |].
  pose proof (TruncateGPUVertexPosition_range x_start) as Ht. fold x in Ht.
  set (w0 := s32 (x_bound - x_start)) in *.
  rewrite (s32_small (area_right g_drawing_area + 1)) by lia.
  destruct (Z.ltb_spec x (area_left g_drawing_area)) as [Hc | Hc].
  - rewrite (s32_small (area_left g_drawing_area - x)) by lia.
    rewrite (AddIDeltas_DX_congr _ _ _ _ _ _ (u32_s32 _)).
    rewrite (s32_small (x + _)), (s32_small (w0 - _)) by lia.
    rewrite (s32_small (_ + _)) by lia.
    replace (x + (area_left g_drawing_area - x)) with lo by (subst lo; lia).
    replace (lo - x) with (area_left g_drawing_area - x) by (subst lo; lia).
    match goal with |- context [if ?a >? ?b then _ else _] =>
      destruct (Z.gtb_spec a b) as [Hb | Hb] end.
    + rewrite (s32_small (_ - lo)) by (subst lo; lia).
      replace (hi - lo) with (area_right g_drawing_area + 1 - lo) by (subst hi lo; lia).
      reflexivity.
    + replace (hi - lo) with (w0 - (area_left g_drawing_area - x)) by (subst hi lo; lia).
      reflexivity.
  - rewrite (s32_small (x + w0)) by lia.
    replace lo with x by (subst lo; lia). rewrite Z.sub_diag, Z.add_0_r.
    match goal with |- context [if ?a >? ?b then _ else _] =>
      destruct (Z.gtb_spec a b) as [Hb | Hb] end.
    + rewrite (s32_small (_ - x)) by lia.
      replace (hi - x) with (area_right g_drawing_area + 1 - x) by (subst hi; lia).
      reflexivity.
    + replace (hi - x) with w0 by (subst hi; lia). reflexivity.
Qed.

(** So its calls are inside the area's columns, and inside the span. *)
Lemma DrawSpan_calls_range (y x_start x_bound : Z) (ig : i_group) (idl : i_deltas)
    (c : PixelCall) :
  area_bounded g_drawing_area ->
  - 2 ^ 29 <= s32 (x_bound - x_start) <= 2 ^ 29 ->
  In c (span y x_start x_bound ig idl) ->
  area_left g_drawing_area <= pc_x c <= area_right g_drawing_area
  /\ TruncateGPUVertexPosition x_start <= pc_x c
     < TruncateGPUVertexPosition x_start + s32 (x_bound - x_start).
Proof.
  intros Ha Hw Hin. rewrite DrawSpan_calls_clip in Hin by assumption.
  destruct (interlace_skip cmd y); [contradiction |].
  pose proof (TruncateGPUVertexPosition_range x_start) as Ht.
  destruct Ha as [Hl Hr].
  match type of Hin with context [if ?a <=? 0 then _ else _] =>
    destruct (Z.leb_spec a 0) as [Hn | Hn]; [contradiction |] end.
  apply position_In in Hin. rewrite span_loop_columns in Hin by lia.
  apply in_map_iff in Hin. destruct Hin as (i & E & Hi).
  apply in_zrange in Hi. rewrite Z2Nat.id in Hi by lia.
  apply pair_equal_spec in E. lia.
Qed.

End Span.

(** ** The rows of a triangle *)

Section Rows.

Variable g_drawing_area : DrawingArea.

(** The rows of a half: between its two bounds, the larger one excluded,
    each clipped after truncation. *)
Lemma dec_loop_rows (shading_enable texture_enable : bool) (cmd : GPUBackendDrawCommand)
    (ig : i_group) (idl : i_deltas) (ls rs : Z) (n : nat) (yi lc rc : Z) (c : PixelCall) :
  In c (dec_loop g_drawing_area shading_enable texture_enable cmd ig idl ls rs n yi lc rc) ->
  yi - Z.of_nat n <= pc_y c < yi
  /\ interlace_skip cmd (pc_y c) = false
  /\ area_top g_drawing_area <= TruncateGPUVertexPosition (pc_y c)
     <= area_bottom g_drawing_area.
Proof.
  revert yi lc rc. induction n as [| n IH]; intros yi lc rc Hin; [contradiction |].
  cbn [dec_loop] in Hin.
  destruct (Z.ltb_spec (TruncateGPUVertexPosition (yi - 1)) (area_top g_drawing_area));
    [contradiction |].
  apply in_app_or in Hin. destruct Hin as [Hin | Hin].
  - destruct (Z.gtb_spec (TruncateGPUVertexPosition (yi - 1)) (area_bottom g_drawing_area));
      [contradiction |].
    apply DrawSpan_calls_row in Hin. destruct Hin as (-> & Hs).
    repeat split; try assumption; lia.
  - apply IH in Hin. destruct Hin as (Hy & Hrest). split; [lia | exact Hrest].
Qed.

Lemma inc_loop_rows (shading_enable texture_enable : bool) (cmd : GPUBackendDrawCommand)
    (ig : i_group) (idl : i_deltas) (ls rs : Z) (n : nat) (yi lc rc : Z) (c : PixelCall) :
  In c (inc_loop g_drawing_area shading_enable texture_enable cmd ig idl ls rs n yi lc rc) ->
  yi <= pc_y c < yi + Z.of_nat n
  /\ interlace_skip cmd (pc_y c) = false
  /\ area_top g_drawing_area <= TruncateGPUVertexPosition (pc_y c)
     <= area_bottom g_drawing_area.
Proof.
  revert yi lc rc. induction n as [| n IH]; intros yi lc rc Hin; [contradiction |].
  cbn [inc_loop] in Hin.
  destruct (Z.gtb_spec (TruncateGPUVertexPosition yi) (area_bottom g_drawing_area));
    [contradiction |].
  apply in_app_or in Hin. destruct Hin as [Hin | Hin].
  - destruct (Z.geb_spec (TruncateGPUVertexPosition yi) (area_top g_drawing_area));
      [| contradiction].
    apply DrawSpan_calls_row in Hin. destruct Hin as (-> & Hs).
    repeat split; try assumption; lia.
  - apply IH in Hin. destruct Hin as (Hy & Hrest). split; [lia | exact Hrest].
Qed.

Lemma half_calls_rows (shading_enable texture_enable : bool) (cmd : GPUBackendDrawCommand)
    (ig : i_group) (idl : i_deltas) (tp : TriangleHalf) (c : PixelCall) :
  In c (half_calls g_drawing_area shading_enable texture_enable cmd ig idl tp) ->
  Z.min (y_coord tp) (y_bound tp) <= pc_y c < Z.max (y_coord tp) (y_bound tp)
  /\ interlace_skip cmd (pc_y c) = false
  /\ area_top g_drawing_area <= TruncateGPUVertexPosition (pc_y c)
     <= area_bottom g_drawing_area.
Proof.
  unfold half_calls. intros Hin. destruct (dec_mode tp).
  - apply dec_loop_rows in Hin. destruct Hin as (Hy & Hrest). split; [lia | exact Hrest].
  - apply inc_loop_rows in Hin. destruct Hin as (Hy & Hrest). split; [lia | exact Hrest].
Qed.

(** The sort leaves the smallest [y] first and the largest last. *)
Lemma sort_vertices_min_max (v0 v1 v2 : Vertex) :
  let '(a, b, c, _) := sort_vertices v0 v1 v2 in
  vy a = min3 (vy v0) (vy v1) (vy v2)
  /\ vy c = max3 (vy v0) (vy v1) (vy v2)
  /\ vy a <= vy b <= vy c.
Proof.
  unfold sort_vertices, min3, max3.
  destruct (Z.ltb_spec (vy v2) (vy v1));
    destruct (Z.ltb_spec (vy v1) (vy v0));
    destruct (Z.ltb_spec (vy v2) (vy v0));
    try lia;
    repeat match goal with
           | |- context [if ?a <? ?b then _ else _] => destruct (Z.ltb_spec a b)
           end;
    try lia;
    repeat match goal with |- context [if ?b then _ else _] => destruct b end;
    cbn; lia.
Qed.

Lemma vertex_at_cases (a b c : Vertex) (i : Z) :
  vertex_at (a, b, c) i = a \/ vertex_at (a, b, c) i = b \/ vertex_at (a, b, c) i = c.
Proof. unfold vertex_at. destruct (i =? 0); [| destruct (i =? 1)]; auto. Qed.

Lemma DrawTriangle_calls_rows (shading_enable texture_enable : bool)
    (cmd : GPUBackendDrawCommand) (v0 v1 v2 : Vertex) (c : PixelCall) :
  In c (DrawTriangle_calls g_drawing_area shading_enable texture_enable cmd v0 v1 v2) ->
  min3 (vy v0) (vy v1) (vy v2) <= pc_y c < max3 (vy v0) (vy v1) (vy v2)
  /\ interlace_skip cmd (pc_y c) = false
  /\ area_top g_drawing_area <= TruncateGPUVertexPosition (pc_y c)
     <= area_bottom g_drawing_area.
Proof.
  unfold DrawTriangle_calls. intros Hin.
  pose proof (sort_vertices_min_max v0 v1 v2) as Hs.
  destruct (sort_vertices v0 v1 v2) as [[[a b] d] core_vertex].
  destruct Hs as (<- & <- & Hab).
  destruct (vy a =? vy d); [contradiction |].
  destruct (_ || _ || _ || _); [contradiction |].
  assert (Hhalf : forall ig idl tp,
             In c (half_calls g_drawing_area shading_enable texture_enable cmd ig idl tp) ->
             vy a <= y_coord tp <= vy d -> vy a <= y_bound tp <= vy d ->
             vy a <= pc_y c < vy d
             /\ interlace_skip cmd (pc_y c) = false
             /\ area_top g_drawing_area <= TruncateGPUVertexPosition (pc_y c)
                <= area_bottom g_drawing_area).
  { intros ig idl tp Hc Hyc Hyb. apply half_calls_rows in Hc.
    destruct Hc as (Hy & Hrest). split; [lia | exact Hrest]. }
  assert (Hv : forall i, vy a <= vy (vertex_at (a, b, d) i) <= vy d).
  { intros i. destruct (vertex_at_cases a b d i) as [-> | [-> | ->]]; lia. }
  destruct (vy b =? vy a); destruct (CalcIDeltas _ _ _ _ _); try contradiction;
    destruct (_ =? 0); apply in_app_or in Hin; destruct Hin as [Hin | Hin];
    (eapply Hhalf; [exact Hin | cbn [y_coord]; apply Hv | cbn [y_bound]; apply Hv]).
Qed.

End Rows.

(** ** The spans of a triangle *)

Lemma GetPolyXFP_Int_u64 (z : Z) : GetPolyXFP_Int (u64 z) = GetPolyXFP_Int z.
Proof.
  unfold GetPolyXFP_Int, s64, u64. do 3 f_equal.
  rewrite Z.add_mod_idemp_l by lia. reflexivity.
Qed.

Lemma u64_sub_step (c s j : Z) : u64 (u64 (c - j * s) - s) = u64 (c - (j + 1) * s).
Proof.
  unfold u64. rewrite Zminus_mod_idemp_l. f_equal. ring.
Qed.

Lemma u64_add_step (c s j : Z) : u64 (u64 (c + j * s) + s) = u64 (c + (j + 1) * s).
Proof.
  unfold u64. rewrite Z.add_mod_idemp_l by lia. f_equal. ring.
Qed.

Section Spans.

Variable g_drawing_area : DrawingArea.
Variables shading_enable texture_enable : bool.
Variable cmd : GPUBackendDrawCommand.
Variable ig : i_group.
Variable idl : i_deltas.

Local Abbreviation span :=
  (DrawSpan_calls g_drawing_area shading_enable texture_enable cmd).

(** The spans of a half in decrement mode: the [j]-th is on row [yi - j],
    between the two edge coordinates stepped back [j] times. *)
Lemma dec_loop_span (ls rs : Z) (n : nat) (yi lc rc : Z) (c : PixelCall) :
  In c (dec_loop g_drawing_area shading_enable texture_enable cmd ig idl ls rs n yi lc rc) ->
  exists j, 1 <= j <= Z.of_nat n
            /\ In c (span (yi - j) (GetPolyXFP_Int (lc - j * ls))
                       (GetPolyXFP_Int (rc - j * rs)) ig idl).
Proof.
  assert (Hgen : forall n j0,
             In c (dec_loop g_drawing_area shading_enable texture_enable cmd ig idl ls rs n
                     (yi - j0) (u64 (lc - j0 * ls)) (u64 (rc - j0 * rs))) ->
             exists j, j0 + 1 <= j <= j0 + Z.of_nat n
                       /\ In c (span (yi - j) (GetPolyXFP_Int (lc - j * ls))
                                  (GetPolyXFP_Int (rc - j * rs)) ig idl)).
  { clear n. induction n as [| n IH]; intros j0 Hin; [contradiction |].
    cbn [dec_loop] in Hin. destruct (_ <? _); [contradiction |].
    rewrite !u64_sub_step in Hin.
    replace (yi - j0 - 1) with (yi - (j0 + 1)) in Hin by lia.
    apply in_app_or in Hin. destruct Hin as [Hin | Hin].
    - destruct (_ >? _); [contradiction |].
      rewrite !GetPolyXFP_Int_u64 in Hin. exists (j0 + 1). split; [lia | exact Hin].
    - apply IH in Hin. destruct Hin as (j & Hj & Hin). exists j. split; [lia | exact Hin]. }
  intros Hin. destruct n as [| n]; [contradiction |].
  cbn [dec_loop] in Hin. destruct (_ <? _); [contradiction |].
  apply in_app_or in Hin. destruct Hin as [Hin | Hin].
  - destruct (_ >? _); [contradiction |].
    rewrite !GetPolyXFP_Int_u64 in Hin. exists 1. split; [lia |].
    now rewrite !Z.mul_1_l.
  - replace (u64 (lc - ls)) with (u64 (lc - 1 * ls)) in Hin by (f_equal; lia).
    replace (u64 (rc - rs)) with (u64 (rc - 1 * rs)) in Hin by (f_equal; lia).
    apply Hgen in Hin. destruct Hin as (j & Hj & Hin). exists j. split; [lia | exact Hin].
Qed.

(** The spans of a half in increment mode: the [j]-th, from 0, is on row
    [yi + j], between the two edge coordinates stepped [j] times. *)
Lemma inc_loop_span (ls rs : Z) (n : nat) (yi lc rc : Z) (c : PixelCall) :
  In c (inc_loop g_drawing_area shading_enable texture_enable cmd ig idl ls rs n yi lc rc) ->
  exists j, 0 <= j < Z.of_nat n
            /\ In c (span (yi + j) (GetPolyXFP_Int (lc + j * ls))
                       (GetPolyXFP_Int (rc + j * rs)) ig idl).
Proof.
  assert (Hgen : forall n j0,
             In c (inc_loop g_drawing_area shading_enable texture_enable cmd ig idl ls rs n
                     (yi + j0) (u64 (lc + j0 * ls)) (u64 (rc + j0 * rs))) ->
             exists j, j0 <= j < j0 + Z.of_nat n
                       /\ In c (span (yi + j) (GetPolyXFP_Int (lc + j * ls))
                                  (GetPolyXFP_Int (rc + j * rs)) ig idl)).
  { clear n. induction n as [| n IH]; intros j0 Hin; [contradiction |].
    cbn [inc_loop] in Hin. destruct (_ >? _); [contradiction |].
    rewrite !u64_add_step in Hin.
    replace (yi + j0 + 1) with (yi + (j0 + 1)) in Hin by lia.
    apply in_app_or in Hin. destruct Hin as [Hin | Hin].
    - destruct (_ >=? _); [| contradiction].
      rewrite !GetPolyXFP_Int_u64 in Hin. exists j0. split; [lia | exact Hin].
    - apply IH in Hin. destruct Hin as (j & Hj & Hin). exists j. split; [lia | exact Hin]. }
  intros Hin. destruct n as [| n]; [contradiction |].
  cbn [inc_loop] in Hin. destruct (_ >? _); [contradiction |].
  apply in_app_or in Hin. destruct Hin as [Hin | Hin].
  - destruct (_ >=? _); [| contradiction].
    exists 0. split; [lia |]. now rewrite !Z.mul_0_l, !Z.add_0_r.
  - replace (u64 (lc + ls)) with (u64 (lc + 1 * ls)) in Hin by (f_equal; lia).
    replace (u64 (rc + rs)) with (u64 (rc + 1 * rs)) in Hin by (f_equal; lia).
    apply Hgen in Hin. destruct Hin as (j & Hj & Hin). exists j. split; [lia | exact Hin].
Qed.

End Spans.

Lemma away_bounds (n d : Z) :
  0 < d ->
  (0 <= n -> n <= Z.quot (n + Z.sgn n * (d - 1)) d * d < n + d)
  /\ (n <= 0 -> n - d < Z.quot (n + Z.sgn n * (d - 1)) d * d <= n).
Proof.
  intros Hd.
  destruct (Z.sgn_spec n) as [[Hn ->] | [[Hn ->] | [Hn ->]]].
  - rewrite Z.quot_div_nonneg by lia. split; intros; [| lia].
    Z.div_mod_to_equations. nia.
  - subst n. cbn. lia.
  - replace (n + - (1) * (d - 1)) with (- (- n + (d - 1))) by lia.
    rewrite Z.quot_opp_l by lia.
    rewrite Z.quot_div_nonneg by lia. split; intros; [lia |].
    Z.div_mod_to_equations. nia.
Qed.

Lemma MakePolyXFP_closed (x : Z) :
  - 2 ^ 31 <= x < 2 ^ 31 -> MakePolyXFP x = x * 2 ^ 32 + (2 ^ 32 - 2 ^ 11).
Proof.
  intros Hx. unfold MakePolyXFP, s64, u64. rewrite Z.shiftl_mul_pow2 by lia.
  Z.div_mod_to_equations. lia.
Qed.

(** The integer part of a coordinate, whatever its size: the quotient by
    [2^32], wrapped to 32 bits. *)
Lemma GetPolyXFP_Int_div (z : Z) : GetPolyXFP_Int z = s32 (z / 2 ^ 32).
Proof.
  unfold GetPolyXFP_Int, s64. rewrite Z.shiftr_div_pow2 by lia.
  rewrite Z.mod_eq by lia.
  replace (z + 2 ^ 63 - 2 ^ 64 * ((z + 2 ^ 63) / 2 ^ 64) - 2 ^ 63)
    with (z + (- 2 ^ 32 * ((z + 2 ^ 63) / 2 ^ 64)) * 2 ^ 32) by lia.
  rewrite Z.div_add by lia.
  apply (s32_congr _ _ (- ((z + 2 ^ 63) / 2 ^ 64))). lia.
Qed.

Lemma GetPolyXFP_Int_floor (z q : Z) :
  - 2 ^ 31 <= q < 2 ^ 31 -> q * 2 ^ 32 <= z < (q + 1) * 2 ^ 32 ->
  GetPolyXFP_Int z = q.
Proof.
  intros Hq Hz. rewrite GetPolyXFP_Int_div.
  replace (z / 2 ^ 32) with q by (apply Z.div_unique with (z - q * 2 ^ 32); lia).
  now apply s32_small.
Qed.

(** An edge walked from its upper end [xp] for [m] of its [dy] rows is, in
    32-bit arithmetic, [xp] moved by part of the width [dx] of the edge. *)
Lemma edge_forward (xp dx dy m : Z) :
  - 2 ^ 31 <= xp < 2 ^ 31 -> - 1024 < dx < 1024 -> 0 < dy < 2048 -> 0 <= m <= dy ->
  exists t, Z.min 0 dx <= t <= Z.max 0 dx
            /\ GetPolyXFP_Int (MakePolyXFP xp + m * MakePolyXFPStep dx dy) = s32 (xp + t).
Proof.
  intros Hp Hdx Hdy Hm.
  rewrite MakePolyXFP_closed, MakePolyXFPStep_closed, GetPolyXFP_Int_div by lia.
  pose proof (away_bounds (dx * 2 ^ 32) dy ltac:(lia)) as [Hpos Hneg].
  rewrite Z.sgn_mul in Hpos, Hneg. change (Z.sgn (2 ^ 32)) with 1 in Hpos, Hneg.
  rewrite Z.mul_1_r in Hpos, Hneg.
  set (s := Z.quot (dx * 2 ^ 32 + Z.sgn dx * (dy - 1)) dy) in *.
  set (z := xp * 2 ^ 32 + (2 ^ 32 - 2 ^ 11) + m * s).
  exists (z / 2 ^ 32 - xp). split; [| f_equal; lia].
  assert (Hz : (xp + Z.min 0 dx) * 2 ^ 32 <= z < (xp + Z.max 0 dx + 1) * 2 ^ 32).
  { subst z. destruct (Z_le_gt_dec 0 dx) as [Hd | Hd].
    - specialize (Hpos ltac:(lia)). rewrite Z.min_l, Z.max_r by lia.
      assert (0 <= s) by nia. assert (m * s <= dy * s) by nia. nia.
    - specialize (Hneg ltac:(lia)). rewrite Z.min_r, Z.max_l by lia.
      assert (s <= 0) by nia. assert (dy * s <= m * s) by nia. nia. }
  clearbody z. clear Hpos Hneg.
  assert (xp + Z.min 0 dx <= z / 2 ^ 32) by (apply Z.div_le_lower_bound; lia).
  assert (z / 2 ^ 32 < xp + Z.max 0 dx + 1) by (apply Z.div_lt_upper_bound; lia).
  lia.
Qed.

(** The same edge walked back from its lower end [xq]. *)
Lemma edge_backward (xq dx dy m : Z) :
  - 2 ^ 31 <= xq < 2 ^ 31 -> - 1024 < dx < 1024 -> 0 < dy < 2048 -> 0 <= m <= dy ->
  exists t, Z.min 0 dx <= t <= Z.max 0 dx
            /\ GetPolyXFP_Int (MakePolyXFP xq - m * MakePolyXFPStep dx dy) = s32 (xq - t).
Proof.
  intros Hp Hdx Hdy Hm.
  rewrite MakePolyXFP_closed, MakePolyXFPStep_closed, GetPolyXFP_Int_div by lia.
  pose proof (away_bounds (dx * 2 ^ 32) dy ltac:(lia)) as [Hpos Hneg].
  rewrite Z.sgn_mul in Hpos, Hneg. change (Z.sgn (2 ^ 32)) with 1 in Hpos, Hneg.
  rewrite Z.mul_1_r in Hpos, Hneg.
  set (s := Z.quot (dx * 2 ^ 32 + Z.sgn dx * (dy - 1)) dy) in *.
  set (z := xq * 2 ^ 32 + (2 ^ 32 - 2 ^ 11) - m * s).
  exists (xq - z / 2 ^ 32). split; [| f_equal; lia].
  assert (Hz : (xq - Z.max 0 dx) * 2 ^ 32 <= z < (xq - Z.min 0 dx + 1) * 2 ^ 32).
  { subst z. destruct (Z_le_gt_dec 0 dx) as [Hd | Hd].
    - specialize (Hpos ltac:(lia)). rewrite Z.min_l, Z.max_r by lia.
      assert (0 <= s) by nia. assert (m * s <= dy * s) by nia. nia.
    - specialize (Hneg ltac:(lia)). rewrite Z.min_r, Z.max_l by lia.
      assert (s <= 0) by nia. assert (dy * s <= m * s) by nia. nia. }
  clearbody z. clear Hpos Hneg.
  assert (xq - Z.max 0 dx <= z / 2 ^ 32) by (apply Z.div_le_lower_bound; lia).
  assert (z / 2 ^ 32 < xq - Z.min 0 dx + 1) by (apply Z.div_lt_upper_bound; lia).
  lia.
Qed.

Lemma GetPolyXFP_Int_wrap (z k : Z) : GetPolyXFP_Int (z + k * 2 ^ 64) = GetPolyXFP_Int z.
Proof.
  rewrite <- (GetPolyXFP_Int_u64 (z + k * 2 ^ 64)), <- (GetPolyXFP_Int_u64 z).
  f_equal. unfold u64. apply Z.mod_add. lia.
Qed.

Lemma GetPolyXFP_Int_add (a s j : Z) :
  GetPolyXFP_Int (u64 a + j * u64 s) = GetPolyXFP_Int (a + j * s).
Proof.
  rewrite <- (GetPolyXFP_Int_wrap (a + j * s) (- (a / 2 ^ 64) - j * (s / 2 ^ 64))).
  f_equal. unfold u64. rewrite !Z.mod_eq by lia. ring.
Qed.

Lemma GetPolyXFP_Int_sub (a s j : Z) :
  GetPolyXFP_Int (u64 a - j * u64 s) = GetPolyXFP_Int (a - j * s).
Proof.
  rewrite <- (GetPolyXFP_Int_wrap (a - j * s) (- (a / 2 ^ 64) + j * (s / 2 ^ 64))).
  f_equal. unfold u64. rewrite !Z.mod_eq by lia. ring.
Qed.

Section TriangleSpans.

Variable g_drawing_area : DrawingArea.
Variables shading_enable texture_enable : bool.
Variable cmd : GPUBackendDrawCommand.

(** Every call of a triangle is a call of one of its spans.  With [a] the
    topmost vertex and the widths taken as the code takes them, in 32
    bits, both ends of the span are at [a]'s column moved by an amount
    between the least and the largest of 0 and the two widths from [a]; these
    are less than 1024 apart. *)
Lemma DrawTriangle_calls_span (v0 v1 v2 : Vertex) (c : PixelCall) :
  In c (DrawTriangle_calls g_drawing_area shading_enable texture_enable cmd v0 v1 v2) ->
  let '(a, b, d, core_vertex) := sort_vertices v0 v1 v2 in
  exists idl y x_start x_bound,
    CalcIDeltas shading_enable texture_enable a b d = Some idl
    /\ In c (DrawSpan_calls g_drawing_area shading_enable texture_enable cmd y x_start
               x_bound
               (triangle_ig shading_enable texture_enable idl
                  (vertex_at (a, b, d) core_vertex)) idl)
    /\ (position_s32 a -> position_s32 b -> position_s32 d ->
        let lo := min3 0 (s32 (vx b - vx a)) (s32 (vx d - vx a)) in
        let hi := max3 0 (s32 (vx b - vx a)) (s32 (vx d - vx a)) in
        hi - lo < 1024
        /\ exists t1 t2,
             x_start = s32 (vx a + t1) /\ x_bound = s32 (vx a + t2)
             /\ lo <= t1 <= hi /\ lo <= t2 <= hi).
Proof.
  unfold DrawTriangle_calls. intros Hin.
  pose proof (sort_vertices_min_max v0 v1 v2) as Hs.
  destruct (sort_vertices v0 v1 v2) as [[[a b] d] core_vertex].
  destruct Hs as (_ & _ & Hab).
  destruct (Z.eqb_spec (vy a) (vy d)) as [| Had]; [contradiction |].
  destruct (_ || _ || _ || _) eqn:Hsize; [contradiction |].
  apply orb_false_iff in Hsize. destruct Hsize as [Hsize Hh].
  apply orb_false_iff in Hsize. destruct Hsize as [Hsize Hwab].
  apply orb_false_iff in Hsize. destruct Hsize as [Hwad Hwbd].
  apply size_test in Hwab; [| unfold MAX_PRIMITIVE_WIDTH; lia].
  apply size_test in Hwad; [| unfold MAX_PRIMITIVE_WIDTH; lia].
  apply size_test in Hwbd; [| unfold MAX_PRIMITIVE_WIDTH; lia].
  destruct Hwab as [Hwab _], Hwad as [Hwad _], Hwbd as [Hwbd _].
  unfold MAX_PRIMITIVE_WIDTH in *.
  set (lo := min3 0 (s32 (vx b - vx a)) (s32 (vx d - vx a))).
  set (hi := max3 0 (s32 (vx b - vx a)) (s32 (vx d - vx a))).
  assert (Hht : position_s32 a -> position_s32 d -> vy d - vy a < 512).
  { intros [_ Hay] [_ Hdy].
    destruct (Z.geb_spec (u32 (s32 (vy d - vy a))) MAX_PRIMITIVE_HEIGHT) as [| Hlt];
      [discriminate |].
    rewrite u32_s32 in Hlt. unfold u32 in Hlt. rewrite Z.mod_small in Hlt by lia.
    unfold MAX_PRIMITIVE_HEIGHT in Hlt. lia. }
  set (us := MakePolyXFPStep (s32 (vx b - vx a)) (s32 (vy b - vy a))) in *.
  set (ls := MakePolyXFPStep (s32 (vx d - vx b)) (s32 (vy d - vy b))) in *.
  set (bs := MakePolyXFPStep (s32 (vx d - vx a)) (s32 (vy d - vy a))) in *.
  (* the three edges stay between the columns of the vertices *)
  assert (Hedges :
            position_s32 a -> position_s32 b -> position_s32 d ->
            let within z := exists t, lo <= t <= hi /\ GetPolyXFP_Int z = s32 (vx a + t) in
            hi - lo < 1024
            /\ (forall m, 0 <= m <= vy d - vy a -> within (MakePolyXFP (vx a) + m * bs))
            /\ (forall m, 0 <= m <= vy b - vy a -> vy a <> vy b ->
                          within (MakePolyXFP (vx a) + m * us)
                          /\ within (MakePolyXFP (vx b) - m * us))
            /\ (forall m, 0 <= m <= vy d - vy b -> vy b <> vy d ->
                          within (MakePolyXFP (vx b) + m * ls)
                          /\ within (MakePolyXFP (vx d) - m * ls))).
  { intros Pa Pb Pd within. specialize (Hht Pa Pd).
    destruct Pa as [Hax Hay], Pb as [Hbx Hby], Pd as [Hdx Hdy].
    subst within us ls bs. cbv beta.
    rewrite !(s32_small (vy _ - vy _)) by lia.
    pose proof (s32_wrap (vx b - vx a)) as Eab.
    pose proof (s32_wrap (vx d - vx a)) as Ead.
    pose proof (s32_wrap (vx d - vx b)) as Ebd.
    set (dab := s32 (vx b - vx a)) in *.
    set (dad := s32 (vx d - vx a)) in *.
    set (dbd := s32 (vx d - vx b)) in *.
    assert (Hsum : dbd = dad - dab) by lia.
    assert (Hb : forall t, s32 (vx b + t) = s32 (vx a + (dab + t))).
    { intros t. apply (s32_congr _ _ ((vx b - vx a + 2 ^ 31) / 2 ^ 32)). lia. }
    assert (Hd : forall t, s32 (vx d + t) = s32 (vx a + (dad + t))).
    { intros t. apply (s32_congr _ _ ((vx d - vx a + 2 ^ 31) / 2 ^ 32)). lia. }
    unfold min3, max3 in lo, hi.
    split; [subst lo hi; lia |]. split; [| split].
    - intros m Hm.
      destruct (edge_forward (vx a) dad (vy d - vy a) m) as (t & Ht & E); try lia.
      exists t. split; [subst lo hi; lia | exact E].
    - intros m Hm Hne. split.
      + destruct (edge_forward (vx a) dab (vy b - vy a) m) as (t & Ht & E); try lia.
        exists t. split; [subst lo hi; lia | exact E].
      + destruct (edge_backward (vx b) dab (vy b - vy a) m) as (t & Ht & E); try lia.
        exists (dab - t). split; [subst lo hi; lia |].
        rewrite E. replace (vx b - t) with (vx b + - t) by lia.
        rewrite Hb. f_equal; lia.
    - intros m Hm Hne. split.
      + destruct (edge_forward (vx b) dbd (vy d - vy b) m) as (t & Ht & E); try lia.
        exists (dab + t). split; [subst lo hi; lia |].
        rewrite E. apply Hb.
      + destruct (edge_backward (vx d) dbd (vy d - vy b) m) as (t & Ht & E); try lia.
        exists (dad - t). split; [subst lo hi; lia |].
        rewrite E. replace (vx d - t) with (vx d + - t) by lia.
        rewrite Hd. f_equal; lia. }
  clearbody us ls bs lo hi.
  assert (Hrows : forall n k : Z, 1 <= k <= Z.of_nat (Z.to_nat n) -> 1 <= k <= n) by lia.
  assert (Hrows' : forall n k : Z, 0 <= k < Z.of_nat (Z.to_nat n) -> 0 <= k < n) by lia.
  destruct (CalcIDeltas shading_enable texture_enable a b d) as [idl |];
    [| destruct (vy b =? vy a); contradiction].
  assert (Hpack : forall X Y : Z,
             (exists t, lo <= t <= hi /\ X = s32 (vx a + t)) ->
             (exists t, lo <= t <= hi /\ Y = s32 (vx a + t)) ->
             exists t1 t2, X = s32 (vx a + t1) /\ Y = s32 (vx a + t2)
                           /\ lo <= t1 <= hi /\ lo <= t2 <= hi).
  { intros X Y (t1 & H1 & E1) (t2 & H2 & E2). exists t1, t2. auto. }
  assert (Hhalf : forall (rf : bool) (bus bls : Z) (vo vp : Z),
             (vo = 0 \/ vo = 1) -> (vp = 0 \/ vp = 3) ->
             bus = (if vy b =? vy a then 0 else us) ->
             bls = (if vy d =? vy b then 0 else ls) ->
             forall tp,
               tp = {| y_coord := vy (vertex_at (a, b, d) (Z.lxor 0 vo));
                       y_bound := vy (vertex_at (a, b, d) (Z.lxor 1 vo));
                       x_coord :=
                         set2 (set2 (fun _ : bool => 0) rf
                                 (u64 (MakePolyXFP (vx (vertex_at (a, b, d) (Z.lxor 0 vo))))))
                           (negb rf)
                           (u64 (MakePolyXFP (vx a)
                                 + s32 (vy (vertex_at (a, b, d) vo)
                                        - vy (vertex_at (a, b, d) 0))
                                   * bs));
                       x_step := set2 (set2 (fun _ : bool => 0) rf (u64 bus)) (negb rf) (u64 bs);
                       dec_mode := negb (vo =? 0) |}
               \/ tp = {| y_coord := vy (vertex_at (a, b, d) (Z.lxor 1 vp));
                          y_bound := vy (vertex_at (a, b, d) (Z.lxor 2 vp));
                          x_coord :=
                            set2 (set2 (fun _ : bool => 0) rf
                                    (u64 (MakePolyXFP
                                            (vx (vertex_at (a, b, d) (Z.lxor 1 vp))))))
                              (negb rf)
                              (u64 (MakePolyXFP (vx a)
                                    + s32 (vy (vertex_at (a, b, d) (Z.lxor 1 vp))
                                           - vy (vertex_at (a, b, d) 0)) * bs));
                          x_step :=
                            set2 (set2 (fun _ : bool => 0) rf (u64 bls)) (negb rf) (u64 bs);
                          dec_mode := negb (vp =? 0) |} ->
               forall ig,
               In c (half_calls g_drawing_area shading_enable texture_enable cmd ig idl tp) ->
               exists y x_start x_bound,
                 In c (DrawSpan_calls g_drawing_area shading_enable texture_enable cmd y
                         x_start x_bound ig idl)
                 /\ (position_s32 a -> position_s32 b -> position_s32 d ->
                     hi - lo < 1024
                     /\ exists t1 t2,
                          x_start = s32 (vx a + t1) /\ x_bound = s32 (vx a + t2)
                          /\ lo <= t1 <= hi /\ lo <= t2 <= hi)).
  { intros rf bus bls vo vp Hvo Hvp -> -> tp Htp ig Hc.
    unfold half_calls in Hc.
    destruct Htp as [-> | ->]; [destruct Hvo as [-> | ->] | destruct Hvp as [-> | ->]];
      cbn [y_coord y_bound x_coord x_step dec_mode] in Hc;
      simpl (Z.lxor _ _) in Hc; cbn [negb Z.eqb vertex_at Pos.eqb] in Hc;
      (apply dec_loop_span in Hc || apply inc_loop_span in Hc);
      destruct Hc as (j & Hj & Hc);
      (apply Hrows in Hj || apply Hrows' in Hj);
      eexists _, _, _; (split; [exact Hc |]);
      intros Pa Pb Pd; destruct (Hedges Pa Pb Pd) as (Hw & Hbase & Hup & Hlow);
      specialize (Hht Pa Pd);
      clear Hedges Hc Hin;
      (split; [exact Hw |]);
      destruct Pa as [_ Pa], Pb as [_ Pb], Pd as [_ Pd];
      destruct (Z.eqb_spec (vy b) (vy a)); try lia;
      destruct (Z.eqb_spec (vy d) (vy b)); try lia;
      destruct rf; cbn [set2 Bool.eqb negb];
      rewrite ?GetPolyXFP_Int_add, ?GetPolyXFP_Int_sub;
      rewrite ?(s32_small (vy _ - vy _)) by lia;
      apply Hpack;
      lazymatch goal with
      | |- exists t, _ /\ GetPolyXFP_Int (?o + ?k * bs + ?j * bs) = _ =>
          replace (o + k * bs + j * bs) with (o + (k + j) * bs) by ring;
          exact (Hbase (k + j) ltac:(lia))
      | |- exists t, _ /\ GetPolyXFP_Int (?o + ?k * bs - ?j * bs) = _ =>
          replace (o + k * bs - j * bs) with (o + (k - j) * bs) by ring;
          exact (Hbase (k - j) ltac:(lia))
      | |- exists t, _ /\ GetPolyXFP_Int (_ + ?j * us) = _ =>
          exact (proj1 (Hup j ltac:(lia) ltac:(lia)))
      | |- exists t, _ /\ GetPolyXFP_Int (_ - ?j * us) = _ =>
          exact (proj2 (Hup j ltac:(lia) ltac:(lia)))
      | |- exists t, _ /\ GetPolyXFP_Int (_ + ?j * ls) = _ =>
          exact (proj1 (Hlow j ltac:(lia) ltac:(lia)))
      | |- exists t, _ /\ GetPolyXFP_Int (_ - ?j * ls) = _ =>
          exact (proj2 (Hlow j ltac:(lia) ltac:(lia)))
      end. }
  assert (Hvo : forall z : bool, (if z then 1 else 0) = 0 \/ (if z then 1 else 0) = 1)
    by (intros []; auto).
  assert (Hvp : forall z : bool, (if z then 3 else 0) = 0 \/ (if z then 3 else 0) = 3)
    by (intros []; auto).
  set (rf := if vy b =? vy a then vx b >? vx a else us >? bs).
  assert (Hin' :
            In c (half_calls g_drawing_area shading_enable texture_enable cmd
                    (triangle_ig shading_enable texture_enable idl
                       (vertex_at (a, b, d) core_vertex)) idl
                    {| y_coord := vy (vertex_at (a, b, d)
                                        (Z.lxor 0 (if negb (core_vertex =? 0) then 1 else 0)));
                       y_bound := vy (vertex_at (a, b, d)
                                        (Z.lxor 1 (if negb (core_vertex =? 0) then 1 else 0)));
                       x_coord :=
                         set2 (set2 (fun _ : bool => 0) rf
                                 (u64 (MakePolyXFP
                                         (vx (vertex_at (a, b, d)
                                                (Z.lxor 0 (if negb (core_vertex =? 0)
                                                           then 1 else 0)))))))
                           (negb rf)
                           (u64 (MakePolyXFP (vx a)
                                 + s32 (vy (vertex_at (a, b, d)
                                              (if negb (core_vertex =? 0) then 1 else 0))
                                        - vy (vertex_at (a, b, d) 0)) * bs));
                       x_step :=
                         set2 (set2 (fun _ : bool => 0) rf
                                 (u64 (if vy b =? vy a then 0 else us)))
                           (negb rf) (u64 bs);
                       dec_mode := negb ((if negb (core_vertex =? 0) then 1 else 0) =? 0) |})
            \/ In c (half_calls g_drawing_area shading_enable texture_enable cmd
                       (triangle_ig shading_enable texture_enable idl
                          (vertex_at (a, b, d) core_vertex)) idl
                       {| y_coord := vy (vertex_at (a, b, d)
                                           (Z.lxor 1 (if core_vertex =? 2 then 3 else 0)));
                          y_bound := vy (vertex_at (a, b, d)
                                           (Z.lxor 2 (if core_vertex =? 2 then 3 else 0)));
                          x_coord :=
                            set2 (set2 (fun _ : bool => 0) rf
                                    (u64 (MakePolyXFP
                                            (vx (vertex_at (a, b, d)
                                                   (Z.lxor 1 (if core_vertex =? 2
                                                              then 3 else 0)))))))
                              (negb rf)
                              (u64 (MakePolyXFP (vx a)
                                    + s32 (vy (vertex_at (a, b, d)
                                                 (Z.lxor 1 (if core_vertex =? 2 then 3 else 0)))
                                           - vy (vertex_at (a, b, d) 0)) * bs));
                          x_step :=
                            set2 (set2 (fun _ : bool => 0) rf
                                    (u64 (if vy d =? vy b then 0 else ls)))
                              (negb rf) (u64 bs);
                          dec_mode := negb ((if core_vertex =? 2 then 3 else 0) =? 0) |})).
  { subst rf. unfold triangle_ig, attribute_origin.
    destruct (vy b =? vy a);
      (destruct ((if negb (core_vertex =? 0) then 1 else 0) =? 0);
       apply in_app_or in Hin; destruct Hin as [Hin | Hin];
       [left | right | right | left]; exact Hin). }
  exists idl.
  destruct Hin' as [Hc | Hc].
  - pose proof (Hhalf rf _ _ (if negb (core_vertex =? 0) then 1 else 0)
                  (if core_vertex =? 2 then 3 else 0) (Hvo _) (Hvp _) eq_refl eq_refl _
                  (or_introl eq_refl) _ Hc) as (y & x_start & x_bound & Hc' & Hb).
    exists y, x_start, x_bound. split; [reflexivity | split; [exact Hc' | exact Hb]].
  - pose proof (Hhalf rf _ _ (if negb (core_vertex =? 0) then 1 else 0)
                  (if core_vertex =? 2 then 3 else 0) (Hvo _) (Hvp _) eq_refl eq_refl _
                  (or_intror eq_refl) _ Hc) as (y & x_start & x_bound & Hc' & Hb).
    exists y, x_start, x_bound. split; [reflexivity | split; [exact Hc' | exact Hb]].
Qed.

End TriangleSpans.

(** With the vertex positions in [s32], every call of a triangle is a call
    of a span less than 1024 columns wide. *)
Lemma DrawTriangle_calls_narrow (g_drawing_area : DrawingArea)
    (shading_enable texture_enable : bool) (cmd : GPUBackendDrawCommand)
    (v0 v1 v2 : Vertex) (c : PixelCall) :
  position_s32 v0 -> position_s32 v1 -> position_s32 v2 ->
  In c (DrawTriangle_calls g_drawing_area shading_enable texture_enable cmd v0 v1 v2) ->
  exists y x_start x_bound ig idl,
    In c (DrawSpan_calls g_drawing_area shading_enable texture_enable cmd y x_start x_bound
            ig idl)
    /\ - 1024 < s32 (x_bound - x_start) < 1024.
Proof.
  intros H0 H1 H2 Hin.
  pose proof (DrawTriangle_calls_span g_drawing_area shading_enable texture_enable cmd
                v0 v1 v2 c Hin) as Hspan.
  assert (Hs : let '(a, b, d, _) := sort_vertices v0 v1 v2 in
               position_s32 a /\ position_s32 b /\ position_s32 d).
  { unfold sort_vertices.
    destruct (vy v2 <? vy v1); destruct (vy v1 <? vy v0); destruct (vy v2 <? vy v0);
      repeat match goal with |- context [if ?b then _ else _] => destruct b end;
      auto. }
  destruct (sort_vertices v0 v1 v2) as [[[a b] d] core_vertex].
  destruct Hs as (Pa & Pb & Pd).
  destruct Hspan as (idl & y & x_start & x_bound & _ & Hc & Hx).
  destruct (Hx Pa Pb Pd) as (Hw & t1 & t2 & -> & -> & Ht1 & Ht2).
  eexists y, (s32 (vx a + t1)), (s32 (vx a + t2)), _, idl. split; [exact Hc |].
  rewrite s32_sub_l, s32_sub_r.
  replace (vx a + t2 - (vx a + t1)) with (t2 - t1) by lia.
  rewrite s32_small; lia.
Qed.

(** With the vertex positions in the 11-bit range, both ends of the span are
    between the leftmost and the rightmost vertex. *)
Lemma DrawTriangle_calls_span_11bit (g_drawing_area : DrawingArea)
    (shading_enable texture_enable : bool) (cmd : GPUBackendDrawCommand)
    (v0 v1 v2 : Vertex) (c : PixelCall) :
  In c (DrawTriangle_calls g_drawing_area shading_enable texture_enable cmd v0 v1 v2) ->
  let '(a, b, d, core_vertex) := sort_vertices v0 v1 v2 in
  exists idl y x_start x_bound,
    CalcIDeltas shading_enable texture_enable a b d = Some idl
    /\ In c (DrawSpan_calls g_drawing_area shading_enable texture_enable cmd y x_start
               x_bound
               (triangle_ig shading_enable texture_enable idl
                  (vertex_at (a, b, d) core_vertex)) idl)
    /\ (position_11bit a -> position_11bit b -> position_11bit d ->
        min3 (vx a) (vx b) (vx d) <= x_start <= max3 (vx a) (vx b) (vx d)
        /\ min3 (vx a) (vx b) (vx d) <= x_bound <= max3 (vx a) (vx b) (vx d)).
Proof.
  intros Hin.
  pose proof (DrawTriangle_calls_span g_drawing_area shading_enable texture_enable cmd
                v0 v1 v2 c Hin) as Hspan.
  destruct (sort_vertices v0 v1 v2) as [[[a b] d] core_vertex].
  destruct Hspan as (idl & y & x_start & x_bound & Hidl & Hc & Hx).
  exists idl, y, x_start, x_bound. split; [exact Hidl |]. split; [exact Hc |].
  intros [Hax Hay] [Hbx Hby] [Hdx Hdy].
  destruct Hx as (Hw & t1 & t2 & -> & -> & Ht1 & Ht2);
    try (unfold position_s32; lia).
  rewrite !(s32_small (vx _ - vx a)) in Ht1, Ht2 by lia.
  unfold min3, max3 in *. rewrite !s32_small by lia. lia.
Qed.

(** ** Every shader call of a triangle is inside the drawing area *)

Lemma position_11bit_s32 (v : Vertex) : position_11bit v -> position_s32 v.
Proof. unfold position_11bit, position_s32. lia. Qed.

Lemma area_in_vram_bounded (g_drawing_area : DrawingArea) :
  area_in_vram g_drawing_area ->
  area_left g_drawing_area <= area_right g_drawing_area ->
  area_bounded g_drawing_area.
Proof. unfold area_in_vram, area_bounded, VRAM_WIDTH. lia. Qed.

(** The columns: for vertex positions in [s32]. *)
Lemma DrawTriangle_calls_columns (g_drawing_area : DrawingArea)
    (shading_enable texture_enable : bool) (cmd : GPUBackendDrawCommand)
    (v0 v1 v2 : Vertex) (c : PixelCall) :
  area_bounded g_drawing_area ->
  position_s32 v0 -> position_s32 v1 -> position_s32 v2 ->
  In c (DrawTriangle_calls g_drawing_area shading_enable texture_enable cmd v0 v1 v2) ->
  area_left g_drawing_area <= pc_x c <= area_right g_drawing_area.
Proof.
  intros Ha H0 H1 H2 Hin.
  destruct (DrawTriangle_calls_narrow _ _ _ _ _ _ _ _ H0 H1 H2 Hin)
    as (y & x_start & x_bound & ig & idl & Hc & Hw).
  apply DrawSpan_calls_range in Hc; [tauto | exact Ha | lia].
Qed.

(** The rows too: for vertex positions in the 11-bit range, where the row
    that is clipped is the row that is drawn. *)
Lemma DrawTriangle_calls_inside (g_drawing_area : DrawingArea)
    (shading_enable texture_enable : bool) (cmd : GPUBackendDrawCommand)
    (v0 v1 v2 : Vertex) :
  area_bounded g_drawing_area ->
  position_11bit v0 -> position_11bit v1 -> position_11bit v2 ->
  Forall (fun c => in_drawing_area g_drawing_area (pc_x c) (pc_y c))
    (DrawTriangle_calls g_drawing_area shading_enable texture_enable cmd v0 v1 v2).
Proof.
  intros Ha H0 H1 H2. apply Forall_forall. intros c Hin. split.
  - apply (DrawTriangle_calls_columns g_drawing_area shading_enable texture_enable cmd
             v0 v1 v2); auto using position_11bit_s32.
  - apply DrawTriangle_calls_rows in Hin. destruct Hin as (Hy & _ & Hrow).
    destruct H0 as [_ H0], H1 as [_ H1], H2 as [_ H2]. unfold min3, max3 in Hy.
    rewrite TruncateGPUVertexPosition_small in Hrow by lia. exact Hrow.
Qed.




(** The triangle of the witness: its three pixels and nothing else. *)
Example small_triangle_pixels :
  map (fun xy => Draw plain_lut full_area small_triangle blank_vram
                   (pixel_index (fst xy) (snd xy)))
    [(0, 0); (1, 0); (0, 1); (2, 0); (1, 1); (0, 2)]
  = [31; 31; 31; 0; 0; 0].
Proof. vm_compute. reflexivity. Qed.

(** Outside the 11-bit range the position hypothesis is needed:
    [DrawTriangle] clips [TruncateGPUVertexPosition(yi)] but hands [yi] itself
    to [DrawSpan], so these rows are drawn at [y = -2040] and [y = -2039]. *)
Example DrawTriangle_row_outside_11bit :
  map (fun c => (pc_x c, pc_y c))
    (DrawTriangle_calls full_area false false plain_cmd
       (mkVertex 0 (-2040) 0) (mkVertex 2 (-2040) 0) (mkVertex 0 (-2038) 0))
  = [(0, -2040); (1, -2040); (0, -2039)].
Proof. vm_compute. reflexivity. Qed.


(** * Further properties of the rasterizer *)

(** ** What every shader call of a primitive satisfies *)

(** A word changed by a draw command is the target of one of its calls. *)
Lemma Draw_changed_call (g_dither_lut : DitherLUT) (g_drawing_area : DrawingArea)
    (c : DrawCommand) (vram : VRAM) (i : Z) :
  Draw g_dither_lut g_drawing_area c vram i <> vram i ->
  exists c', In c' (command_calls g_drawing_area c)
             /\ i = pixel_index (pc_x c') (pc_y c').
Proof.
  intros Hch. destruct c; cbn [Draw command_calls] in *.
  - destruct (GetDrawRectangleFunction _ _ _). now apply run_calls_changed in Hch.
  - destruct (GetDrawTriangleFunction _ _ _ _ _). now apply run_calls_changed in Hch.
  - destruct (GetDrawLineFunction _ _ _). now apply run_calls_changed in Hch.
Qed.

Section Skip.

Variable g_drawing_area : DrawingArea.

Lemma DrawRectangle_calls_not_skipped (cmd : GPUBackendDrawSpriteCommand) :
  Forall (fun c => interlace_skip (sprite_cmd cmd) (pc_y c) = false)
    (DrawRectangle_calls g_drawing_area cmd).
Proof.
  apply Forall_forall. intros c Hin. unfold DrawRectangle_calls in Hin.
  destruct (UnpackColorRGB24 _) as [[r g] b].
  destruct (UnpackTexcoord _) as [tx ty].
  apply in_flat_map in Hin. destruct Hin as (oy & _ & Hin).
  destruct (_ || _ || _) eqn:Hrow; [contradiction |].
  apply in_flat_map in Hin. destruct Hin as (ox & _ & Hin).
  destruct (_ || _) in Hin; [contradiction |].
  destruct Hin as [<- | []]. cbn [pc_y].
  now apply orb_false_iff in Hrow.
Qed.

Lemma line_loop_not_skipped (shading_enable : bool) (cmd : GPUBackendDrawCommand)
    (p0 : LineVertex) (step : line_fxp_step) (n : nat) (cur_point : line_fxp_coord) :
  Forall (fun c => interlace_skip cmd (pc_y c) = false)
    (line_loop g_drawing_area shading_enable cmd p0 step n cur_point).
Proof.
  revert cur_point. induction n as [| n IH]; intros cur_point; [constructor |].
  cbn [line_loop]. apply Forall_app. split; [| apply IH].
  destruct (_ && _ && _ && _ && _) eqn:Hin; [| constructor].
  repeat (apply andb_true_iff in Hin; destruct Hin as [Hin ?]).
  constructor; [| constructor]. cbn [pc_y]. now apply negb_true_iff in Hin.
Qed.

Lemma DrawLine_calls_not_skipped (shading_enable : bool) (cmd : GPUBackendDrawCommand)
    (p0 p1 : LineVertex) :
  Forall (fun c => interlace_skip cmd (pc_y c) = false)
    (DrawLine_calls g_drawing_area shading_enable cmd p0 p1).
Proof.
  unfold DrawLine_calls.
  destruct (_ || _); [constructor |].
  destruct (line_endpoints _ _ _). apply line_loop_not_skipped.
Qed.

(** No call of a draw command is on a row that interlacing skips. *)
Lemma command_calls_not_skipped (c : DrawCommand) :
  Forall (fun c' => interlace_skip (command_base c) (pc_y c') = false)
    (command_calls g_drawing_area c).
Proof.
  destruct c; cbn [command_calls command_base].
  - apply DrawRectangle_calls_not_skipped.
  - destruct (GetDrawTriangleFunction _ _ _ _ _).
    apply Forall_forall. intros c Hin. now apply DrawTriangle_calls_rows in Hin.
  - destruct (GetDrawLineFunction _ _ _). apply DrawLine_calls_not_skipped.
Qed.

Lemma command_calls_inside (c : DrawCommand) :
  wf_command c -> area_bounded g_drawing_area ->
  Forall (fun c' => in_drawing_area g_drawing_area (pc_x c') (pc_y c'))
    (command_calls g_drawing_area c).
Proof.
  intros Hwf Ha. destruct c; cbn [command_calls].
  - apply DrawRectangle_calls_inside.
  - destruct (GetDrawTriangleFunction _ _ _ _ _). destruct Hwf as (H0 & H1 & H2).
    now apply DrawTriangle_calls_inside.
  - destruct (GetDrawLineFunction _ _ _). apply DrawLine_calls_inside.
Qed.

(** With an empty drawing area a draw command makes no call. *)
Lemma command_calls_empty_area (c : DrawCommand) :
  area_bounded g_drawing_area -> positions_s32 c ->
  area_right g_drawing_area < area_left g_drawing_area
  \/ area_bottom g_drawing_area < area_top g_drawing_area ->
  command_calls g_drawing_area c = [].
Proof.
  intros Ha Hs Hempty.
  destruct (command_calls g_drawing_area c) as [| c' l] eqn:E; [reflexivity | exfalso].
  assert (Hin : In c' (command_calls g_drawing_area c)) by (rewrite E; now left).
  clear E. destruct c; cbn [command_calls] in Hin.
  - pose proof (DrawRectangle_calls_inside g_drawing_area cmd) as Hall.
    rewrite Forall_forall in Hall. apply Hall in Hin. unfold in_drawing_area in Hin. lia.
  - destruct (GetDrawTriangleFunction _ _ _ _ _). destruct Hs as (H0 & H1 & H2).
    pose proof (DrawTriangle_calls_columns _ _ _ _ _ _ _ _ Ha H0 H1 H2 Hin).
    apply DrawTriangle_calls_rows in Hin. lia.
  - destruct (GetDrawLineFunction _ _ _).
    pose proof (DrawLine_calls_inside g_drawing_area shading_enable cmd p0 p1) as Hall.
    rewrite Forall_forall in Hall. apply Hall in Hin. unfold in_drawing_area in Hin. lia.
Qed.

End Skip.

(** ** Interlacing, empty drawing area, triangle rows *)

Lemma row_low_bit (y : Z) : Z.land (Truncate8 (u32 y)) 1 = y mod 2.
Proof.
  unfold Truncate8, u32. change 1 with (Z.ones 1). rewrite Z.land_ones by lia.
  change (2 ^ 1) with 2.
  rewrite (Z.mod_mod_divide _ (2 ^ 8) 2) by (exists (2 ^ 7); reflexivity).
  apply Z.mod_mod_divide. exists (2 ^ 31). reflexivity.
Qed.

(** X1. Interlace filter: with interlaced rendering on, no draw command
    (rectangle, triangle or line) shades a pixel on a row whose low bit equals
    [active_line_lsb]; so, with the drawing area inside VRAM and its left
    and right bounds at most [2^30] in magnitude, every VRAM pixel on such a
    row reads the same after the draw. *)
Theorem interlace_filter (g_dither_lut : DitherLUT) (g_drawing_area : DrawingArea)
    (c : DrawCommand) (vram : VRAM) :
  interlaced_rendering (command_base c) = true ->
  Forall (fun c' => pc_y c' mod 2 <> active_line_lsb (command_base c))
    (command_calls g_drawing_area c)
  /\ (wf_command c -> area_bounded g_drawing_area -> area_in_vram g_drawing_area ->
      forall x y, 0 <= x < VRAM_WIDTH -> 0 <= y < VRAM_HEIGHT ->
                  y mod 2 = active_line_lsb (command_base c) ->
                  GetPixel (Draw g_dither_lut g_drawing_area c vram) x y = GetPixel vram x y).
Proof.
  intros Hint.
  assert (Hrows : Forall (fun c' => pc_y c' mod 2 <> active_line_lsb (command_base c))
                    (command_calls g_drawing_area c)).
  { eapply Forall_impl; [| apply command_calls_not_skipped].
    intros c' Hs E. unfold interlace_skip in Hs.
    rewrite Hint, row_low_bit, E, Z.eqb_refl in Hs. discriminate. }
  split; [exact Hrows |].
  intros Hwf Ha (Hl & Hr & Ht & Hb) x y Hx Hy Hlsb. unfold GetPixel.
  destruct (Z.eq_dec (Draw g_dither_lut g_drawing_area c vram (pixel_index x y))
              (vram (pixel_index x y))) as [Heq | Hne]; [exact Heq | exfalso].
  apply Draw_changed_call in Hne. destruct Hne as (c' & Hin & E).
  pose proof (command_calls_inside g_drawing_area c Hwf Ha) as Hins.
  rewrite Forall_forall in Hins, Hrows.
  specialize (Hins c' Hin). specialize (Hrows c' Hin). unfold in_drawing_area in Hins.
  apply pixel_index_inj in E; try lia.
  destruct E as [_ ->]. contradiction.
Qed.

Lemma interlace_filter_witness :
  Forall (fun c' => pc_y c' mod 2 <> 1)
    (command_calls full_area (RectangleCommand false false false interlaced_sprite))
  /\ GetPixel (Draw plain_lut full_area (RectangleCommand false false false interlaced_sprite)
                blank_vram) 4 5
     = GetPixel blank_vram 4 5.
Proof.
  destruct (interlace_filter plain_lut full_area
              (RectangleCommand false false false interlaced_sprite) blank_vram
              eq_refl) as [Hrows Hpix].
  split; [exact Hrows |].
  apply Hpix; [exact I | unfold area_bounded; vm_compute; repeat split; discriminate
              | unfold area_in_vram; vm_compute; repeat split; discriminate
              | vm_compute; split; [discriminate | reflexivity]
              | vm_compute; split; [discriminate | reflexivity]
              | reflexivity].
Defined.

(** The interlaced sprite of the witness draws its even row only. *)
Example interlaced_sprite_pixels :
  map (fun xy => Draw plain_lut full_area
                   (RectangleCommand false false false interlaced_sprite) blank_vram
                   (pixel_index (fst xy) (snd xy)))
    [(4, 4); (5, 4); (4, 5); (5, 5)]
  = [31; 31; 0; 0].
Proof. vm_compute. reflexivity. Qed.

(** X2. Empty drawing area: when the drawing area has [right < left] or
    [bottom < top] (as after [static_cast<s32>]), with left and right bounds
    at most [2^30] in magnitude, a draw command, its positions any [s32]
    values, makes no shader call and leaves every VRAM word as it was. *)
Theorem empty_drawing_area (g_dither_lut : DitherLUT) (g_drawing_area : DrawingArea)
    (c : DrawCommand) (vram : VRAM) :
  area_bounded g_drawing_area -> positions_s32 c ->
  area_right g_drawing_area < area_left g_drawing_area
  \/ area_bottom g_drawing_area < area_top g_drawing_area ->
  command_calls g_drawing_area c = []
  /\ forall i, Draw g_dither_lut g_drawing_area c vram i = vram i.
Proof.
  intros Ha Hs Hempty.
  pose proof (command_calls_empty_area g_drawing_area c Ha Hs Hempty) as Hnil.
  split; [exact Hnil |]. intros i.
  destruct (Z.eq_dec (Draw g_dither_lut g_drawing_area c vram i) (vram i)) as [Heq | Hne];
    [exact Heq | exfalso].
  apply Draw_changed_call in Hne. destruct Hne as (c' & Hin & _).
  rewrite Hnil in Hin. contradiction.
Qed.

Lemma empty_drawing_area_witness :
  command_calls empty_area small_triangle = []
  /\ forall i, Draw plain_lut empty_area small_triangle blank_vram i = blank_vram i.
Proof.
  apply (empty_drawing_area plain_lut empty_area small_triangle blank_vram).
  - unfold area_bounded. vm_compute. repeat split; discriminate.
  - unfold positions_s32, small_triangle, position_s32. cbn. lia.
  - left. vm_compute. reflexivity.
Defined.

(** X3. Triangle rows: every pixel a triangle shades is on a row [y] with
    [min y <= y < max y] over its three vertices, the bottom row excluded;
    a triangle whose three vertices share one [y] shades nothing. *)
Theorem triangle_rows (g_drawing_area : DrawingArea) (shading_enable texture_enable : bool)
    (cmd : GPUBackendDrawCommand) (v0 v1 v2 : Vertex) :
  Forall (fun c => min3 (vy v0) (vy v1) (vy v2) <= pc_y c < max3 (vy v0) (vy v1) (vy v2))
    (DrawTriangle_calls g_drawing_area shading_enable texture_enable cmd v0 v1 v2)
  /\ (vy v0 = vy v1 -> vy v1 = vy v2 ->
      DrawTriangle_calls g_drawing_area shading_enable texture_enable cmd v0 v1 v2 = []).
Proof.
  assert (Hrows : Forall
            (fun c => min3 (vy v0) (vy v1) (vy v2) <= pc_y c < max3 (vy v0) (vy v1) (vy v2))
            (DrawTriangle_calls g_drawing_area shading_enable texture_enable cmd v0 v1 v2)).
  { apply Forall_forall. intros c Hin. now apply DrawTriangle_calls_rows in Hin. }
  split; [exact Hrows |]. intros E01 E12.
  destruct (DrawTriangle_calls _ _ _ _ _ _ _) as [| c l]; [reflexivity | exfalso].
  apply Forall_inv in Hrows. unfold min3, max3 in Hrows. lia.
Qed.

(** ** Dropped triangles *)

(** The sort permutes the three vertices. *)
Lemma sort_vertices_perm6 (v0 v1 v2 : Vertex) :
  let '(a, b, c, _) := sort_vertices v0 v1 v2 in
  (a, b, c) = (v0, v1, v2) \/ (a, b, c) = (v0, v2, v1) \/ (a, b, c) = (v1, v0, v2)
  \/ (a, b, c) = (v1, v2, v0) \/ (a, b, c) = (v2, v0, v1) \/ (a, b, c) = (v2, v1, v0).
Proof.
  unfold sort_vertices.
  repeat match goal with |- context [if ?b then _ else _] => destruct b end;
    cbn; auto 10.
Qed.

(** [CALCIS] is the exact expression wrapped to 32 bits once. *)
Lemma CALCIS_wrap (fx fy : Vertex -> Z) (A B C : Vertex) :
  CALCIS fx fy A B C
  = s32 ((fx B - fx A) * (fy C - fy B) - (fx C - fx B) * (fy B - fy A)).
Proof.
  unfold CALCIS. rewrite s32_sub_l, s32_sub_r.
  rewrite <- (s32_sub_l (s32 (fx B - fx A) * s32 (fy C - fy B))).
  rewrite s32_mul_l, s32_mul_r, s32_sub_l.
  rewrite <- (s32_sub_r _ (s32 (fx C - fx B) * s32 (fy B - fy A))).
  rewrite s32_mul_l, s32_mul_r, s32_sub_r.
  reflexivity.
Qed.

(** The product [CALCIS(a, b) * (1 << COORD_FBS)] of [CalcIDeltas] stays
    inside the [s32] range: after the size tests of [DrawTriangle] the
    position differences are below 1024 and the attribute differences are at
    most 255 in magnitude.  [gradient_quotient] writes it without a wrap. *)
Lemma gradient_product_exact (fx fy : Vertex -> Z) (A B C : Vertex) (m n : Z) :
  0 <= m -> 0 <= n -> m * n <= 1023 * 255 ->
  Z.abs (s32 (fx B - fx A)) <= m -> Z.abs (s32 (fx C - fx B)) <= m ->
  Z.abs (s32 (fy C - fy B)) <= n -> Z.abs (s32 (fy B - fy A)) <= n ->
  s32 (CALCIS fx fy A B C * Z.shiftl 1 COORD_FBS)
  = CALCIS fx fy A B C * Z.shiftl 1 COORD_FBS.
Proof.
  intros Hm Hn Hmn Ha Hc Hb Hd. unfold CALCIS.
  set (a := s32 (fx B - fx A)) in *. set (c := s32 (fx C - fx B)) in *.
  set (b := s32 (fy C - fy B)) in *. set (d := s32 (fy B - fy A)) in *.
  clearbody a b c d.
  assert (Hab : Z.abs (a * b) <= 1023 * 255)
    by (rewrite Z.abs_mul; apply Z.le_trans with (m * n); [| exact Hmn];
        apply Z.mul_le_mono_nonneg; lia).
  assert (Hcd : Z.abs (c * d) <= 1023 * 255)
    by (rewrite Z.abs_mul; apply Z.le_trans with (m * n); [| exact Hmn];
        apply Z.mul_le_mono_nonneg; lia).
  rewrite (s32_small (a * b)) by lia. rewrite (s32_small (c * d)) by lia.
  rewrite (s32_small (a * b - c * d)) by lia.
  change (Z.shiftl 1 COORD_FBS) with 4096.
  apply s32_small. lia.
Qed.

(** Swapping vertices keeps the exact gradient denominator up to its sign:
    collinear vertices stay collinear. *)
Lemma sort_vertices_denominator (v0 v1 v2 : Vertex) :
  (vx v1 - vx v0) * (vy v2 - vy v1) = (vx v2 - vx v1) * (vy v1 - vy v0) ->
  let '(a, b, c, _) := sort_vertices v0 v1 v2 in
  CALCIS vx vy a b c = 0.
Proof.
  intros Hcol.
  pose proof (sort_vertices_perm6 v0 v1 v2) as Hp.
  destruct (sort_vertices v0 v1 v2) as [[[a b] c] core_vertex].
  rewrite CALCIS_wrap.
  match goal with |- s32 ?e = 0 => replace e with 0; [reflexivity |] end.
  destruct Hp as [E | [E | [E | [E | [E | E]]]]]; inversion E; subst; lia.
Qed.

(** X4. Collinear triangle: a triangle whose vertices are collinear,
    [(v1.x - v0.x) * (v2.y - v1.y) = (v2.x - v1.x) * (v1.y - v0.y)], in
    whatever order they are given, shades nothing. *)
Theorem collinear_triangle_dropped (g_drawing_area : DrawingArea)
    (shading_enable texture_enable : bool) (cmd : GPUBackendDrawCommand)
    (v0 v1 v2 : Vertex) :
  (vx v1 - vx v0) * (vy v2 - vy v1) = (vx v2 - vx v1) * (vy v1 - vy v0) ->
  DrawTriangle_calls g_drawing_area shading_enable texture_enable cmd v0 v1 v2 = [].
Proof.
  intros Hcol. unfold DrawTriangle_calls.
  pose proof (sort_vertices_denominator v0 v1 v2 Hcol) as Hz.
  destruct (sort_vertices v0 v1 v2) as [[[a b] c] core_vertex].
  destruct (vy a =? vy c); [reflexivity |].
  destruct (_ || _ || _ || _); [reflexivity |].
  unfold CalcIDeltas. rewrite Hz.
  destruct (vy b =? vy a); reflexivity.
Qed.

Lemma collinear_triangle_dropped_witness :
  DrawTriangle_calls full_area true false plain_cmd
    (mkVertex 0 0 255) (mkVertex 4 2 0) (mkVertex 2 1 7) = [].
Proof.
  apply (collinear_triangle_dropped full_area true false plain_cmd
           (mkVertex 0 0 255) (mkVertex 4 2 0) (mkVertex 2 1 7)).
  reflexivity.
Defined.

(** X5. Oversized triangle: a triangle two of whose vertices are 1024 or
    more apart in [x], or whose rows span 512 or more, in whatever order the
    vertices are given, shades nothing, provided the three widths and the
    height are less than [2^31], so that the code's [s32] differences do not
    overflow. *)
Theorem oversized_triangle_dropped (g_drawing_area : DrawingArea)
    (shading_enable texture_enable : bool) (cmd : GPUBackendDrawCommand)
    (v0 v1 v2 : Vertex) :
  extents_s32 v0 v1 v2 ->
  Z.abs (vx v1 - vx v0) >= MAX_PRIMITIVE_WIDTH
  \/ Z.abs (vx v2 - vx v1) >= MAX_PRIMITIVE_WIDTH
  \/ Z.abs (vx v2 - vx v0) >= MAX_PRIMITIVE_WIDTH
  \/ max3 (vy v0) (vy v1) (vy v2) - min3 (vy v0) (vy v1) (vy v2) >= MAX_PRIMITIVE_HEIGHT ->
  DrawTriangle_calls g_drawing_area shading_enable texture_enable cmd v0 v1 v2 = [].
Proof.
  intros (Hw01 & Hw12 & Hw02 & Hh) Hbig. unfold DrawTriangle_calls.
  pose proof (sort_vertices_perm6 v0 v1 v2) as Hp.
  pose proof (sort_vertices_min_max v0 v1 v2) as Hm.
  destruct (sort_vertices v0 v1 v2) as [[[a b] c] core_vertex].
  destruct Hm as (Hmin & Hmax & Hab).
  destruct (vy a =? vy c); [reflexivity |].
  match goal with |- (if ?g then _ else _) = _ => assert (Hg : g = true) end;
    [| now rewrite Hg].
  unfold MAX_PRIMITIVE_WIDTH, MAX_PRIMITIVE_HEIGHT in *.
  rewrite Hmin, Hmax in Hab. rewrite <- Hmin, <- Hmax in Hbig, Hh.
  assert (Hxs : Z.abs (vx c - vx a) >= 1024 \/ Z.abs (vx c - vx b) >= 1024
                \/ Z.abs (vx b - vx a) >= 1024 \/ vy c - vy a >= 512).
  { destruct Hp as [E | [E | [E | [E | [E | E]]]]]; inversion E; subst; lia. }
  assert (Hr : Z.abs (vx c - vx a) < 2 ^ 31 /\ Z.abs (vx c - vx b) < 2 ^ 31
               /\ Z.abs (vx b - vx a) < 2 ^ 31).
  { destruct Hp as [E | [E | [E | [E | [E | E]]]]]; inversion E; subst; lia. }
  rewrite !s32_small by lia. rewrite !u32_abs32 by lia.
  unfold u32. rewrite Z.mod_small by lia.
  rewrite !orb_true_iff, !Z.geb_le. lia.
Qed.

Lemma oversized_triangle_dropped_witness :
  DrawTriangle_calls full_area false false plain_cmd
    (mkVertex 0 0 0) (mkVertex 1024 5 0) (mkVertex 3 9 0) = [].
Proof.
  apply (oversized_triangle_dropped full_area false false plain_cmd
           (mkVertex 0 0 0) (mkVertex 1024 5 0) (mkVertex 3 9 0)).
  - unfold extents_s32, min3, max3. cbn. lia.
  - left. vm_compute. discriminate.
Defined.

(** ** Lines in either direction *)

(** Differences small enough not to overflow are taken exactly. *)
Ltac exact_differences :=
  rewrite ?(s32_small (lx _ - lx _)), ?(s32_small (ly _ - ly _)) by lia;
  rewrite ?abs32_small by lia;
  rewrite ?(u32_small (Z.abs _)) by lia.

Lemma DrawLine_calls_swap (g_drawing_area : DrawingArea) (shading_enable : bool)
    (cmd : GPUBackendDrawCommand) (p0 p1 : LineVertex) :
  s32 (lx p1 - lx p0) <> 0 ->
  DrawLine_calls g_drawing_area shading_enable cmd p0 p1
  = DrawLine_calls g_drawing_area shading_enable cmd p1 p0.
Proof.
  intros Hne.
  assert (Hx : lx p0 <> lx p1) by (intros E; rewrite E, Z.sub_diag in Hne; now apply Hne).
  unfold DrawLine_calls.
  rewrite (abs32_sym (lx p0) (lx p1)), (abs32_sym (ly p0) (ly p1)).
  destruct (_ || _) eqn:Hsize; [reflexivity |].
  apply line_length_positive in Hsize; [| now left].
  set (k := if abs32 (s32 (lx p1 - lx p0)) >? abs32 (s32 (ly p1 - ly p0))
            then abs32 (s32 (lx p1 - lx p0)) else abs32 (s32 (ly p1 - ly p0))) in *.
  assert (Hk : (k >? 0) = true) by (apply Z.gtb_lt; lia).
  unfold line_endpoints. rewrite Hk, !andb_true_r.
  destruct (Z.geb_spec (lx p0) (lx p1)); destruct (Z.geb_spec (lx p1) (lx p0));
    try lia; reflexivity.
Qed.

(** X6. Line direction: a line whose endpoints, at [s32] positions, differ
    in [x] is drawn the same from either end: the same shader calls in the
    same order, with the same colours, and so the same VRAM. *)
Theorem line_direction_independent (g_dither_lut : DitherLUT)
    (g_drawing_area : DrawingArea)
    (shading_enable transparency_enable dithering_enable : bool)
    (cmd : GPUBackendDrawCommand) (p0 p1 : LineVertex) (vram : VRAM) :
  line_position_s32 p0 -> line_position_s32 p1 ->
  lx p0 <> lx p1 ->
  DrawLine_calls g_drawing_area shading_enable cmd p0 p1
  = DrawLine_calls g_drawing_area shading_enable cmd p1 p0
  /\ DrawLine g_dither_lut g_drawing_area shading_enable transparency_enable
       dithering_enable cmd p0 p1 vram
     = DrawLine g_dither_lut g_drawing_area shading_enable transparency_enable
         dithering_enable cmd p1 p0 vram.
Proof.
  intros [H0 _] [H1 _] Hne. unfold DrawLine.
  rewrite (DrawLine_calls_swap g_drawing_area shading_enable cmd p0 p1)
    by (intros E; apply s32_sub_zero in E; lia).
  split; reflexivity.
Qed.

Lemma line_direction_independent_witness :
  DrawLine_calls full_area true plain_cmd line_a line_b
  = DrawLine_calls full_area true plain_cmd line_b line_a
  /\ DrawLine plain_lut full_area true false false plain_cmd line_a line_b blank_vram
     = DrawLine plain_lut full_area true false false plain_cmd line_b line_a blank_vram.
Proof.
  apply (line_direction_independent plain_lut full_area true false false plain_cmd
           line_a line_b blank_vram).
  - unfold line_position_s32. cbn. lia.
  - unfold line_position_s32. cbn. lia.
  - vm_compute. discriminate.
Defined.

(** ** The pixels of a line *)

Lemma LineDivide_unit (k : Z) : 0 < k < 2 ^ 31 -> LineDivide k k = 2 ^ 32.
Proof.
  intros Hk. rewrite LineDivide_closed by lia.
  rewrite (proj2 (Z.sgn_pos_iff k)) by lia.
  rewrite Z.quot_div_nonneg by lia.
  symmetry. apply Z.div_unique with (k - 1); lia.
Qed.

Lemma LineDivide_zero (k : Z) : LineDivide 0 k = 0.
Proof. unfold LineDivide. cbn. now destruct k. Qed.

Lemma column_pixel (x : Z) :
  0 <= x < 2048 ->
  s32 (Z.land (Z.shiftr (2 ^ 32 * x + (2 ^ 31 - 1024)) Line_XY_FractBits) 2047) = x.
Proof.
  intros Hx. unfold Line_XY_FractBits.
  rewrite Z.shiftr_div_pow2 by lia.
  replace ((2 ^ 32 * x + (2 ^ 31 - 1024)) / 2 ^ 32) with x
    by (apply Z.div_unique with (2 ^ 31 - 1024); lia).
  change 2047 with (Z.ones 11). rewrite Z.land_ones by lia.
  change (2 ^ 11) with 2048. rewrite Z.mod_small by lia.
  unfold s32. rewrite Z.mod_small; lia.
Qed.

Section Columns.
Variable g_drawing_area : DrawingArea.
Variable shading_enable : bool.
Variable cmd : GPUBackendDrawCommand.
Variable p0 : LineVertex.
Variable step : line_fxp_step.
Hypothesis Hstep : dx_dk step = 2 ^ 32.

Lemma line_loop_columns (n : nat) (x : Z) (cur_point : line_fxp_coord) :
  cur_x cur_point = 2 ^ 32 * x + (2 ^ 31 - 1024) ->
  0 <= x -> x + Z.of_nat n <= 2048 ->
  StronglySorted Z.lt
    (map pc_x (line_loop g_drawing_area shading_enable cmd p0 step n cur_point))
  /\ Forall (fun v => x <= v < x + Z.of_nat n)
       (map pc_x (line_loop g_drawing_area shading_enable cmd p0 step n cur_point)).
Proof.
  revert x cur_point. induction n as [| n IH]; intros x cur_point Hcur Hx Hn.
  - split; constructor.
  - cbn [line_loop]. rewrite !map_app.
    match goal with |- context [line_loop _ _ _ _ _ n ?cp] =>
      destruct (IH (x + 1) cp) as [Hs Hr]; [| lia | lia |];
      [| set (rest := map pc_x (line_loop g_drawing_area shading_enable cmd p0 step n cp))
           in * ]
    end.
    { cbn [cur_x]. rewrite Hcur, Hstep. unfold u64. rewrite Z.mod_small; lia. }
    assert (Hr' : Forall (fun v => x <= v < x + Z.of_nat (S n)) rest)
      by (eapply Forall_impl; [| exact Hr]; cbn beta; intros; lia).
    assert (Hlt : Forall (Z.lt x) rest)
      by (eapply Forall_impl; [| exact Hr]; cbn beta; intros; lia).
    destruct (_ && _ && _ && _ && _); cbn [map app pc_x].
    + rewrite Hcur, column_pixel by lia.
      split; constructor; (assumption || lia).
    + split; assumption.
Qed.
End Columns.

Lemma DrawLine_calls_columns_ltr (g_drawing_area : DrawingArea) (shading_enable : bool)
    (cmd : GPUBackendDrawCommand) (p0 p1 : LineVertex) :
  lx p0 < lx p1 -> 0 <= lx p0 -> lx p1 <= 2047 ->
  Z.abs (ly p1 - ly p0) <= Z.abs (lx p1 - lx p0) ->
  StronglySorted Z.lt (map pc_x (DrawLine_calls g_drawing_area shading_enable cmd p0 p1))
  /\ Forall (fun v => lx p0 <= v <= lx p1)
       (map pc_x (DrawLine_calls g_drawing_area shading_enable cmd p0 p1)).
Proof.
  intros Hlt H0 H1 Hmajor. unfold DrawLine_calls. exact_differences.
  set (k := if Z.abs (lx p1 - lx p0) >? Z.abs (ly p1 - ly p0)
            then Z.abs (lx p1 - lx p0) else Z.abs (ly p1 - ly p0)).
  assert (Hk : k = lx p1 - lx p0).
  { subst k. destruct (Z.gtb_spec (Z.abs (lx p1 - lx p0)) (Z.abs (ly p1 - ly p0))); lia. }
  unfold MAX_PRIMITIVE_WIDTH.
  destruct (Z.geb_spec (Z.abs (lx p1 - lx p0)) 1024) as [| Hw]; [split; constructor |].
  destruct (_ >=? _); [split; constructor |]. cbn [orb].
  unfold line_endpoints.
  destruct (Z.geb_spec (lx p0) (lx p1)); [lia |]. cbn [andb].
  destruct (Z.eqb_spec k 0); [lia |]. exact_differences.
  rewrite line_origin.
  rewrite (Z.mod_small (lx p0)) by lia.
  rewrite (u64_small (_ - 1024)) by lia.
  match goal with |- context [line_loop _ _ _ _ ?st ?nn ?cp] =>
    assert (Hstep : dx_dk st = 2 ^ 32)
      by (cbn [dx_dk]; rewrite Hk; apply LineDivide_unit; lia);
    destruct (line_loop_columns g_drawing_area shading_enable cmd p0 st Hstep
                nn (lx p0) cp) as [Hs Hr]; [cbn [cur_x]; lia | lia | lia |]
  end.
  split; [exact Hs |].
  eapply Forall_impl; [| exact Hr]. cbn beta. intros; lia.
Qed.

(** X7. Columns of an x-major line: a line at least as wide as it is tall,
    with both endpoints in columns 0 to 2047, shades at most one pixel per
    column, in order from its left endpoint's column to its right endpoint's,
    whichever endpoint is given first. *)
Theorem x_major_line_columns (g_drawing_area : DrawingArea) (shading_enable : bool)
    (cmd : GPUBackendDrawCommand) (p0 p1 : LineVertex) :
  lx p0 <> lx p1 ->
  0 <= Z.min (lx p0) (lx p1) -> Z.max (lx p0) (lx p1) <= 2047 ->
  Z.abs (ly p1 - ly p0) <= Z.abs (lx p1 - lx p0) ->
  StronglySorted Z.lt (map pc_x (DrawLine_calls g_drawing_area shading_enable cmd p0 p1))
  /\ Forall (fun v => Z.min (lx p0) (lx p1) <= v <= Z.max (lx p0) (lx p1))
       (map pc_x (DrawLine_calls g_drawing_area shading_enable cmd p0 p1)).
Proof.
  intros Hne Hmin Hmax Hmajor.
  destruct (Z.lt_ge_cases (lx p0) (lx p1)) as [Hlt | Hge].
  - rewrite Z.min_l, Z.max_r in * by lia.
    apply DrawLine_calls_columns_ltr; lia.
  - rewrite DrawLine_calls_swap by (rewrite s32_small; lia).
    rewrite Z.min_r, Z.max_l in * by lia.
    apply DrawLine_calls_columns_ltr; lia.
Qed.

Lemma row_pixel (y : Z) :
  0 <= y < 2048 ->
  s32 (Z.land (Z.shiftr (2 ^ 31 + 2 ^ 32 * y) Line_XY_FractBits) 2047) = y.
Proof.
  intros Hy. unfold Line_XY_FractBits.
  rewrite Z.shiftr_div_pow2 by lia.
  replace ((2 ^ 31 + 2 ^ 32 * y) / 2 ^ 32) with y
    by (apply Z.div_unique with (2 ^ 31); lia).
  change 2047 with (Z.ones 11). rewrite Z.land_ones by lia.
  change (2 ^ 11) with 2048. rewrite Z.mod_small by lia.
  unfold s32. rewrite Z.mod_small; lia.
Qed.

Section Horizontal.
Variable g_drawing_area : DrawingArea.
Variable shading_enable : bool.
Variable cmd : GPUBackendDrawCommand.
Variable p0 : LineVertex.
Variable step : line_fxp_step.
Variable y : Z.
Hypothesis Hdx : dx_dk step = 2 ^ 32.
Hypothesis Hdy : dy_dk step = 0.
Hypothesis Hy : 0 <= y < 2048.
Hypothesis Hskip : interlace_skip cmd y = false.
Hypothesis Hrow : area_top g_drawing_area <= y <= area_bottom g_drawing_area.

Lemma line_loop_horizontal (n : nat) (x : Z) (cur_point : line_fxp_coord) :
  cur_x cur_point = 2 ^ 32 * x + (2 ^ 31 - 1024) ->
  cur_y cur_point = 2 ^ 31 + 2 ^ 32 * y ->
  0 <= x -> x + Z.of_nat n <= 2048 ->
  area_left g_drawing_area <= x -> x + Z.of_nat n - 1 <= area_right g_drawing_area ->
  map (fun c => (pc_x c, pc_y c))
    (line_loop g_drawing_area shading_enable cmd p0 step n cur_point)
  = map (fun i => (x + Z.of_nat i, y)) (seq 0 n).
Proof.
  revert x cur_point. induction n as [| n IH]; intros x cur_point Hcx Hcy Hx Hn Hl Hr;
    [reflexivity |].
  cbn [line_loop]. rewrite map_app, Hcx, Hcy, column_pixel, row_pixel by lia.
  rewrite Hskip.
  destruct (Z.geb_spec x (area_left g_drawing_area)); [| lia].
  destruct (Z.leb_spec x (area_right g_drawing_area)); [| lia].
  destruct (Z.geb_spec y (area_top g_drawing_area)); [| lia].
  destruct (Z.leb_spec y (area_bottom g_drawing_area)); [| lia].
  cbn [negb andb map app pc_x pc_y seq].
  rewrite Z.add_0_r. f_equal.
  rewrite (IH (x + 1)); try lia.
  - rewrite <- seq_shift, map_map. apply map_ext. intros i. f_equal. lia.
  - cbn [cur_x]. rewrite Hdx. unfold u64. rewrite Z.mod_small; lia.
  - cbn [cur_y]. rewrite Hdy. unfold u64. rewrite Z.mod_small; lia.
Qed.
End Horizontal.

Lemma horizontal_line_ltr (g_drawing_area : DrawingArea) (shading_enable : bool)
    (cmd : GPUBackendDrawCommand) (p0 p1 : LineVertex) :
  ly p0 = ly p1 -> lx p0 < lx p1 -> lx p1 - lx p0 < MAX_PRIMITIVE_WIDTH ->
  0 <= lx p0 -> lx p1 <= 2047 -> 0 <= ly p0 <= 2047 ->
  area_left g_drawing_area <= lx p0 -> lx p1 <= area_right g_drawing_area ->
  area_top g_drawing_area <= ly p0 <= area_bottom g_drawing_area ->
  interlace_skip cmd (ly p0) = false ->
  map (fun c => (pc_x c, pc_y c)) (DrawLine_calls g_drawing_area shading_enable cmd p0 p1)
  = map (fun i => (lx p0 + i, ly p0)) (zrange (lx p1 - lx p0 + 1)).
Proof.
  intros Ey Hlt Hw H0 H1 Hy Hl Hr Hrow Hskip. unfold DrawLine_calls.
  unfold MAX_PRIMITIVE_WIDTH, MAX_PRIMITIVE_HEIGHT in *.
  rewrite <- Ey, Z.sub_diag. exact_differences.
  change (abs32 (s32 0)) with 0. change (u32 0) with 0.
  rewrite (Z.abs_eq (lx p1 - lx p0)) by lia.
  destruct (Z.gtb_spec (lx p1 - lx p0) 0); [| lia].
  destruct (Z.geb_spec (lx p1 - lx p0) 1024); [lia |].
  change (0 >=? 512) with false. cbn [orb].
  unfold line_endpoints.
  destruct (Z.geb_spec (lx p0) (lx p1)); [lia |]. cbn [andb].
  destruct (Z.eqb_spec (lx p1 - lx p0) 0); [lia |].
  rewrite <- ?Ey, ?Z.sub_diag. exact_differences. change (s32 0) with 0.
  rewrite !line_origin, LineDivide_zero, LineDivide_unit by lia.
  cbn [dy_dk]. change (0 <? 0) with false. cbv iota.
  rewrite (Z.mod_small (lx p0)), (Z.mod_small (ly p0)) by lia.
  rewrite (u64_small (_ - 1024)) by lia.
  unfold zrange. rewrite map_map.
  apply line_loop_horizontal with (y := ly p0); cbn [dx_dk dy_dk cur_x cur_y];
    try reflexivity; try assumption; try lia.
Qed.

(** X8. Horizontal line: an accepted horizontal line with both endpoints at
    coordinates 0 to 2047, lying inside the drawing area on a row that
    interlacing does not skip, shades exactly the pixels from its left
    endpoint to its right endpoint, both included, left to right, whichever
    endpoint is given first. *)
Theorem horizontal_line (g_drawing_area : DrawingArea) (shading_enable : bool)
    (cmd : GPUBackendDrawCommand) (p0 p1 : LineVertex) :
  ly p0 = ly p1 -> lx p0 <> lx p1 ->
  Z.max (lx p0) (lx p1) - Z.min (lx p0) (lx p1) < MAX_PRIMITIVE_WIDTH ->
  0 <= Z.min (lx p0) (lx p1) -> Z.max (lx p0) (lx p1) <= 2047 -> 0 <= ly p0 <= 2047 ->
  area_left g_drawing_area <= Z.min (lx p0) (lx p1) ->
  Z.max (lx p0) (lx p1) <= area_right g_drawing_area ->
  area_top g_drawing_area <= ly p0 <= area_bottom g_drawing_area ->
  interlace_skip cmd (ly p0) = false ->
  map (fun c => (pc_x c, pc_y c)) (DrawLine_calls g_drawing_area shading_enable cmd p0 p1)
  = map (fun i => (Z.min (lx p0) (lx p1) + i, ly p0))
      (zrange (Z.max (lx p0) (lx p1) - Z.min (lx p0) (lx p1) + 1)).
Proof.
  intros Ey Hne Hw H0 H1 Hy Hl Hr Hrow Hskip.
  destruct (Z.lt_ge_cases (lx p0) (lx p1)) as [Hlt | Hge].
  - rewrite Z.min_l, Z.max_r in * by lia.
    apply horizontal_line_ltr; assumption || lia.
  - rewrite DrawLine_calls_swap by (unfold MAX_PRIMITIVE_WIDTH in Hw; rewrite s32_small; lia).
    rewrite Z.min_r, Z.max_l in * by lia.
    rewrite Ey in *.
    apply horizontal_line_ltr; try assumption; try lia.
Qed.

Lemma x_major_line_columns_witness :
  StronglySorted Z.lt (map pc_x (DrawLine_calls full_area true plain_cmd line_b line_a))
  /\ Forall (fun v => 2 <= v <= 9)
       (map pc_x (DrawLine_calls full_area true plain_cmd line_b line_a)).
Proof.
  apply (x_major_line_columns full_area true plain_cmd line_b line_a);
    vm_compute; discriminate.
Defined.

Lemma horizontal_line_witness :
  map (fun c => (pc_x c, pc_y c))
    (DrawLine_calls full_area false plain_cmd
       (mkLineVertex 7 3 255 0 0) (mkLineVertex 4 3 0 0 255))
  = [(4, 3); (5, 3); (6, 3); (7, 3)].
Proof.
  apply (horizontal_line full_area false plain_cmd
           (mkLineVertex 7 3 255 0 0) (mkLineVertex 4 3 0 0 255));
    try reflexivity; vm_compute; try discriminate; split; discriminate.
Defined.

(** ** Rectangles *)

Lemma NoDup_map_injective {A B : Type} (f : A -> B) (l : list A) :
  (forall a b, In a l -> In b l -> f a = f b -> a = b) -> NoDup l -> NoDup (map f l).
Proof.
  intros Hinj Hl. induction Hl as [| a l Hnot Hl IH]; cbn [map]; constructor.
  - intros Hin. apply in_map_iff in Hin. destruct Hin as (b & E & Hb).
    apply Hinj in E; [subst b; contradiction | now right | now left].
  - apply IH. intros x y Hx Hy. apply Hinj; now right.
Qed.

Lemma NoDup_zrange (n : Z) : NoDup (zrange n).
Proof.
  unfold zrange. apply NoDup_map_injective; [| apply seq_NoDup].
  intros a b _ _ E. lia.
Qed.

Lemma map_flat_map_list {A B C : Type} (g : B -> C) (f : A -> list B) (l : list A) :
  map g (flat_map f l) = flat_map (fun a => map g (f a)) l.
Proof.
  induction l as [| a l IH]; [reflexivity |].
  cbn [flat_map]. now rewrite map_app, IH.
Qed.

Lemma NoDup_flat_map_disjoint {A B : Type} (f : A -> list B) (l : list A) :
  NoDup l ->
  (forall a, In a l -> NoDup (f a)) ->
  (forall a a' b, In a l -> In a' l -> In b (f a) -> In b (f a') -> a = a') ->
  NoDup (flat_map f l).
Proof.
  induction l as [| a l IH]; intros Hl Hf Hd; [constructor |].
  cbn [flat_map]. inversion Hl as [| ? ? Hnot Hl']; subst.
  apply NoDup_app.
  - apply Hf. now left.
  - apply IH; [exact Hl' | intros; apply Hf; now right |].
    intros a1 a2 b H1 H2. apply Hd; now right.
  - intros b Hb Hb'. apply in_flat_map in Hb'. destruct Hb' as (a' & Ha' & Hb').
    apply Hnot. rewrite (Hd a a' b); auto; [now left | now right].
Qed.

Section Rectangle.
Variable g_drawing_area : DrawingArea.
Variable cmd : GPUBackendDrawSpriteCommand.

Hypothesis Hextent : sprite_extent_s32 cmd.

(** Inside the [s32] range the offsets are added exactly. *)
Lemma sprite_offset_exact (origin size offset : Z) :
  - 2 ^ 31 <= origin -> origin + size <= 2 ^ 31 -> 0 <= offset < size ->
  s32 (origin + s32 offset) = origin + offset.
Proof. intros Ho Hs Hoff. rewrite s32_add_r. apply s32_small. lia. Qed.

Lemma DrawRectangle_calls_In (c : PixelCall) :
  In c (DrawRectangle_calls g_drawing_area cmd)
  <-> in_rectangle g_drawing_area cmd (pc_x c) (pc_y c)
      /\ c = rectangle_call cmd (pc_x c) (pc_y c).
Proof.
  destruct Hextent as (Hx0 & Hx1 & Hy0 & Hy1).
  unfold DrawRectangle_calls, UnpackColorRGB24, UnpackTexcoord, in_rectangle,
    in_drawing_area, rectangle_call.
  rewrite in_flat_map. split.
  - intros (oy & Hoy & Hin). apply in_zrange in Hoy.
    rewrite (sprite_offset_exact _ _ _ Hy0 Hy1 Hoy) in Hin.
    destruct (Z.ltb_spec (sprite_y cmd + oy) (area_top g_drawing_area));
      [contradiction |].
    destruct (Z.gtb_spec (sprite_y cmd + oy) (area_bottom g_drawing_area));
      [contradiction |].
    destruct (interlace_skip (sprite_cmd cmd) (sprite_y cmd + oy)) eqn:Hs;
      [contradiction |].
    cbn [orb] in Hin. apply in_flat_map in Hin. destruct Hin as (ox & Hox & Hin).
    apply in_zrange in Hox.
    rewrite (sprite_offset_exact _ _ _ Hx0 Hx1 Hox) in Hin.
    destruct (Z.ltb_spec (sprite_x cmd + ox) (area_left g_drawing_area));
      [contradiction |].
    destruct (Z.gtb_spec (sprite_x cmd + ox) (area_right g_drawing_area));
      [contradiction |].
    destruct Hin as [<- | []]. cbn [pc_x pc_y].
    replace (sprite_x cmd + ox - sprite_x cmd) with ox by lia.
    replace (sprite_y cmd + oy - sprite_y cmd) with oy by lia.
    repeat split; try assumption; lia.
  - intros ((Hx & Hy & (Hax & Hay) & Hs) & E).
    exists (pc_y c - sprite_y cmd). split; [apply in_zrange; lia |].
    rewrite (sprite_offset_exact _ _ _ Hy0 Hy1) by lia.
    replace (sprite_y cmd + (pc_y c - sprite_y cmd)) with (pc_y c) by lia.
    destruct (Z.ltb_spec (pc_y c) (area_top g_drawing_area)); [lia |].
    destruct (Z.gtb_spec (pc_y c) (area_bottom g_drawing_area)); [lia |].
    rewrite Hs. cbn [orb]. apply in_flat_map.
    exists (pc_x c - sprite_x cmd). split; [apply in_zrange; lia |].
    rewrite (sprite_offset_exact _ _ _ Hx0 Hx1) by lia.
    replace (sprite_x cmd + (pc_x c - sprite_x cmd)) with (pc_x c) by lia.
    destruct (Z.ltb_spec (pc_x c) (area_left g_drawing_area)); [lia |].
    destruct (Z.gtb_spec (pc_x c) (area_right g_drawing_area)); [lia |].
    left. symmetry. exact E.
Qed.

Lemma DrawRectangle_calls_NoDup :
  NoDup (map (fun c => (pc_x c, pc_y c)) (DrawRectangle_calls g_drawing_area cmd)).
Proof.
  destruct Hextent as (Hx0 & Hx1 & Hy0 & Hy1).
  unfold DrawRectangle_calls, UnpackColorRGB24, UnpackTexcoord.
  rewrite map_flat_map_list.
  apply NoDup_flat_map_disjoint; [apply NoDup_zrange | |].
  - intros oy _. destruct (_ || _ || _); [constructor |].
    rewrite map_flat_map_list.
    apply NoDup_flat_map_disjoint; [apply NoDup_zrange | |].
    + intros ox _. destruct (_ || _); repeat constructor. intros [].
    + intros ox ox' b Hox Hox' Hb Hb'. apply in_zrange in Hox, Hox'.
      rewrite (sprite_offset_exact _ _ _ Hx0 Hx1 Hox) in Hb.
      rewrite (sprite_offset_exact _ _ _ Hx0 Hx1 Hox') in Hb'.
      destruct (_ || _) in Hb; [contradiction |].
      destruct (_ || _) in Hb'; [contradiction |].
      destruct Hb as [<- | []]. destruct Hb' as [E | []].
      cbn [pc_x] in E. inversion E. lia.
  - intros oy oy' b Hoy Hoy' Hb Hb'. apply in_zrange in Hoy, Hoy'.
    rewrite (sprite_offset_exact _ _ _ Hy0 Hy1 Hoy) in Hb.
    rewrite (sprite_offset_exact _ _ _ Hy0 Hy1 Hoy') in Hb'.
    destruct (_ || _ || _) in Hb; [contradiction |].
    destruct (_ || _ || _) in Hb'; [contradiction |].
    rewrite map_flat_map_list in Hb, Hb'.
    apply in_flat_map in Hb, Hb'.
    destruct Hb as (ox & _ & Hb). destruct Hb' as (ox' & _ & Hb').
    destruct (_ || _) in Hb; [contradiction |].
    destruct (_ || _) in Hb'; [contradiction |].
    destruct Hb as [<- | []]. destruct Hb' as [E | []].
    cbn [pc_y] in E. inversion E. lia.
Qed.
End Rectangle.

Section Untextured.
Variable g_dither_lut : DitherLUT.
Variables raw_texture_enable transparency_enable dithering_enable : bool.
Variable cmd : GPUBackendDrawCommand.

Local Abbreviation shade :=
  (ShadePixel g_dither_lut false raw_texture_enable transparency_enable
     dithering_enable cmd).
Local Abbreviation run :=
  (run_calls g_dither_lut false raw_texture_enable transparency_enable
     dithering_enable cmd).

(** Without texture the word the shader leaves at its own pixel depends on
    VRAM through that pixel only. *)
Lemma ShadePixel_untextured_local (x y r g b u v : Z) (vram vram' : VRAM) :
  vram (pixel_index x y) = vram' (pixel_index x y) ->
  shade x y r g b u v vram (pixel_index x y) = shade x y r g b u v vram' (pixel_index x y).
Proof.
  intros E. unfold ShadePixel, shade_color, GetPixel, SetPixel. rewrite E.
  destruct (negb _); [exact E |].
  now rewrite Z.eqb_refl.
Qed.

Lemma run_calls_untouched (calls : list PixelCall) (vram : VRAM) (i : Z) :
  (forall c, In c calls -> pixel_index (pc_x c) (pc_y c) <> i) ->
  run calls vram i = vram i.
Proof.
  intros Hnot.
  destruct (Z.eq_dec (run calls vram i) (vram i)) as [E | Hne]; [exact E | exfalso].
  apply run_calls_changed in Hne. destruct Hne as (c & Hin & ->).
  now apply (Hnot c Hin).
Qed.

Lemma run_calls_untextured_at (calls : list PixelCall) (vram : VRAM) (c0 : PixelCall) :
  NoDup (map (fun c => pixel_index (pc_x c) (pc_y c)) calls) ->
  In c0 calls ->
  run calls vram (pixel_index (pc_x c0) (pc_y c0))
  = shade (u32 (pc_x c0)) (u32 (pc_y c0)) (pc_r c0) (pc_g c0) (pc_b c0) (pc_u c0) (pc_v c0)
      vram (pixel_index (pc_x c0) (pc_y c0)).
Proof.
  revert vram. induction calls as [| c calls IH]; intros vram Hnd Hin; [contradiction |].
  cbn [map] in Hnd. inversion Hnd as [| ? ? Hnot Hnd']; subst.
  change (run (c :: calls) vram) with
    (run calls (shade (u32 (pc_x c)) (u32 (pc_y c)) (pc_r c) (pc_g c) (pc_b c)
                  (pc_u c) (pc_v c) vram)).
  destruct Hin as [-> | Hin].
  - apply run_calls_untouched. intros c Hc E. apply Hnot.
    rewrite <- E. now apply (in_map (fun c => pixel_index (pc_x c) (pc_y c))).
  - rewrite IH by assumption.
    rewrite <- (pixel_index_u32 (pc_x c0) (pc_y c0)).
    apply ShadePixel_untextured_local.
    rewrite pixel_index_u32. apply ShadePixel_other.
    rewrite pixel_index_u32. intros E. apply Hnot. rewrite <- E.
    now apply (in_map (fun c => pixel_index (pc_x c) (pc_y c))).
Qed.
End Untextured.

(** X9. Rectangle footprint: for a sprite whose rectangle
    [[x, x + width) x [y, y + height)] is inside the [s32] range, so that
    [origin + offset] does not overflow, [DrawRectangle] shades exactly the
    positions of that rectangle that are inside the drawing area and on rows
    interlacing does not skip, each exactly once, with the sprite's colour
    and with texture coordinates advanced, modulo 256, by the position's
    offset in the sprite. *)
Theorem rectangle_footprint (g_drawing_area : DrawingArea)
    (cmd : GPUBackendDrawSpriteCommand) :
  sprite_extent_s32 cmd ->
  (forall c, In c (DrawRectangle_calls g_drawing_area cmd)
             <-> in_rectangle g_drawing_area cmd (pc_x c) (pc_y c)
                 /\ c = rectangle_call cmd (pc_x c) (pc_y c))
  /\ NoDup (map (fun c => (pc_x c, pc_y c)) (DrawRectangle_calls g_drawing_area cmd)).
Proof.
  intros Hextent.
  split; [intros c; now apply DrawRectangle_calls_In | now apply DrawRectangle_calls_NoDup].
Qed.

Lemma rectangle_footprint_witness :
  (forall c, In c (DrawRectangle_calls full_area interlaced_sprite)
             <-> in_rectangle full_area interlaced_sprite (pc_x c) (pc_y c)
                 /\ c = rectangle_call interlaced_sprite (pc_x c) (pc_y c))
  /\ NoDup (map (fun c => (pc_x c, pc_y c)) (DrawRectangle_calls full_area interlaced_sprite)).
Proof.
  apply (rectangle_footprint full_area interlaced_sprite).
  unfold sprite_extent_s32. cbn. lia.
Defined.

(** Where [origin + offset] overflows the hypothesis is needed: a sprite
    three columns wide at [x = 2^31 - 1], in a drawing area whose left bound
    is [0x80000000], is shaded at the wrapped columns [-2^31] and
    [-2^31 + 1]. *)
Example rectangle_overflow_pixels :
  map position
    (DrawRectangle_calls
       {| da_left := 2147483648; da_top := 0; da_right := 1023; da_bottom := 511 |}
       {| sprite_cmd := plain_cmd; sprite_x := 2147483647; sprite_y := 5;
          sprite_width := 3; sprite_height := 1;
          sprite_color := 255; sprite_texcoord := 0 |})
  = [(- 2147483648, 5); (- 2147483647, 5)].
Proof. vm_compute. reflexivity. Qed.

(** X10. Untextured rectangle: with the drawing area inside VRAM and the
    sprite's rectangle inside the [s32] range, after an
    untextured [DrawRectangle] every VRAM pixel of the footprint holds what
    one shader invocation on the VRAM before the draw leaves there, and
    every other VRAM pixel is as before; for an opaque sprite and a
    background word that passes the mask test, that is the sprite's colour
    through the undithered table entry, OR-ed with [MaskOR]. *)
Theorem untextured_rectangle (g_dither_lut : DitherLUT) (g_drawing_area : DrawingArea)
    (raw_texture_enable transparency_enable : bool) (cmd : GPUBackendDrawSpriteCommand)
    (vram : VRAM) (x y : Z) :
  sprite_extent_s32 cmd ->
  area_in_vram g_drawing_area -> 0 <= x < VRAM_WIDTH -> 0 <= y < VRAM_HEIGHT ->
  let c := rectangle_call cmd x y in
  let after :=
    DrawRectangle g_dither_lut g_drawing_area false raw_texture_enable
      transparency_enable cmd vram in
  (in_rectangle g_drawing_area cmd x y ->
   GetPixel after x y
   = GetPixel (ShadePixel g_dither_lut false raw_texture_enable transparency_enable false
                 (sprite_cmd cmd) x y (pc_r c) (pc_g c) (pc_b c) (pc_u c) (pc_v c) vram)
       x y)
  /\ (~ in_rectangle g_drawing_area cmd x y -> GetPixel after x y = GetPixel vram x y)
  /\ (in_rectangle g_drawing_area cmd x y -> transparency_enable = false ->
      Z.land (GetPixel vram x y) (MaskAND (sprite_cmd cmd)) = 0 ->
      GetPixel after x y
      = Truncate16
          (Z.lor
             (Truncate16
                (Z.lor (Z.lor (Z.lor
                   (Z.shiftl (g_dither_lut 2 3 (pc_r c)) 0)
                   (Z.shiftl (g_dither_lut 2 3 (pc_g c)) 5))
                   (Z.shiftl (g_dither_lut 2 3 (pc_b c)) 10)) 0))
             (MaskOR (sprite_cmd cmd)))).
Proof.
  intros Hextent (Hl & Hr & Ht & Hb) Hx Hy c after.
  assert (Hbox : forall c', In c' (DrawRectangle_calls g_drawing_area cmd) ->
                   0 <= pc_x c' < VRAM_WIDTH /\ 0 <= pc_y c' < VRAM_HEIGHT).
  { intros c' Hin. apply DrawRectangle_calls_In in Hin; [| exact Hextent].
    destruct Hin as ((_ & _ & Ha & _) & _). unfold in_drawing_area in Ha. lia. }
  assert (Hin1 : in_rectangle g_drawing_area cmd x y ->
            GetPixel after x y
            = GetPixel (ShadePixel g_dither_lut false raw_texture_enable
                          transparency_enable false (sprite_cmd cmd) x y
                          (pc_r c) (pc_g c) (pc_b c) (pc_u c) (pc_v c) vram) x y).
  { intros Hin. subst after. unfold DrawRectangle, GetPixel.
    assert (Hc : In c (DrawRectangle_calls g_drawing_area cmd))
      by (apply DrawRectangle_calls_In; [exact Hextent | split; [exact Hin | reflexivity]]).
    change (pixel_index x y) with (pixel_index (pc_x c) (pc_y c)).
    rewrite run_calls_untextured_at; [| | exact Hc].
    - cbn [pc_x pc_y c rectangle_call]. unfold u32, VRAM_WIDTH, VRAM_HEIGHT in *.
      now rewrite !Z.mod_small by lia.
    - rewrite <- (map_map (fun c => (pc_x c, pc_y c))
                          (fun p => pixel_index (fst p) (snd p))).
      apply NoDup_map_injective; [| now apply DrawRectangle_calls_NoDup].
      intros [x1 y1] [x2 y2] H1 H2 E. cbn [fst snd] in E.
      apply in_map_iff in H1, H2.
      destruct H1 as (c1 & E1 & H1). destruct H2 as (c2 & E2 & H2).
      inversion E1; inversion E2; subst.
      destruct (Hbox c1 H1), (Hbox c2 H2).
      apply pixel_index_inj in E; try assumption. destruct E. congruence. }
  split; [exact Hin1 |]. split.
  - intros Hout. subst after. unfold DrawRectangle, GetPixel.
    apply run_calls_untouched. intros c' Hin E.
    destruct (Hbox c' Hin).
    apply pixel_index_inj in E; try assumption. destruct E as [<- <-].
    apply DrawRectangle_calls_In in Hin; [now destruct Hin | exact Hextent].
  - intros Hin -> Hmask. rewrite (Hin1 Hin).
    unfold ShadePixel, shade_color, apply_transparency, GetPixel in *.
    rewrite Hmask. cbn [negb Z.eqb]. unfold SetPixel. now rewrite Z.eqb_refl.
Qed.

Lemma untextured_rectangle_witness :
  let c := rectangle_call plain_sprite 5 5 in
  let after := DrawRectangle plain_lut full_area false false false plain_sprite blank_vram in
  (in_rectangle full_area plain_sprite 5 5 ->
   GetPixel after 5 5
   = GetPixel (ShadePixel plain_lut false false false false plain_cmd 5 5
                 (pc_r c) (pc_g c) (pc_b c) (pc_u c) (pc_v c) blank_vram) 5 5)
  /\ (~ in_rectangle full_area plain_sprite 5 5 -> GetPixel after 5 5 = GetPixel blank_vram 5 5)
  /\ (in_rectangle full_area plain_sprite 5 5 -> false = false ->
      Z.land (GetPixel blank_vram 5 5) 0 = 0 ->
      GetPixel after 5 5 = 0x001F).
Proof.
  apply (untextured_rectangle plain_lut full_area false false plain_sprite blank_vram 5 5);
    [unfold sprite_extent_s32; cbn; lia
    | unfold area_in_vram; vm_compute; repeat split; discriminate
    | vm_compute; split; [discriminate | reflexivity]
    | vm_compute; split; [discriminate | reflexivity]].
Defined.

(** ** The other blend modes *)

Lemma half_channel_facts (f b : Z) :
  0 <= f < 32 -> 0 <= b < 32 -> half_channel_ok f b = true.
Proof.
  intros Hf Hb.
  assert (Hall : forall_below 32 (fun f => forall_below 32 (fun b => half_channel_ok f b)) = true)
    by (vm_compute; reflexivity).
  apply (forall_below_spec 32 _ (forall_below_spec 32 _ Hall f Hf) b Hb).
Qed.

Lemma quarter_channel_facts (f g : Z) :
  0 <= f < 32 -> 0 <= g < 32 -> quarter_channel_ok f g = true.
Proof.
  intros Hf Hg.
  assert (Hall : forall_below 32 (fun f => forall_below 32 (fun g => quarter_channel_ok f g)) = true)
    by (vm_compute; reflexivity).
  apply (forall_below_spec 32 _ (forall_below_spec 32 _ Hall f Hf) g Hg).
Qed.

Lemma blend_half_pack (fr fg fb br bg bb bm : Z) :
  0 <= fr < 32 -> 0 <= fg < 32 -> 0 <= fb < 32 ->
  0 <= br < 32 -> 0 <= bg < 32 -> 0 <= bb < 32 -> 0 <= bm <= 1 ->
  blend HalfBackgroundPlusHalfForeground (pack fr fg fb 1) (pack br bg bb bm)
  = pack ((fr + br) / 2) ((fg + bg) / 2) ((fb + bb) / 2) 1.
Proof.
  intros Hfr Hfg Hfb Hbr Hbg Hbb Hbm.
  pose proof (half_channel_facts fr br Hfr Hbr) as Fr. split_facts Fr.
  pose proof (half_channel_facts fg bg Hfg Hbg) as Fg. split_facts Fg.
  pose proof (half_channel_facts fb bb Hfb Hbb) as Fb. split_facts Fb.
  pose proof (lxor_small5 fr br Hfr Hbr).
  pose proof (lxor_small5 fg bg Hfg Hbg).
  pose proof (lxor_small5 fb bb Hfb Hbb).
  assert (Hbm1 : Z.lor bm 1 = 1)
    by (assert (bm = 0 \/ bm = 1) as [-> | ->] by lia; reflexivity).
  unfold blend. cbv zeta.
  change 0x8000 with (pack 0 0 0 1).
  rewrite lor_pack by lia. rewrite !Z.lor_0_r, Hbm1.
  rewrite lxor_pack by lia.
  change 0x0421 with (pack 1 1 1 0).
  rewrite land_pack by lia.
  fold (add_x fr br) (add_x fg bg) (add_x fb bb). rewrite Z.land_0_r.
  rewrite (u32_small (pack fr fg fb 1 + pack br bg bb 1)) by (unfold pack; lia).
  replace (u32 (pack fr fg fb 1 + pack br bg bb 1
                - pack (add_x fr br) (add_x fg bg) (add_x fb bb) 0))
    with (2 * pack ((fr + br) / 2) ((fg + bg) / 2) ((fb + bb) / 2) 1)
    by (rewrite u32_small; unfold pack; lia).
  rewrite Z.shiftr_div_pow2 by lia. change (2 ^ 1) with 2.
  rewrite Z.mul_comm, Z.div_mul by lia.
  unfold Truncate16. apply Z.mod_small. unfold pack. lia.
Qed.

Lemma quarter_foreground_pack (fr fg fb fm : Z) :
  0 <= fr < 32 -> 0 <= fg < 32 -> 0 <= fb < 32 -> 0 <= fm <= 1 ->
  Z.lor (Z.land (Z.shiftr (pack fr fg fb fm) 2) 0x1CE7) 0x8000
  = pack (fr / 4) (fg / 4) (fb / 4) 1.
Proof.
  intros Hfr Hfg Hfb Hfm.
  pose proof (quarter_channel_facts fr fg Hfr Hfg) as Fr. split_facts Fr.
  pose proof (quarter_channel_facts fg fb Hfg Hfb) as Fg. split_facts Fg.
  assert (Hm : Z.land (fb / 4 + 8 * (fm mod 4)) 7 = fb / 4
               /\ 0 <= fb / 4 + 8 * (fm mod 4) < 32 /\ 0 <= fb / 4 < 32).
  { assert (fm = 0 \/ fm = 1) as [-> | ->] by lia.
    - pose proof (quarter_channel_facts fb 0 Hfb ltac:(lia)) as Fm. split_facts Fm.
      change (0 mod 4) with 0 in *. lia.
    - pose proof (quarter_channel_facts fb 1 Hfb ltac:(lia)) as Fm. split_facts Fm.
      change (1 mod 4) with 1 in *. lia. }
  destruct Hm as (Hm1 & Hm2 & Hm3).
  rewrite Z.shiftr_div_pow2 by lia. change (2 ^ 2) with 4.
  replace (pack fr fg fb fm / 4)
    with (pack (fr / 4 + 8 * (fg mod 4)) (fg / 4 + 8 * (fb mod 4))
            (fb / 4 + 8 * (fm mod 4)) (fm / 4))
    by (unfold pack; Z.div_mod_to_equations; lia).
  change 0x1CE7 with (pack 7 7 7 0). rewrite land_pack by lia.
  rewrite Fr, Fg, Hm1, Z.land_0_r.
  change 0x8000 with (pack 0 0 0 1). rewrite lor_pack by lia.
  rewrite !Z.lor_0_r. reflexivity.
Qed.

Lemma blend_quarter_pack (fr fg fb fm br bg bb bm : Z) :
  0 <= fr < 32 -> 0 <= fg < 32 -> 0 <= fb < 32 -> 0 <= fm <= 1 ->
  0 <= br < 32 -> 0 <= bg < 32 -> 0 <= bb < 32 -> 0 <= bm <= 1 ->
  blend BackgroundPlusQuarterForeground (pack fr fg fb fm) (pack br bg bb bm)
  = pack (Z.min 31 (fr / 4 + br)) (Z.min 31 (fg / 4 + bg)) (Z.min 31 (fb / 4 + bb)) 1.
Proof.
  intros Hfr Hfg Hfb Hfm Hbr Hbg Hbb Hbm.
  change (blend BackgroundPlusQuarterForeground (pack fr fg fb fm) (pack br bg bb bm))
    with (blend BackgroundPlusForeground
            (Z.lor (Z.land (Z.shiftr (pack fr fg fb fm) 2) 0x1CE7) 0x8000)
            (pack br bg bb bm)).
  rewrite quarter_foreground_pack by assumption.
  apply blend_add_pack; try assumption; try lia;
    (split; [apply Z.div_pos | apply Z.div_lt_upper_bound]; lia).
Qed.


(** X11. Half-and-half blend: for a 16-bit foreground with bit 15 set (the
    only foregrounds the shader blends) and a 16-bit background, each
    channel of the result is the average of the two channels, rounded down,
    and bit 15 of the result is set. *)
Theorem half_blend_average (fg bg c : Z) :
  32768 <= fg < 65536 -> 0 <= bg < 65536 -> 0 <= c <= 2 ->
  channel c (blend HalfBackgroundPlusHalfForeground fg bg)
  = (channel c fg + channel c bg) / 2
  /\ 32768 <= blend HalfBackgroundPlusHalfForeground fg bg < 65536.
Proof.
  intros Hfg Hbg Hc.
  destruct (word_unpack fg ltac:(lia)) as (Ef & Hfr & Hfg1 & Hfb & Hfm).
  destruct (word_unpack bg Hbg) as (Eb & Hbr & Hbg1 & Hbb & Hbm).
  assert (Hm : fg / 32768 = 1) by (Z.div_mod_to_equations; lia).
  rewrite Hm in Ef.
  rewrite Ef at 1 3 4. rewrite Eb at 1 3 4.
  rewrite blend_half_pack by assumption.
  assert (Hh : forall f b, 0 <= f < 32 -> 0 <= b < 32 -> 0 <= (f + b) / 2 < 32)
    by (intros; split; [apply Z.div_pos | apply Z.div_lt_upper_bound]; lia).
  pose proof (Hh _ _ Hfr Hbr). pose proof (Hh _ _ Hfg1 Hbg1). pose proof (Hh _ _ Hfb Hbb).
  pose proof (channel_pack ((channel 0 fg + channel 0 bg) / 2)
                ((channel 1 fg + channel 1 bg) / 2)
                ((channel 2 fg + channel 2 bg) / 2) 1) as (A0 & A1 & A2); try lia.
  split; [| unfold pack; lia].
  assert (c = 0 \/ c = 1 \/ c = 2) as [-> | [-> | ->]] by lia; assumption.
Qed.

Lemma half_blend_average_witness :
  channel 2 (blend HalfBackgroundPlusHalfForeground 0xFC00 0x0C00) = (31 + 3) / 2
  /\ 32768 <= blend HalfBackgroundPlusHalfForeground 0xFC00 0x0C00 < 65536.
Proof.
  apply (half_blend_average 0xFC00 0x0C00 2); lia.
Defined.

(** X12. Quarter blend: for 16-bit foreground and background words each
    channel of the result is [min(31, fg_channel / 4 + bg_channel)]. *)
Theorem quarter_blend_saturation (fg bg c : Z) :
  0 <= fg < 65536 -> 0 <= bg < 65536 -> 0 <= c <= 2 ->
  channel c (blend BackgroundPlusQuarterForeground fg bg)
  = Z.min 31 (channel c fg / 4 + channel c bg).
Proof.
  intros Hfg Hbg Hc.
  destruct (word_unpack fg Hfg) as (Ef & Hfr & Hfg1 & Hfb & Hfm).
  destruct (word_unpack bg Hbg) as (Eb & Hbr & Hbg1 & Hbb & Hbm).
  rewrite Ef at 1. rewrite Eb at 1.
  rewrite blend_quarter_pack by assumption.
  pose proof (channel_pack (Z.min 31 (channel 0 fg / 4 + channel 0 bg))
                (Z.min 31 (channel 1 fg / 4 + channel 1 bg))
                (Z.min 31 (channel 2 fg / 4 + channel 2 bg)) 1) as (A0 & A1 & A2);
    try (pose proof (Z.div_pos (channel 0 fg) 4); pose proof (Z.div_pos (channel 1 fg) 4);
         pose proof (Z.div_pos (channel 2 fg) 4); lia).
  assert (c = 0 \/ c = 1 \/ c = 2) as [-> | [-> | ->]] by lia; assumption.
Qed.

Lemma quarter_blend_saturation_witness :
  channel 0 (blend BackgroundPlusQuarterForeground 0x001F 0x001E) = Z.min 31 (31 / 4 + 30).
Proof.
  apply (quarter_blend_saturation 0x001F 0x001E 0); lia.
Defined.

Lemma blend_channel_range (mode : GPUTransparencyMode) (f b : Z) :
  0 <= f < 32 -> 0 <= b < 32 -> 0 <= blend_channel mode f b < 32.
Proof.
  intros Hf Hb. destruct mode; cbn [blend_channel]; try lia.
  - split; [apply Z.div_pos | apply Z.div_lt_upper_bound]; lia.
  - assert (0 <= f / 4 < 32)
      by (split; [apply Z.div_pos | apply Z.div_lt_upper_bound]; lia).
    lia.
Qed.

Lemma blend_pack (mode : GPUTransparencyMode) (fr fg fb br bg bb bm : Z) :
  0 <= fr < 32 -> 0 <= fg < 32 -> 0 <= fb < 32 ->
  0 <= br < 32 -> 0 <= bg < 32 -> 0 <= bb < 32 -> 0 <= bm <= 1 ->
  blend mode (pack fr fg fb 1) (pack br bg bb bm)
  = pack (blend_channel mode fr br) (blend_channel mode fg bg) (blend_channel mode fb bb) 1.
Proof.
  intros. destruct mode; cbn [blend_channel].
  - now apply blend_half_pack.
  - apply blend_add_pack; assumption || lia.
  - apply blend_sub_pack; assumption || lia.
  - apply blend_quarter_pack; assumption || lia.
Qed.

Lemma land_31 (x : Z) : 0 <= x < 32 -> Z.land x 31 = x.
Proof.
  intros Hx. change 31 with (Z.ones 5). rewrite Z.land_ones by lia.
  apply Z.mod_small. exact Hx.
Qed.

(** The untextured foreground word from three 5-bit table values. *)
Lemma untextured_color_pack (lr lg lb : Z) (transparency_enable : bool) :
  0 <= lr < 32 -> 0 <= lg < 32 -> 0 <= lb < 32 ->
  Truncate16
    (Z.lor (Z.lor (Z.lor (Z.shiftl lr 0) (Z.shiftl lg 5)) (Z.shiftl lb 10))
       (if transparency_enable then 0x8000 else 0))
  = pack lr lg lb (if transparency_enable then 1 else 0).
Proof.
  intros Hr Hg Hb.
  rewrite Z.shiftl_0_r, !Z.shiftl_mul_pow2 by lia.
  replace lr with (pack lr 0 0 0) at 1 by (unfold pack; lia).
  replace (lg * 2 ^ 5) with (pack 0 lg 0 0) by (unfold pack; lia).
  replace (lb * 2 ^ 10) with (pack 0 0 lb 0) by (unfold pack; lia).
  replace (if transparency_enable then 0x8000 else 0)
    with (pack 0 0 0 (if transparency_enable then 1 else 0))
    by (destruct transparency_enable; reflexivity).
  do 3 (rewrite lor_pack by lia; rewrite ?Z.lor_0_r, ?Z.lor_0_l).
  unfold Truncate16. apply Z.mod_small.
  unfold pack. destruct transparency_enable; lia.
Qed.

Lemma clear_bit15_pack (r g b : Z) :
  0 <= r < 32 -> 0 <= g < 32 -> 0 <= b < 32 ->
  Truncate16 (Z.land (pack r g b 1) 0xFFFF7FFF) = pack r g b 0.
Proof.
  intros Hr Hg Hb.
  change 0xFFFF7FFF with (pack 31 31 31 131070).
  rewrite land_pack, !land_31 by lia. change (Z.land 1 131070) with 0.
  unfold Truncate16. apply Z.mod_small. unfold pack. lia.
Qed.

(** X13. Untextured pixel: when the dither table yields 5-bit values, the
    background word is 16-bit and passes the mask test, an untextured shader
    invocation stores, OR-ed with [MaskOR], the word whose channels are the
    table values (opaque) or their blend with the background's channels in
    the command's mode (semi-transparent: average, saturating add,
    saturating subtract, add of a quarter), and whose bit 15 is clear. *)
Theorem untextured_pixel (g_dither_lut : DitherLUT)
    (raw_texture_enable transparency_enable dithering_enable : bool)
    (cmd : GPUBackendDrawCommand) (x y r g b u v : Z) (vram : VRAM) :
  let dither_y := if dithering_enable then Z.land y 3 else 2 in
  let dither_x := if dithering_enable then Z.land x 3 else 3 in
  let lr := g_dither_lut dither_y dither_x r in
  let lg := g_dither_lut dither_y dither_x g in
  let lb := g_dither_lut dither_y dither_x b in
  let bg := GetPixel vram x y in
  let mix f k :=
    if transparency_enable then blend_channel (transparency_mode cmd) f (channel k bg)
    else f in
  0 <= lr < 32 -> 0 <= lg < 32 -> 0 <= lb < 32 ->
  0 <= bg < 65536 ->
  Z.land bg (MaskAND cmd) = 0 ->
  GetPixel (ShadePixel g_dither_lut false raw_texture_enable transparency_enable
              dithering_enable cmd x y r g b u v vram) x y
  = Truncate16 (Z.lor (pack (mix lr 0) (mix lg 1) (mix lb 2) 0) (MaskOR cmd)).
Proof.
  intros dither_y dither_x lr lg lb bg mix Hr Hg Hb Hbg Hmask.
  unfold ShadePixel, shade_color.
  fold dither_y dither_x. fold lr lg lb. fold bg.
  rewrite untextured_color_pack by assumption.
  rewrite Hmask. cbn [Z.eqb negb].
  unfold GetPixel, SetPixel. rewrite Z.eqb_refl. f_equal. f_equal.
  unfold apply_transparency, mix. destruct transparency_enable; [| reflexivity].
  cbn [negb orb]. rewrite orb_true_r.
  destruct (word_unpack bg Hbg) as (Eb & Hb0 & Hb1 & Hb2 & Hbm).
  rewrite Eb at 1.
  rewrite blend_pack by assumption.
  apply clear_bit15_pack; apply blend_channel_range; assumption.
Qed.

Lemma untextured_pixel_witness :
  GetPixel (ShadePixel plain_lut false false true false plain_cmd 50 50 255 255 255 0 0
              white_vram) 50 50
  = 0x7FFF.
Proof.
  apply (untextured_pixel plain_lut false true false plain_cmd 50 50 255 255 255 0 0
           white_vram);
    vm_compute; try reflexivity; split; discriminate || reflexivity.
Defined.

(** ** What a draw stores *)

Lemma stored_word_mask (color mask_or : Z) :
  0 <= mask_or < 65536 ->
  0 <= Truncate16 (Z.lor color mask_or) < 65536
  /\ Z.land (Truncate16 (Z.lor color mask_or)) mask_or = mask_or.
Proof.
  intros Hm. unfold Truncate16. split; [apply Z.mod_pos_bound; lia |].
  rewrite <- Z.land_ones by lia.
  apply Z.bits_inj'. intros n Hn.
  rewrite !Z.land_spec, Z.lor_spec.
  destruct (Z.testbit mask_or n) eqn:Hbit; [| now rewrite andb_false_r].
  rewrite orb_true_r, andb_true_r. cbn [andb].
  destruct (Z.ltb_spec n 16) as [Hlt | Hge].
  - apply Z.ones_spec_low. lia.
  - rewrite (small_high_bits 16 mask_or n) in Hbit by lia. discriminate.
Qed.

Section Stored.

Variable g_dither_lut : DitherLUT.
Variables texture_enable raw_texture_enable transparency_enable dithering_enable : bool.
Variable cmd : GPUBackendDrawCommand.
Hypothesis HMaskOR : 0 <= MaskOR cmd < 65536.

Lemma ShadePixel_kept_or_stored (x y r g b u v : Z) (vram : VRAM) (i : Z) :
  kept_or_stored cmd (vram i)
    (ShadePixel g_dither_lut texture_enable raw_texture_enable transparency_enable
       dithering_enable cmd x y r g b u v vram i).
Proof.
  unfold ShadePixel, kept_or_stored.
  destruct (shade_color _ _ _ _ _ _ _ _ _ _ _ _ _ _); [| now left].
  destruct (negb _); [now left |].
  unfold SetPixel. destruct (i =? pixel_index x y); [right | now left].
  now apply stored_word_mask.
Qed.

Lemma run_calls_kept_or_stored (calls : list PixelCall) (vram : VRAM) (i : Z) :
  kept_or_stored cmd (vram i)
    (run_calls g_dither_lut texture_enable raw_texture_enable transparency_enable
       dithering_enable cmd calls vram i).
Proof.
  revert vram. induction calls as [| c calls IH]; intros vram; [now left |].
  unfold run_calls in *. cbn [fold_left].
  match goal with |- kept_or_stored _ _ (fold_left _ _ ?v i) =>
    destruct (IH v) as [E | Hs];
      [rewrite E; apply ShadePixel_kept_or_stored | right; exact Hs]
  end.
Qed.

End Stored.

(** X14. Stored words: after a draw command every VRAM word is either as it
    was or a 16-bit word with every [MaskOR] bit set; so VRAM that held
    16-bit words still does. *)
Theorem draw_stores_mask_bits (g_dither_lut : DitherLUT) (g_drawing_area : DrawingArea)
    (c : DrawCommand) (vram : VRAM) :
  0 <= MaskOR (command_base c) < 65536 ->
  (forall i, kept_or_stored (command_base c) (vram i)
               (Draw g_dither_lut g_drawing_area c vram i))
  /\ ((forall i, 0 <= vram i < 65536) ->
      forall i, 0 <= Draw g_dither_lut g_drawing_area c vram i < 65536).
Proof.
  intros Hm.
  assert (Hk : forall i, kept_or_stored (command_base c) (vram i)
                           (Draw g_dither_lut g_drawing_area c vram i)).
  { intros i. destruct c; cbn [Draw command_base] in *.
    - destruct (GetDrawRectangleFunction _ _ _). now apply run_calls_kept_or_stored.
    - destruct (GetDrawTriangleFunction _ _ _ _ _). now apply run_calls_kept_or_stored.
    - destruct (GetDrawLineFunction _ _ _). now apply run_calls_kept_or_stored. }
  split; [exact Hk |].
  intros Hv i. destruct (Hk i) as [-> | [Hr _]]; [apply Hv | exact Hr].
Qed.

Lemma draw_stores_mask_bits_witness :
  (forall i, kept_or_stored plain_cmd (blank_vram i)
               (Draw plain_lut full_area small_triangle blank_vram i))
  /\ ((forall i, 0 <= blank_vram i < 65536) ->
      forall i, 0 <= Draw plain_lut full_area small_triangle blank_vram i < 65536).
Proof.
  apply (draw_stores_mask_bits plain_lut full_area small_triangle blank_vram).
  vm_compute. split; discriminate || reflexivity.
Defined.

(** ** Dispatch *)

(** X15. Dispatch keeps behaviour: calling through the function tables
    draws what the instantiation named by the flags draws, for every
    rectangle, every line, and every triangle whose flags do not ask for a
    raw texture without a texture: the entries the tables share differ only
    in flags the shader does not read. *)
Theorem dispatch_preserves_behaviour (g_dither_lut : DitherLUT)
    (g_drawing_area : DrawingArea) (vram : VRAM) :
  (forall texture raw_texture transparent cmd,
      Draw g_dither_lut g_drawing_area
        (RectangleCommand texture raw_texture transparent cmd) vram
      = DrawRectangle g_dither_lut g_drawing_area texture raw_texture transparent cmd vram)
  /\ (forall shading transparent dithering cmd p0 p1,
         Draw g_dither_lut g_drawing_area
           (LineCommand shading transparent dithering cmd p0 p1) vram
         = DrawLine g_dither_lut g_drawing_area shading transparent dithering cmd p0 p1 vram)
  /\ (forall shading texture raw_texture transparent dithering cmd v0 v1 v2,
         texture = true \/ raw_texture = false ->
         Draw g_dither_lut g_drawing_area
           (TriangleCommand shading texture raw_texture transparent dithering cmd v0 v1 v2)
           vram
         = DrawTriangle g_dither_lut g_drawing_area shading texture raw_texture transparent
             dithering cmd v0 v1 v2 vram).
Proof.
  split; [| split].
  - intros [] [] [] cmd; reflexivity.
  - intros [] [] [] cmd p0 p1; reflexivity.
  - intros [] [] [] [] [] cmd v0 v1 v2 [E | E]; try discriminate E; reflexivity.
Qed.

(** Where the flags ask for a raw texture without a texture the table
    entry drops the dithering the named instantiation would apply. *)
Example dispatch_untextured_raw_entry :
  GetDrawTriangleFunction true false true false true
  = DrawTriangle_ true false false false false.
Proof. reflexivity. Qed.

(** ** Edge coordinates *)

(** X16. Edge coordinate round trip: the integer part of the fixed-point
    edge coordinate made from a 32-bit [x] is [x]. *)
Theorem MakePolyXFP_Int (x : Z) :
  - 2 ^ 31 <= x < 2 ^ 31 -> GetPolyXFP_Int (MakePolyXFP x) = x.
Proof.
  intros Hx. unfold GetPolyXFP_Int, MakePolyXFP.
  assert (E : s64 (u64 (u64 (Z.shiftl (u64 x) 32) + (2 ^ 32 - 2 ^ 11)))
              = x * 2 ^ 32 + (2 ^ 32 - 2 ^ 11)).
  { unfold s64, u64. rewrite Z.shiftl_mul_pow2 by lia.
    Z.div_mod_to_equations. lia. }
  rewrite E.
  assert (E' : s64 (x * 2 ^ 32 + (2 ^ 32 - 2 ^ 11)) = x * 2 ^ 32 + (2 ^ 32 - 2 ^ 11))
    by (unfold s64; rewrite Z.mod_small; lia).
  rewrite E'. rewrite Z.shiftr_div_pow2 by lia.
  replace ((x * 2 ^ 32 + (2 ^ 32 - 2 ^ 11)) / 2 ^ 32) with x
    by (apply Z.div_unique with (2 ^ 32 - 2 ^ 11); lia).
  unfold s32. rewrite Z.mod_small; lia.
Qed.

Lemma MakePolyXFP_Int_witness : GetPolyXFP_Int (MakePolyXFP (- 1024)) = - 1024.
Proof. apply (MakePolyXFP_Int (- 1024)). lia. Defined.

(** ** Attribute interpolation along a span *)

Lemma stepped_stepped (flag : bool) (a d k1 k2 : Z) :
  stepped flag (stepped flag a d k1) d k2 = stepped flag a d (k1 + k2).
Proof.
  unfold stepped, u32. destruct flag; [| reflexivity].
  rewrite Z.add_mod_idemp_l by lia. f_equal. lia.
Qed.

Lemma stepped_u32 (flag : bool) (a d k : Z) :
  stepped flag a d (u32 k) = stepped flag a d k.
Proof.
  unfold stepped, u32. destruct flag; [| reflexivity].
  rewrite <- Z.add_mod_idemp_r, Z.mul_mod_idemp_r, Z.add_mod_idemp_r by lia.
  reflexivity.
Qed.

Lemma stepped_congr (flag : bool) (a d k k' : Z) :
  u32 k = u32 k' -> stepped flag a d k = stepped flag a d k'.
Proof. intros E. now rewrite <- (stepped_u32 _ _ _ k), E, stepped_u32. Qed.

Lemma AddIDeltas_DX_stepped (sh tx : bool) (ig : i_group) (idl : i_deltas) (k : Z) :
  AddIDeltas_DX sh tx ig idl k
  = {| ig_u := stepped tx (ig_u ig) (du_dx idl) k;
       ig_v := stepped tx (ig_v ig) (dv_dx idl) k;
       ig_r := stepped sh (ig_r ig) (dr_dx idl) k;
       ig_g := stepped sh (ig_g ig) (dg_dx idl) k;
       ig_b := stepped sh (ig_b ig) (db_dx idl) k |}.
Proof. unfold AddIDeltas_DX. now rewrite <- !(stepped_u32 _ _ _ k). Qed.

Lemma AddIDeltas_DY_stepped (sh tx : bool) (ig : i_group) (idl : i_deltas) (k : Z) :
  AddIDeltas_DY sh tx ig idl k
  = {| ig_u := stepped tx (ig_u ig) (du_dy idl) k;
       ig_v := stepped tx (ig_v ig) (dv_dy idl) k;
       ig_r := stepped sh (ig_r ig) (dr_dy idl) k;
       ig_g := stepped sh (ig_g ig) (dg_dy idl) k;
       ig_b := stepped sh (ig_b ig) (db_dy idl) k |}.
Proof. unfold AddIDeltas_DY. now rewrite <- !(stepped_u32 _ _ _ k). Qed.

Lemma stepped_zero (flag : bool) (a d : Z) :
  stepped flag a 0 0 = a -> stepped flag a d 0 = a.
Proof.
  intros H. unfold stepped in *. destruct flag; [| reflexivity].
  rewrite Z.mul_0_r. exact H.
Qed.

Lemma stepped_normal (flag : bool) (a d k : Z) :
  stepped flag (stepped flag a d k) 0 0 = stepped flag a d k.
Proof.
  unfold stepped, u32. destruct flag; [| reflexivity].
  change (0 * 0) with 0. rewrite Z.add_0_r. apply Z.mod_mod. lia.
Qed.

Lemma span_loop_attrs (sh tx : bool) (y : Z) (idl : i_deltas)
    (w : nat) (x : Z) (ig : i_group) (c : PixelCall) :
  normal sh tx ig ->
  In c (span_loop sh tx y idl w x ig) ->
  pc_r c = attr (stepped sh (ig_r ig) (dr_dx idl) (pc_x c - x))
  /\ pc_g c = attr (stepped sh (ig_g ig) (dg_dx idl) (pc_x c - x))
  /\ pc_b c = attr (stepped sh (ig_b ig) (db_dx idl) (pc_x c - x))
  /\ pc_u c = attr (stepped tx (ig_u ig) (du_dx idl) (pc_x c - x))
  /\ pc_v c = attr (stepped tx (ig_v ig) (dv_dx idl) (pc_x c - x)).
Proof.
  revert x ig. induction w as [| w IH]; intros x ig Hn Hin; [contradiction |].
  cbn [span_loop] in Hin. destruct Hin as [<- | Hin].
  - cbn [pc_x pc_r pc_g pc_b pc_u pc_v]. rewrite Z.sub_diag.
    destruct Hn as (Hu & Hv & Hr & Hg & Hb).
    rewrite !stepped_zero by assumption. unfold attr. repeat split.
  - rewrite AddIDeltas_DX_stepped in Hin. apply IH in Hin.
    + cbn [ig_u ig_v ig_r ig_g ig_b] in Hin. rewrite !stepped_stepped in Hin.
      assert (E : forall flag a d,
                 stepped flag a d (1 + (pc_x c - s32 (x + 1)))
                 = stepped flag a d (pc_x c - x)).
      { intros flag a d. apply stepped_congr.
        apply (u32_congr _ _ ((x + 1 + 2 ^ 31) / 2 ^ 32)). rewrite (s32_wrap (x + 1)). lia. }
      rewrite !E in Hin. exact Hin.
    + unfold normal. cbn [ig_u ig_v ig_r ig_g ig_b].
      repeat split; apply stepped_normal.
Qed.

Lemma interpolated_stepped (flag : bool) (a d_dx d_dy x0 y x : Z) :
  attr (stepped flag (stepped flag (stepped flag a d_dx x0) d_dy y) d_dx (x - x0))
  = interpolated flag a d_dx d_dy x y.
Proof.
  unfold attr, interpolated, stepped, u32. destruct flag; [| reflexivity].
  rewrite (Z.add_mod_idemp_l (a + d_dx * x0)) by lia.
  rewrite Z.add_mod_idemp_l by lia. do 3 f_equal. ring.
Qed.

(** X17. Span interpolation: in a span that starts at an [x] in the 11-bit
    range, the colour and texture coordinates handed to the shader at a
    pixel are the affine function of that pixel's [(x, y)] given by the
    accumulators and the deltas, modulo [2^32], whatever part of the span
    the drawing area clips away; with shading (or texture) off they are the
    accumulators' constant values. *)
Theorem span_interpolation (g_drawing_area : DrawingArea)
    (shading_enable texture_enable : bool) (cmd : GPUBackendDrawCommand)
    (y x_start x_bound : Z) (ig : i_group) (idl : i_deltas) :
  - 1024 <= x_start <= 1023 ->
  Forall
    (fun c =>
       pc_r c = interpolated shading_enable (ig_r ig) (dr_dx idl) (dr_dy idl) (pc_x c) y
       /\ pc_g c = interpolated shading_enable (ig_g ig) (dg_dx idl) (dg_dy idl) (pc_x c) y
       /\ pc_b c = interpolated shading_enable (ig_b ig) (db_dx idl) (db_dy idl) (pc_x c) y
       /\ pc_u c = interpolated texture_enable (ig_u ig) (du_dx idl) (du_dy idl) (pc_x c) y
       /\ pc_v c = interpolated texture_enable (ig_v ig) (dv_dx idl) (dv_dy idl) (pc_x c) y)
    (DrawSpan_calls g_drawing_area shading_enable texture_enable cmd y x_start x_bound
       ig idl).
Proof.
  intros Hx. apply Forall_forall. intros c Hin.
  assert (Hgen : forall x0 w,
             In c (span_loop shading_enable texture_enable y idl w x0
                     (AddIDeltas_DY shading_enable texture_enable
                        (AddIDeltas_DX shading_enable texture_enable ig idl x0) idl y)) ->
             pc_r c = interpolated shading_enable (ig_r ig) (dr_dx idl) (dr_dy idl) (pc_x c) y
             /\ pc_g c = interpolated shading_enable (ig_g ig) (dg_dx idl) (dg_dy idl) (pc_x c) y
             /\ pc_b c = interpolated shading_enable (ig_b ig) (db_dx idl) (db_dy idl) (pc_x c) y
             /\ pc_u c = interpolated texture_enable (ig_u ig) (du_dx idl) (du_dy idl) (pc_x c) y
             /\ pc_v c = interpolated texture_enable (ig_v ig) (dv_dx idl) (dv_dy idl) (pc_x c) y).
  { intros x0 w Hc. rewrite AddIDeltas_DX_stepped, AddIDeltas_DY_stepped in Hc.
    apply span_loop_attrs in Hc.
    - cbn [ig_u ig_v ig_r ig_g ig_b] in Hc.
      now rewrite !interpolated_stepped in Hc.
    - unfold normal. cbn [ig_u ig_v ig_r ig_g ig_b]. repeat split; apply stepped_normal. }
  destruct (DrawSpan_calls_loop g_drawing_area shading_enable texture_enable cmd y
              x_start x_bound ig idl) as [E | (x & w & k & _ & _ & _ & Hk & E)];
    rewrite E in Hin; [contradiction |].
  rewrite (TruncateGPUVertexPosition_small x_start) in Hk by exact Hx.
  replace (x_start + (x - x_start)) with x in Hk by lia.
  rewrite (AddIDeltas_DX_congr _ _ _ _ _ _ Hk) in Hin.
  eapply Hgen; exact Hin.
Qed.

Lemma span_interpolation_witness :
  Forall
    (fun c =>
       pc_r c = interpolated true (ig_r span_ig) (dr_dx span_idl) (dr_dy span_idl) (pc_x c) 0
       /\ pc_g c = interpolated true (ig_g span_ig) (dg_dx span_idl) (dg_dy span_idl) (pc_x c) 0
       /\ pc_b c = interpolated true (ig_b span_ig) (db_dx span_idl) (db_dy span_idl) (pc_x c) 0
       /\ pc_u c = interpolated false (ig_u span_ig) (du_dx span_idl) (du_dy span_idl) (pc_x c) 0
       /\ pc_v c = interpolated false (ig_v span_ig) (dv_dx span_idl) (dv_dy span_idl) (pc_x c) 0)
    (DrawSpan_calls full_area true false plain_cmd 0 (- 2) 3 span_ig span_idl).
Proof.
  apply (span_interpolation full_area true false plain_cmd 0 (- 2) 3 span_ig span_idl).
  lia.
Defined.

(** The span of the witness, clipped at the left edge of the drawing area:
    the red at [x] is [200 - x], as if the span had started at [x = -2]. *)
Example span_clipped_colours :
  map (fun c => (pc_x c, pc_r c))
    (DrawSpan_calls full_area true false plain_cmd 0 (- 2) 3 span_ig span_idl)
  = [(0, 200); (1, 199); (2, 198)].
Proof. vm_compute. reflexivity. Qed.

(** ** Texture sampling *)

(** X18. Texture reads stay inside VRAM: the sampled texel depends on VRAM
    only through words of the 1024 x 512 array; for the palette modes this
    needs the palette's row to be one ([0 <= y < 512]). *)
Theorem texture_reads_inside_vram (cmd : GPUBackendDrawCommand) (vram vram' : VRAM)
    (texcoord_x texcoord_y : Z) :
  (texture_mode cmd = Direct16Bit \/ 0 <= PaletteYBase cmd < VRAM_HEIGHT) ->
  (forall x y, 0 <= x < VRAM_WIDTH -> 0 <= y < VRAM_HEIGHT ->
               GetPixel vram x y = GetPixel vram' x y) ->
  texture_color cmd vram texcoord_x texcoord_y
  = texture_color cmd vram' texcoord_x texcoord_y.
Proof.
  intros Hpal Hsame. unfold texture_color.
  assert (Hw : forall z, 0 <= z mod VRAM_WIDTH < VRAM_WIDTH)
    by (intros; apply Z.mod_pos_bound; reflexivity).
  assert (Hh : forall z, 0 <= z mod VRAM_HEIGHT < VRAM_HEIGHT)
    by (intros; apply Z.mod_pos_bound; reflexivity).
  destruct (texture_mode cmd).
  - destruct Hpal as [E | Hpal]; [discriminate |].
    rewrite (Hsame _ _ (Hw _) (Hh _)). now apply Hsame.
  - destruct Hpal as [E | Hpal]; [discriminate |].
    rewrite (Hsame _ _ (Hw _) (Hh _)). now apply Hsame.
  - now apply Hsame.
Qed.

Lemma texture_reads_inside_vram_witness :
  texture_color palette_cmd palette_vram 1 0 = texture_color palette_cmd palette_vram' 1 0.
Proof.
  apply (texture_reads_inside_vram palette_cmd palette_vram palette_vram' 1 0).
  - right. vm_compute. split; [discriminate | reflexivity].
  - intros x y Hx Hy. unfold GetPixel, palette_vram'.
    destruct (Z.eqb_spec (pixel_index x y) (1024 * 512 + 7)) as [E | _]; [| reflexivity].
    unfold pixel_index, u32, VRAM_WIDTH, VRAM_HEIGHT in *.
    rewrite Z.mod_small in E by lia. lia.
Defined.

(** The palette lookup of the witness: nibble 1 of the texture word selects
    palette entry 1. *)
Example palette_lookup :
  texture_color palette_cmd palette_vram 1 0 = 0x7FFF
  /\ texture_color palette_cmd palette_vram 0 0 = 0.
Proof. split; vm_compute; reflexivity. Qed.

(** ** Work bound of a line *)

Lemma line_loop_length (g_drawing_area : DrawingArea) (shading_enable : bool)
    (cmd : GPUBackendDrawCommand) (p0 : LineVertex) (step : line_fxp_step)
    (n : nat) (cur_point : line_fxp_coord) :
  (length (line_loop g_drawing_area shading_enable cmd p0 step n cur_point) <= n)%nat.
Proof.
  revert cur_point. induction n as [| n IH]; intros cur_point; [apply Nat.le_refl |].
  cbn [line_loop]. rewrite length_app.
  match goal with |- context [line_loop _ _ _ _ _ n ?cp] => specialize (IH cp) end.
  destruct (_ && _ && _ && _ && _); cbn [length]; lia.
Qed.

(** X19. Line length: a line whose width [|dx|] and height [|dy|] are less
    than [2^31], so that the code's [s32] differences do not overflow, shades
    at most [max(|dx|, |dy|) + 1] pixels, and none when [|dx| >= 1024] or
    [|dy| >= 512]. *)
Theorem line_pixel_count (g_drawing_area : DrawingArea) (shading_enable : bool)
    (cmd : GPUBackendDrawCommand) (p0 p1 : LineVertex) :
  line_extents_s32 p0 p1 ->
  Z.of_nat (length (DrawLine_calls g_drawing_area shading_enable cmd p0 p1))
  <= Z.max (Z.abs (lx p1 - lx p0)) (Z.abs (ly p1 - ly p0)) + 1
  /\ (Z.abs (lx p1 - lx p0) >= MAX_PRIMITIVE_WIDTH
      \/ Z.abs (ly p1 - ly p0) >= MAX_PRIMITIVE_HEIGHT ->
      DrawLine_calls g_drawing_area shading_enable cmd p0 p1 = []).
Proof.
  intros [Hx Hy]. unfold DrawLine_calls. exact_differences.
  destruct (Z.geb_spec (Z.abs (lx p1 - lx p0)) MAX_PRIMITIVE_WIDTH);
    destruct (Z.geb_spec (Z.abs (ly p1 - ly p0)) MAX_PRIMITIVE_HEIGHT);
    cbn [orb]; try (split; [cbn [length]; lia | reflexivity]).
  split; [| lia].
  destruct (line_endpoints _ _ _).
  match goal with |- context [line_loop ?a ?b ?c ?d ?e ?n ?cp] =>
    pose proof (line_loop_length a b c d e n cp) as Hlen
  end.
  destruct (Z.gtb_spec (Z.abs (lx p1 - lx p0)) (Z.abs (ly p1 - ly p0))); lia.
Qed.

Lemma line_pixel_count_witness :
  Z.of_nat (length (DrawLine_calls full_area true plain_cmd line_a line_b)) <= 7 + 1
  /\ (Z.abs (9 - 2) >= MAX_PRIMITIVE_WIDTH \/ Z.abs (6 - 3) >= MAX_PRIMITIVE_HEIGHT ->
      DrawLine_calls full_area true plain_cmd line_a line_b = []).
Proof.
  apply (line_pixel_count full_area true plain_cmd line_a line_b).
  unfold line_extents_s32. cbn. lia.
Defined.

(** Where a difference overflows the hypothesis is needed: these endpoints
    are [2^32 - 2] columns apart, and the line is drawn as one 2 columns
    wide, right to left from column 1. *)
Example line_overflow_pixels :
  map position
    (DrawLine_calls full_area false plain_cmd
       (mkLineVertex 2147483647 5 1 2 3) (mkLineVertex (- 2147483647) 5 4 5 6))
  = [(1, 5); (0, 5)].
Proof. vm_compute. reflexivity. Qed.

(** * Spans, triangles and lines pixel by pixel *)

(** ** The footprint of a span *)
Lemma DrawSpan_calls_positions (g_drawing_area : DrawingArea) (sh tx : bool)
    (cmd : GPUBackendDrawCommand) (y x_start x_bound : Z) (ig : i_group) (idl : i_deltas) :
  area_bounded g_drawing_area ->
  - 2 ^ 29 <= s32 (x_bound - x_start) <= 2 ^ 29 ->
  let x := TruncateGPUVertexPosition x_start in
  let lo := Z.max x (area_left g_drawing_area) in
  let hi := Z.min (x + s32 (x_bound - x_start)) (area_right g_drawing_area + 1) in
  map position (DrawSpan_calls g_drawing_area sh tx cmd y x_start x_bound ig idl)
  = if interlace_skip cmd y then []
    else map (fun i => (lo + i, y)) (zrange (hi - lo)).
Proof.
  intros Ha Hw x lo hi. rewrite DrawSpan_calls_clip by assumption. fold x lo hi.
  destruct (interlace_skip cmd y); [reflexivity |].
  pose proof (TruncateGPUVertexPosition_range x_start) as Ht. fold x in Ht.
  destruct Ha as [Hl Hr].
  destruct (Z.leb_spec (hi - lo) 0) as [Hn | Hn].
  - now rewrite zrange_nil.
  - rewrite span_loop_columns, Z2Nat.id by (subst lo hi; lia). reflexivity.
Qed.

(** X20. Span footprint: with the left and right bounds of the drawing area
    at most [2^30] in magnitude and [x_bound - x_start] at most [2^29], so
    that no step of the clip overflows, on a row interlacing does not skip
    [DrawSpan] shades exactly the columns from [max(x, left)] up to, but
    excluding, [min(x + (x_bound - x_start), right + 1)], once each and left
    to right, where [x] is [x_start] truncated to 11 bits; on a skipped row,
    or when that range is empty, it shades nothing. *)
Theorem span_footprint (g_drawing_area : DrawingArea) (shading_enable texture_enable : bool)
    (cmd : GPUBackendDrawCommand) (y x_start x_bound : Z) (ig : i_group) (idl : i_deltas) :
  area_bounded g_drawing_area ->
  - 2 ^ 29 <= x_bound - x_start <= 2 ^ 29 ->
  let x := TruncateGPUVertexPosition x_start in
  let lo := Z.max x (area_left g_drawing_area) in
  let hi := Z.min (x + (x_bound - x_start)) (area_right g_drawing_area + 1) in
  map position
    (DrawSpan_calls g_drawing_area shading_enable texture_enable cmd y x_start x_bound
       ig idl)
  = if interlace_skip cmd y then []
    else map (fun i => (lo + i, y)) (zrange (hi - lo)).
Proof.
  intros Ha Hw.
  rewrite <- (s32_small (x_bound - x_start)) by lia.
  apply DrawSpan_calls_positions; [exact Ha |].
  rewrite s32_small; lia.
Qed.

Lemma span_footprint_witness :
  map position (DrawSpan_calls small_area true false plain_cmd 1 (- 2) 10 span_ig span_idl)
  = map (fun i => (0 + i, 1)) (zrange (4 - 0)).
Proof.
  apply (span_footprint small_area true false plain_cmd 1 (- 2) 10 span_ig span_idl).
  - unfold area_bounded. vm_compute. repeat split; discriminate.
  - lia.
Defined.

(** A span from column -2 to column 9 of row 1, clipped to columns 0 to 3. *)
Example span_footprint_clipped :
  map position (DrawSpan_calls small_area true false plain_cmd 1 (- 2) 10 span_ig span_idl)
  = [(0, 1); (1, 1); (2, 1); (3, 1)].
Proof. vm_compute. reflexivity. Qed.

(** Where the width overflows the hypothesis is needed: from
    [x_start = 2^31 - 3], which truncates to column -3, to
    [x_bound = -2^31 + 1] the width wraps to 4, and column 0 is shaded. *)
Example span_overflow_pixels :
  map position
    (DrawSpan_calls full_area true false plain_cmd 7 2147483645 (- 2147483647)
       span_ig span_idl)
  = [(0, 7)].
Proof. vm_compute. reflexivity. Qed.

(** ** No pixel of a triangle is shaded twice *)

Section Overdraw.

Variable g_drawing_area : DrawingArea.
Variables shading_enable texture_enable : bool.
Variable cmd : GPUBackendDrawCommand.

Lemma DrawSpan_calls_NoDup (y x_start x_bound : Z) (ig : i_group) (idl : i_deltas) :
  NoDup (map position
           (DrawSpan_calls g_drawing_area shading_enable texture_enable cmd y x_start
              x_bound ig idl)).
Proof.
  destruct (DrawSpan_calls_loop g_drawing_area shading_enable texture_enable cmd y
              x_start x_bound ig idl) as [E | (x & w & k & _ & Hx & Hw & _ & E)];
    rewrite E; [constructor |].
  rewrite span_loop_positions by exact Hx.
  apply NoDup_map_injective; [| apply NoDup_zrange].
  intros i j Hi Hj Eij. apply in_zrange in Hi, Hj. rewrite Z2Nat.id in Hi, Hj by lia.
  apply pair_equal_spec in Eij. destruct Eij as [Eij _].
  apply s32_inj in Eij; lia.
Qed.

Lemma dec_loop_NoDup (ig : i_group) (idl : i_deltas) (ls rs : Z) (n : nat) (yi lc rc : Z) :
  NoDup (map position
           (dec_loop g_drawing_area shading_enable texture_enable cmd ig idl ls rs n yi
              lc rc)).
Proof.
  revert yi lc rc. induction n as [| n IH]; intros yi lc rc; [constructor |].
  cbn [dec_loop]. destruct (_ <? _); [constructor |].
  rewrite map_app. apply NoDup_app.
  - destruct (_ >? _); [constructor | apply DrawSpan_calls_NoDup].
  - apply IH.
  - intros p H1 H2.
    apply In_position in H1. destruct H1 as (c1 & H1 & _ & Hy1).
    apply In_position in H2. destruct H2 as (c2 & H2 & _ & Hy2).
    destruct (_ >? _); [contradiction |].
    apply DrawSpan_calls_row in H1. apply dec_loop_rows in H2. lia.
Qed.

Lemma inc_loop_NoDup (ig : i_group) (idl : i_deltas) (ls rs : Z) (n : nat) (yi lc rc : Z) :
  NoDup (map position
           (inc_loop g_drawing_area shading_enable texture_enable cmd ig idl ls rs n yi
              lc rc)).
Proof.
  revert yi lc rc. induction n as [| n IH]; intros yi lc rc; [constructor |].
  cbn [inc_loop]. destruct (_ >? _); [constructor |].
  rewrite map_app. apply NoDup_app.
  - destruct (_ >=? _); [apply DrawSpan_calls_NoDup | constructor].
  - apply IH.
  - intros p H1 H2.
    apply In_position in H1. destruct H1 as (c1 & H1 & _ & Hy1).
    apply In_position in H2. destruct H2 as (c2 & H2 & _ & Hy2).
    destruct (_ >=? _); [| contradiction].
    apply DrawSpan_calls_row in H1. apply inc_loop_rows in H2. lia.
Qed.

Lemma half_calls_NoDup (ig : i_group) (idl : i_deltas) (tp : TriangleHalf) :
  NoDup (map position
           (half_calls g_drawing_area shading_enable texture_enable cmd ig idl tp)).
Proof.
  unfold half_calls. destruct (dec_mode tp); [apply dec_loop_NoDup | apply inc_loop_NoDup].
Qed.

End Overdraw.

(** A triangle's calls are at different positions. *)
Lemma DrawTriangle_calls_NoDup (g_drawing_area : DrawingArea)
    (shading_enable texture_enable : bool) (cmd : GPUBackendDrawCommand)
    (v0 v1 v2 : Vertex) :
  NoDup (map position
           (DrawTriangle_calls g_drawing_area shading_enable texture_enable cmd v0 v1 v2)).
Proof.
  unfold DrawTriangle_calls.
  pose proof (sort_vertices_min_max v0 v1 v2) as Hs.
  destruct (sort_vertices v0 v1 v2) as [[[a b] d] core_vertex].
  destruct Hs as (_ & _ & Hab).
  destruct (vy a =? vy d); [constructor |].
  destruct (_ || _ || _ || _); [constructor |].
  assert (Hhalves : forall ig idl tp tp',
             Z.max (y_coord tp) (y_bound tp) <= Z.min (y_coord tp') (y_bound tp')
             \/ Z.max (y_coord tp') (y_bound tp') <= Z.min (y_coord tp) (y_bound tp) ->
             NoDup (map position
                      (half_calls g_drawing_area shading_enable texture_enable cmd ig idl tp
                       ++ half_calls g_drawing_area shading_enable texture_enable cmd ig idl
                            tp'))).
  { intros ig idl tp tp' Hd. rewrite map_app.
    apply NoDup_app; try apply half_calls_NoDup.
    intros p H1 H2.
    apply In_position in H1. destruct H1 as (c1 & H1 & _ & Hy1).
    apply In_position in H2. destruct H2 as (c2 & H2 & _ & Hy2).
    apply half_calls_rows in H1. apply half_calls_rows in H2. lia. }
  destruct (vy b =? vy a); destruct (CalcIDeltas _ _ _ _ _); try constructor;
    destruct (core_vertex =? 0), (core_vertex =? 2); cbn [negb Z.eqb];
    apply Hhalves; cbn [y_coord y_bound vertex_at Z.lxor Z.eqb Pos.eqb Pos.lxor]; cbn; lia.
Qed.

(** Calls at different positions inside VRAM address different words. *)
Lemma NoDup_pixel_index (calls : list PixelCall) :
  Forall in_vram calls ->
  NoDup (map position calls) ->
  NoDup (map (fun c => pixel_index (pc_x c) (pc_y c)) calls).
Proof.
  intros Hin Hnd.
  rewrite <- (map_map position (fun p => pixel_index (fst p) (snd p))).
  apply NoDup_map_injective; [| exact Hnd].
  rewrite Forall_forall in Hin.
  intros p1 p2 H1 H2 E.
  apply in_map_iff in H1, H2.
  destruct H1 as (c1 & <- & H1). destruct H2 as (c2 & <- & H2).
  destruct (Hin c1 H1), (Hin c2 H2). unfold position in *. cbn [fst snd] in E.
  apply pixel_index_inj in E; try assumption. destruct E. congruence.
Qed.

(** Without texture, a list of calls at different positions inside VRAM
    leaves at each of them what its one call leaves there on the VRAM
    before the draw. *)
Lemma run_calls_single_pass (g_dither_lut : DitherLUT)
    (raw_texture_enable transparency_enable dithering_enable : bool)
    (cmd : GPUBackendDrawCommand) (calls : list PixelCall) (vram : VRAM) (c : PixelCall) :
  Forall in_vram calls ->
  NoDup (map position calls) ->
  In c calls ->
  GetPixel (run_calls g_dither_lut false raw_texture_enable transparency_enable
              dithering_enable cmd calls vram) (pc_x c) (pc_y c)
  = GetPixel (ShadePixel g_dither_lut false raw_texture_enable transparency_enable
                dithering_enable cmd (pc_x c) (pc_y c) (pc_r c) (pc_g c) (pc_b c)
                (pc_u c) (pc_v c) vram) (pc_x c) (pc_y c).
Proof.
  intros Hin Hnd Hc. unfold GetPixel.
  rewrite run_calls_untextured_at; [| now apply NoDup_pixel_index | exact Hc].
  rewrite Forall_forall in Hin. destruct (Hin c Hc) as [Hx Hy].
  unfold u32, VRAM_WIDTH, VRAM_HEIGHT in *. now rewrite !Z.mod_small by lia.
Qed.

Lemma area_in_vram_calls (g_drawing_area : DrawingArea) (calls : list PixelCall) :
  area_in_vram g_drawing_area ->
  Forall (fun c => in_drawing_area g_drawing_area (pc_x c) (pc_y c)) calls ->
  Forall in_vram calls.
Proof.
  intros (Hl & Hr & Ht & Hb) Hall. eapply Forall_impl; [| exact Hall].
  intros c [Hx Hy]. unfold in_vram. lia.
Qed.

(** X21. No overdraw in a triangle: no two shader calls of a triangle are at
    the same position; so, without texture, with the drawing area inside
    VRAM, its left and right bounds at most [2^30] in magnitude, and vertex
    positions in the 11-bit range, each shaded pixel holds after the draw
    what its one shader call leaves there on the VRAM before the draw:
    semi-transparent triangles blend each pixel with the background once. *)
Theorem triangle_no_overdraw (g_drawing_area : DrawingArea)
    (shading_enable texture_enable : bool) (cmd : GPUBackendDrawCommand)
    (v0 v1 v2 : Vertex) :
  NoDup (map position
           (DrawTriangle_calls g_drawing_area shading_enable texture_enable cmd v0 v1 v2))
  /\ (texture_enable = false -> area_bounded g_drawing_area ->
      area_in_vram g_drawing_area ->
      position_11bit v0 -> position_11bit v1 -> position_11bit v2 ->
      forall g_dither_lut raw_texture_enable transparency_enable dithering_enable vram c,
        In c (DrawTriangle_calls g_drawing_area shading_enable false cmd v0 v1 v2) ->
        GetPixel (DrawTriangle g_dither_lut g_drawing_area shading_enable false
                    raw_texture_enable transparency_enable dithering_enable cmd v0 v1 v2
                    vram) (pc_x c) (pc_y c)
        = GetPixel (ShadePixel g_dither_lut false raw_texture_enable transparency_enable
                      dithering_enable cmd (pc_x c) (pc_y c) (pc_r c) (pc_g c) (pc_b c)
                      (pc_u c) (pc_v c) vram) (pc_x c) (pc_y c)).
Proof.
  split; [apply DrawTriangle_calls_NoDup |].
  intros _ Hb Harea H0 H1 H2 g_dither_lut raw_texture_enable transparency_enable
    dithering_enable vram c Hc.
  unfold DrawTriangle. apply run_calls_single_pass; [| apply DrawTriangle_calls_NoDup | exact Hc].
  apply (area_in_vram_calls g_drawing_area); [exact Harea |].
  now apply DrawTriangle_calls_inside.
Qed.

Lemma triangle_no_overdraw_witness :
  NoDup (map position (DrawTriangle_calls full_area false false plain_cmd red_A red_B red_C))
  /\ GetPixel (DrawTriangle plain_lut full_area false false false true false plain_cmd
                 red_A red_B red_C white_vram) 1 1
     = GetPixel (ShadePixel plain_lut false false true false plain_cmd 1 1 255 0 0 0 0
                   white_vram) 1 1.
Proof.
  destruct (triangle_no_overdraw full_area false false plain_cmd red_A red_B red_C)
    as [Hnd Hone].
  split; [exact Hnd |].
  apply (Hone eq_refl) with
    (c := {| pc_x := 1; pc_y := 1; pc_r := 255; pc_g := 0; pc_b := 0; pc_u := 0; pc_v := 0 |});
    [ unfold area_bounded; vm_compute; repeat split; discriminate
    | unfold area_in_vram; vm_compute; repeat split; discriminate
    | unfold position_11bit; cbn; lia
    | unfold position_11bit; cbn; lia
    | unfold position_11bit; cbn; lia
    | vm_compute; repeat ((left; reflexivity) || right) ].
Defined.

(** ** The colours of a triangle *)

Lemma attr_origin (a : Z) : 0 <= a < 256 -> attr (attribute_origin a) = a.
Proof.
  intros Ha. unfold attr, attribute_origin, COORD_MF_INT, COORD_FBS, COORD_POST_PADDING,
    Truncate8, u32.
  rewrite !Z.shiftl_mul_pow2, Z.shiftr_div_pow2 by lia.
  change (12 - 1) with 11. change (12 + 12) with 24.
  Z.div_mod_to_equations. lia.
Qed.

Lemma stepped_constant (flag : bool) (a d k : Z) :
  flag = false \/ (d = 0 /\ u32 a = a) -> stepped flag a d k = a.
Proof.
  intros [-> | [-> E]]; [reflexivity |].
  unfold stepped. destruct flag; [| reflexivity].
  now rewrite Z.mul_0_l, Z.add_0_r.
Qed.

Lemma gradient_zero (fx fy : Vertex -> Z) (A B C : Vertex) (denom : Z) :
  CALCIS fx fy A B C = 0 -> gradient fx fy A B C denom = 0.
Proof.
  intros E. unfold gradient, gradient_quotient. rewrite E. reflexivity.
Qed.

Lemma attribute_origin_u32 (a : Z) : u32 (attribute_origin a) = attribute_origin a.
Proof. unfold attribute_origin, u32. apply Z.mod_mod. lia. Qed.

Section SpanAttributes.

Variable g_drawing_area : DrawingArea.
Variables shading_enable texture_enable : bool.
Variable cmd : GPUBackendDrawCommand.

(** What a span hands to the shader at a pixel, whatever its start: the
    accumulators stepped by the adjusted start, by the row, and by the
    pixel's offset from the first one drawn. *)
Lemma DrawSpan_calls_stepped (y x_start x_bound : Z) (ig : i_group) (idl : i_deltas)
    (c : PixelCall) :
  In c (DrawSpan_calls g_drawing_area shading_enable texture_enable cmd y x_start x_bound
          ig idl) ->
  exists k1 k2,
    (- 1024 <= x_start <= 1023 -> u32 (k1 + k2) = u32 (pc_x c))
    /\ let at_pixel flag a d_dx d_dy :=
         attr (stepped flag (stepped flag (stepped flag a d_dx k1) d_dy y) d_dx k2) in
       pc_r c = at_pixel shading_enable (ig_r ig) (dr_dx idl) (dr_dy idl)
       /\ pc_g c = at_pixel shading_enable (ig_g ig) (dg_dx idl) (dg_dy idl)
       /\ pc_b c = at_pixel shading_enable (ig_b ig) (db_dx idl) (db_dy idl)
       /\ pc_u c = at_pixel texture_enable (ig_u ig) (du_dx idl) (du_dy idl)
       /\ pc_v c = at_pixel texture_enable (ig_v ig) (dv_dx idl) (dv_dy idl).
Proof.
  intros Hin.
  destruct (DrawSpan_calls_loop g_drawing_area shading_enable texture_enable cmd y
              x_start x_bound ig idl) as [E | (x & w & k & _ & _ & _ & Hk & E)];
    rewrite E in Hin; [contradiction |].
  rewrite AddIDeltas_DX_stepped, AddIDeltas_DY_stepped in Hin.
  apply span_loop_attrs in Hin.
  - cbn [ig_u ig_v ig_r ig_g ig_b] in Hin.
    exists k, (pc_x c - x). split; [| exact Hin].
    intros Hs. rewrite (TruncateGPUVertexPosition_small x_start) in Hk by exact Hs.
    unfold u32 in *. rewrite <- Z.add_mod_idemp_l, Hk, Z.add_mod_idemp_l by lia.
    f_equal. lia.
  - unfold normal. cbn [ig_u ig_v ig_r ig_g ig_b]. repeat split; apply stepped_normal.
Qed.

End SpanAttributes.

(** [vertices[core_vertex]] is the vertex that the comparisons of [x] at the
    head of [DrawTriangle] select, carried through the swaps of the sort; it
    is a vertex of smallest [x]. *)
Lemma sort_vertices_core (v0 v1 v2 : Vertex) :
  let '(a, b, d, core_vertex) := sort_vertices v0 v1 v2 in
  vertex_at (a, b, d) core_vertex
  = (if vx v1 <=? vx v0 then (if vx v2 <=? vx v1 then v2 else v1)
     else if vx v2 <? vx v0 then v2 else v0)
  /\ vx (vertex_at (a, b, d) core_vertex) <= vx v0
  /\ vx (vertex_at (a, b, d) core_vertex) <= vx v1
  /\ vx (vertex_at (a, b, d) core_vertex) <= vx v2.
Proof.
  unfold sort_vertices.
  destruct (Z.leb_spec (vx v1) (vx v0));
    [destruct (Z.leb_spec (vx v2) (vx v1)) | destruct (Z.ltb_spec (vx v2) (vx v0))];
    repeat match goal with |- context [if ?b then _ else _] => destruct b end;
    cbn; (split; [reflexivity | lia]).
Qed.

Lemma sort_vertices_core_colour (v0 v1 v2 : Vertex) :
  colour_u8 v0 -> colour_u8 v1 -> colour_u8 v2 ->
  let '(a, b, d, core_vertex) := sort_vertices v0 v1 v2 in
  colour_u8 (vertex_at (a, b, d) core_vertex).
Proof.
  intros H0 H1 H2. pose proof (sort_vertices_core v0 v1 v2) as Hcore.
  destruct (sort_vertices v0 v1 v2) as [[[a b] d] core_vertex].
  destruct Hcore as (-> & _).
  destruct (_ <=? _); [destruct (_ <=? _) | destruct (_ <? _)]; assumption.
Qed.

Lemma triangle_ig_channels (sh tx : bool) (idl : i_deltas) (cv : Vertex) :
  let from flag a d_dx d_dy :=
    stepped flag (stepped flag a d_dx (- vx cv)) d_dy (- vy cv) in
  triangle_ig sh tx idl cv
  = {| ig_u := from tx (if tx then attribute_origin (vu cv) else 0) (du_dx idl) (du_dy idl);
       ig_v := from tx (if tx then attribute_origin (vv cv) else 0) (dv_dx idl) (dv_dy idl);
       ig_r := from sh (attribute_origin (vr cv)) (dr_dx idl) (dr_dy idl);
       ig_g := from sh (attribute_origin (vg cv)) (dg_dx idl) (dg_dy idl);
       ig_b := from sh (attribute_origin (vb cv)) (db_dx idl) (db_dy idl) |}.
Proof.
  cbv zeta. unfold triangle_ig. now rewrite AddIDeltas_DX_stepped, AddIDeltas_DY_stepped.
Qed.

Lemma constant_attribute (flag : bool) (a d_dx d_dy x0 y0 k1 y k2 : Z) :
  0 <= a < 256 ->
  flag = false \/ (d_dx = 0 /\ d_dy = 0) ->
  attr (stepped flag
          (stepped flag
             (stepped flag
                (stepped flag (stepped flag (attribute_origin a) d_dx x0) d_dy y0)
                d_dx k1) d_dy y) d_dx k2)
  = a.
Proof.
  intros Ha H. transitivity (attr (attribute_origin a)); [| now apply attr_origin].
  f_equal. destruct flag; [| reflexivity].
  destruct H as [H | [-> ->]]; [discriminate |].
  unfold stepped. now rewrite !Z.mul_0_l, !Z.add_0_r, !attribute_origin_u32.
Qed.

Section TriangleColour.

Variable g_drawing_area : DrawingArea.
Variables shading_enable texture_enable : bool.
Variable cmd : GPUBackendDrawCommand.

(** With shading off, or with three vertices of one colour, every call has
    the colour of the core vertex. *)
Lemma DrawTriangle_calls_constant (v0 v1 v2 : Vertex) (c : PixelCall) :
  In c (DrawTriangle_calls g_drawing_area shading_enable texture_enable cmd v0 v1 v2) ->
  let '(a, b, d, core_vertex) := sort_vertices v0 v1 v2 in
  colour_u8 (vertex_at (a, b, d) core_vertex) ->
  shading_enable = false \/ (same_colour a b /\ same_colour b d) ->
  shaded_with (vertex_at (a, b, d) core_vertex) c.
Proof.
  intros Hin. apply DrawTriangle_calls_span in Hin.
  destruct (sort_vertices v0 v1 v2) as [[[a b] d] core_vertex].
  destruct Hin as (idl & y & x_start & x_bound & Hidl & Hc & _).
  intros (Hr & Hg & Hb) Hflat.
  apply DrawSpan_calls_stepped in Hc. destruct Hc as (k1 & k2 & _ & Hc).
  cbv zeta in Hc. rewrite triangle_ig_channels in Hc. cbv zeta in Hc.
  cbn [ig_r ig_g ig_b] in Hc. destruct Hc as (Hpr & Hpg & Hpb & _).
  assert (Hz : shading_enable = false
               \/ (dr_dx idl = 0 /\ dr_dy idl = 0) /\ (dg_dx idl = 0 /\ dg_dy idl = 0)
                  /\ (db_dx idl = 0 /\ db_dy idl = 0)).
  { destruct Hflat as [-> | [(Er & Eg & Eb) (Er' & Eg' & Eb')]]; [now left | right].
    unfold CalcIDeltas in Hidl. destruct (_ =? 0); [discriminate |].
    injection Hidl as <-. cbn [dr_dx dr_dy dg_dx dg_dy db_dx db_dy].
    destruct shading_enable; [| tauto].
    repeat split; apply gradient_zero; rewrite CALCIS_wrap;
      rewrite ?Er, ?Eg, ?Eb, ?Er', ?Eg', ?Eb';
      match goal with |- s32 ?e = 0 => replace e with 0 by ring end; reflexivity. }
  unfold shaded_with. rewrite Hpr, Hpg, Hpb.
  repeat split; apply constant_attribute; try assumption; tauto.
Qed.

End TriangleColour.

(** X22. Flat triangle colour: with shading off every pixel of a triangle
    is shaded with the colour of one vertex, [vertices[core_vertex]] of the
    sorted array.  That is the vertex the comparisons of [x] at the head of
    [DrawTriangle] select among the three as they are given: when
    [v1.x <= v0.x], [v2] if [v2.x <= v1.x] and [v1] if not; otherwise [v2]
    if [v2.x < v0.x] and [v0] if not.  It is a vertex of smallest [x]; the
    other two colours are not used. *)
Theorem flat_triangle_colour (g_drawing_area : DrawingArea) (texture_enable : bool)
    (cmd : GPUBackendDrawCommand) (v0 v1 v2 : Vertex) :
  colour_u8 v0 -> colour_u8 v1 -> colour_u8 v2 ->
  let '(a, b, d, core_vertex) := sort_vertices v0 v1 v2 in
  let cv := vertex_at (a, b, d) core_vertex in
  cv = (if vx v1 <=? vx v0 then (if vx v2 <=? vx v1 then v2 else v1)
        else if vx v2 <? vx v0 then v2 else v0)
  /\ vx cv <= vx v0 /\ vx cv <= vx v1 /\ vx cv <= vx v2
  /\ Forall (shaded_with cv)
       (DrawTriangle_calls g_drawing_area false texture_enable cmd v0 v1 v2).
Proof.
  intros H0 H1 H2.
  pose proof (sort_vertices_core v0 v1 v2) as Hcore.
  pose proof (sort_vertices_core_colour v0 v1 v2 H0 H1 H2) as Hcol.
  pose proof (DrawTriangle_calls_constant g_drawing_area false texture_enable cmd v0 v1 v2)
    as Hconst.
  destruct (sort_vertices v0 v1 v2) as [[[a b] d] core_vertex].
  destruct Hcore as (Hcv & Hx0 & Hx1 & Hx2). cbv zeta.
  split; [exact Hcv |]. split; [exact Hx0 |]. split; [exact Hx1 |]. split; [exact Hx2 |].
  apply Forall_forall. intros c Hc. apply (Hconst c Hc); [exact Hcol | now left].
Qed.

Lemma flat_triangle_colour_witness :
  tri_A = tri_A
  /\ vx tri_A <= vx tri_A /\ vx tri_A <= vx tri_B /\ vx tri_A <= vx tri_C
  /\ Forall (shaded_with tri_A)
       (DrawTriangle_calls full_area false false plain_cmd tri_A tri_B tri_C).
Proof.
  apply (flat_triangle_colour full_area false plain_cmd tri_A tri_B tri_C);
    unfold colour_u8; cbn; lia.
Defined.

(** The triangle of the witness takes the red of its first vertex, 40; the
    80 and 120 of the other two are not used. *)
Example flat_triangle_pixels :
  map (fun c => (pc_x c, pc_y c, pc_r c))
    (DrawTriangle_calls full_area false false plain_cmd tri_A tri_B tri_C)
  = [(0, 0, 40); (1, 0, 40); (2, 0, 40); (3, 0, 40); (0, 1, 40); (1, 1, 40); (2, 1, 40);
     (0, 2, 40); (1, 2, 40); (0, 3, 40)].
Proof. vm_compute. reflexivity. Qed.

(** The same triangle given from its last vertex: [tri_C] and [tri_A] are
    both leftmost, and now [tri_C] comes first and gives its red, 120; the
    rows are drawn from the bottom. *)
Example flat_triangle_reversed :
  map (fun c => (pc_x c, pc_y c, pc_r c))
    (DrawTriangle_calls full_area false false plain_cmd tri_C tri_B tri_A)
  = [(0, 3, 120); (0, 2, 120); (1, 2, 120); (0, 1, 120); (1, 1, 120); (2, 1, 120);
     (0, 0, 120); (1, 0, 120); (2, 0, 120); (3, 0, 120)].
Proof. vm_compute. reflexivity. Qed.

(** X23. One-colour triangle: a triangle whose three vertices have the same
    colour is shaded with that colour at every pixel, with shading on as
    with shading off: the colour gradients are zero and the accumulators
    return the colour they were loaded with. *)
Theorem uniform_triangle_colour (g_drawing_area : DrawingArea)
    (shading_enable texture_enable : bool) (cmd : GPUBackendDrawCommand)
    (v0 v1 v2 : Vertex) :
  colour_u8 v0 -> same_colour v1 v0 -> same_colour v2 v0 ->
  Forall (shaded_with v0)
    (DrawTriangle_calls g_drawing_area shading_enable texture_enable cmd v0 v1 v2).
Proof.
  intros H0 (Er1 & Eg1 & Eb1) (Er2 & Eg2 & Eb2).
  pose proof (sort_vertices_core v0 v1 v2) as Hcore.
  pose proof (sort_vertices_perm6 v0 v1 v2) as Hperm.
  pose proof (DrawTriangle_calls_constant g_drawing_area shading_enable texture_enable cmd
                v0 v1 v2) as Hconst.
  destruct (sort_vertices v0 v1 v2) as [[[a b] d] core_vertex].
  destruct Hcore as (Hin & _).
  apply Forall_forall. intros c Hc. specialize (Hconst c Hc).
  assert (Hall : forall v, In v [v0; v1; v2] -> same_colour v v0).
  { intros v [<- | [<- | [<- | []]]]; unfold same_colour; auto. }
  assert (Hcv : same_colour (vertex_at (a, b, d) core_vertex) v0).
  { rewrite Hin. destruct (_ <=? _); [destruct (_ <=? _) | destruct (_ <? _)];
      apply Hall; cbn; auto. }
  assert (Hs : shaded_with (vertex_at (a, b, d) core_vertex) c).
  { apply Hconst.
    - unfold colour_u8 in *. destruct Hcv as (-> & -> & ->). exact H0.
    - right.
      assert (Ha : same_colour a v0 /\ same_colour b v0 /\ same_colour d v0).
      { destruct Hperm as [E | [E | [E | [E | [E | E]]]]]; inversion E; subst;
          repeat split; auto. }
      unfold same_colour in *. intuition congruence. }
  destruct Hcv as (Er & Eg & Eb), Hs as (Hr & Hg & Hb).
  unfold shaded_with. rewrite Hr, Hg, Hb. auto.
Qed.

Lemma uniform_triangle_colour_witness :
  Forall (shaded_with red_A)
    (DrawTriangle_calls full_area true false plain_cmd red_A red_B red_C).
Proof.
  apply (uniform_triangle_colour full_area true false plain_cmd red_A red_B red_C);
    unfold colour_u8, same_colour; cbn; lia.
Defined.

Lemma min3_max3_perm (f : Vertex -> Z) (v0 v1 v2 : Vertex) :
  let '(a, b, d, _) := sort_vertices v0 v1 v2 in
  min3 (f a) (f b) (f d) = min3 (f v0) (f v1) (f v2)
  /\ max3 (f a) (f b) (f d) = max3 (f v0) (f v1) (f v2).
Proof.
  pose proof (sort_vertices_perm6 v0 v1 v2) as Hp.
  destruct (sort_vertices v0 v1 v2) as [[[a b] d] core_vertex].
  unfold min3, max3.
  destruct Hp as [E | [E | [E | [E | [E | E]]]]]; inversion E; subst; lia.
Qed.

(** X24. Triangle columns: with vertex positions in the 11-bit range, and
    the left and right bounds of the drawing area at most [2^30] in
    magnitude, every pixel a triangle shades is in a column [x] with
    [min x <= x < max x] over its three vertices, the rightmost column
    excluded: each edge coordinate, stepped row by row in fixed point, stays
    between the columns of the edge's two ends. *)
Theorem triangle_columns (g_drawing_area : DrawingArea)
    (shading_enable texture_enable : bool) (cmd : GPUBackendDrawCommand)
    (v0 v1 v2 : Vertex) :
  area_bounded g_drawing_area ->
  position_11bit v0 -> position_11bit v1 -> position_11bit v2 ->
  Forall (fun c => min3 (vx v0) (vx v1) (vx v2) <= pc_x c < max3 (vx v0) (vx v1) (vx v2))
    (DrawTriangle_calls g_drawing_area shading_enable texture_enable cmd v0 v1 v2).
Proof.
  intros Ha H0 H1 H2. apply Forall_forall. intros c Hin.
  apply DrawTriangle_calls_span_11bit in Hin.
  pose proof (sort_vertices_11bit v0 v1 v2 H0 H1 H2) as H11.
  pose proof (min3_max3_perm vx v0 v1 v2) as Hmm.
  destruct (sort_vertices v0 v1 v2) as [[[a b] d] core_vertex].
  destruct H11 as (Pa & Pb & Pd). destruct Hmm as [<- <-].
  destruct Hin as (idl & y & x_start & x_bound & _ & Hc & Hb).
  specialize (Hb Pa Pb Pd).
  destruct Pa as [Pa _], Pb as [Pb _], Pd as [Pd _]. unfold min3, max3 in *.
  assert (Hw : s32 (x_bound - x_start) = x_bound - x_start) by (apply s32_small; lia).
  apply DrawSpan_calls_range in Hc; [| exact Ha | lia].
  rewrite Hw, TruncateGPUVertexPosition_small in Hc by lia. lia.
Qed.

Lemma triangle_columns_witness :
  Forall (fun c => min3 (vx tri_A) (vx tri_B) (vx tri_C) <= pc_x c
                   < max3 (vx tri_A) (vx tri_B) (vx tri_C))
    (DrawTriangle_calls full_area true false plain_cmd tri_A tri_B tri_C).
Proof.
  apply (triangle_columns full_area true false plain_cmd tri_A tri_B tri_C);
    [ unfold area_bounded; vm_compute; repeat split; discriminate
    | unfold position_11bit; cbn; lia
    | unfold position_11bit; cbn; lia
    | unfold position_11bit; cbn; lia ].
Defined.

Lemma u32_add_idemp (a b : Z) : u32 (u32 a + b) = u32 (a + b).
Proof. unfold u32. now rewrite Z.add_mod_idemp_l by lia. Qed.

Lemma plane_stepped (flag : bool) (a d_dx d_dy x0 y0 k1 y k2 : Z) :
  attr (stepped flag
          (stepped flag
             (stepped flag
                (stepped flag (stepped flag (attribute_origin a) d_dx (- x0)) d_dy (- y0))
                d_dx k1) d_dy y) d_dx k2)
  = plane flag a d_dx d_dy (k1 + k2 - x0) (y - y0).
Proof.
  unfold plane, stepped. destruct flag; [| reflexivity].
  repeat (rewrite u32_add_idemp; rewrite <- ?Z.add_assoc).
  do 2 f_equal. ring.
Qed.

Lemma u32_eq_wrap (x x' : Z) : u32 x = u32 x' -> exists k, x = x' + k * 2 ^ 32.
Proof.
  unfold u32. rewrite !Z.mod_eq by lia. intros E.
  exists (x / 2 ^ 32 - x' / 2 ^ 32). lia.
Qed.

(** The plane is taken modulo [2^32]: so is its argument [x]. *)
Lemma plane_congr (flag : bool) (a d_dx d_dy x x' y : Z) :
  u32 x = u32 x' -> plane flag a d_dx d_dy x y = plane flag a d_dx d_dy x' y.
Proof.
  intros E. apply u32_eq_wrap in E. destruct E as (k & ->).
  unfold plane. destruct flag; [| reflexivity]. f_equal.
  apply (u32_congr _ _ (d_dx * k)). ring.
Qed.

(** X25. Triangle interpolation: with vertex positions in the 11-bit range,
    the colour (and, with texture on, the texture coordinates) handed to
    the shader at a pixel of a triangle is bits 24 to 31 of
    [origin + d/dx * (x - cv.x) + d/dy * (y - cv.y)] modulo [2^32], where
    [cv] is the core vertex, [origin] its attribute in fixed point with one
    half added, and the deltas are those of [CalcIDeltas]; with shading off
    it is the core vertex's colour; when [CalcIDeltas] fails no pixel is
    shaded. *)
Theorem triangle_interpolation (g_drawing_area : DrawingArea)
    (shading_enable texture_enable : bool) (cmd : GPUBackendDrawCommand)
    (v0 v1 v2 : Vertex) :
  position_11bit v0 -> position_11bit v1 -> position_11bit v2 ->
  let '(a, b, d, core_vertex) := sort_vertices v0 v1 v2 in
  let cv := vertex_at (a, b, d) core_vertex in
  match CalcIDeltas shading_enable texture_enable a b d with
  | None =>
      DrawTriangle_calls g_drawing_area shading_enable texture_enable cmd v0 v1 v2 = []
  | Some idl =>
      Forall
        (fun c =>
           let x := pc_x c - vx cv in
           let y := pc_y c - vy cv in
           pc_r c = plane shading_enable (vr cv) (dr_dx idl) (dr_dy idl) x y
           /\ pc_g c = plane shading_enable (vg cv) (dg_dx idl) (dg_dy idl) x y
           /\ pc_b c = plane shading_enable (vb cv) (db_dx idl) (db_dy idl) x y
           /\ (texture_enable = true ->
               pc_u c = plane true (vu cv) (du_dx idl) (du_dy idl) x y
               /\ pc_v c = plane true (vv cv) (dv_dx idl) (dv_dy idl) x y))
        (DrawTriangle_calls g_drawing_area shading_enable texture_enable cmd v0 v1 v2)
  end.
Proof.
  intros H0 H1 H2.
  pose proof (sort_vertices_11bit v0 v1 v2 H0 H1 H2) as H11.
  pose proof (fun c => DrawTriangle_calls_span_11bit g_drawing_area shading_enable
                         texture_enable cmd v0 v1 v2 c) as Hspan.
  destruct (sort_vertices v0 v1 v2) as [[[a b] d] core_vertex].
  destruct H11 as (Pa & Pb & Pd).
  intros cv. destruct (CalcIDeltas shading_enable texture_enable a b d) as [idl |] eqn:Hidl.
  - apply Forall_forall. intros c Hin.
    destruct (Hspan c Hin) as (idl' & y & x_start & x_bound & Hidl' & Hc & Hb).
    injection Hidl' as <-.
    destruct (Hb Pa Pb Pd) as [Hs _].
    assert (Hx : - 1024 <= x_start <= 1023)
      by (destruct Pa, Pb, Pd; unfold min3, max3 in Hs; lia).
    pose proof (DrawSpan_calls_row _ _ _ _ _ _ _ _ _ _ Hc) as [Hy _].
    apply DrawSpan_calls_stepped in Hc. destruct Hc as (k1 & k2 & Hk & Hc).
    specialize (Hk Hx). cbv zeta in Hc. rewrite triangle_ig_channels in Hc. cbv zeta in Hc.
    cbn [ig_u ig_v ig_r ig_g ig_b] in Hc. fold cv in Hc.
    destruct Hc as (Hr & Hg & Hbl & Hu & Hv).
    assert (Hk' : u32 (k1 + k2 - vx cv) = u32 (pc_x c - vx cv)).
    { apply u32_eq_wrap in Hk. destruct Hk as (k & Hk).
      apply (u32_congr _ _ k). lia. }
    assert (Hp : forall flag a d_dx d_dy y',
               plane flag a d_dx d_dy (k1 + k2 - vx cv) y'
               = plane flag a d_dx d_dy (pc_x c - vx cv) y')
      by (intros; apply plane_congr; exact Hk').
    rewrite plane_stepped, Hp, <- Hy in Hr, Hg, Hbl.
    cbv zeta. split; [exact Hr | split; [exact Hg | split; [exact Hbl |]]].
    intros Ht. rewrite Ht in Hu, Hv.
    rewrite plane_stepped, Hp, <- Hy in Hu, Hv.
    split; assumption.
  - destruct (DrawTriangle_calls g_drawing_area shading_enable texture_enable cmd v0 v1 v2)
      as [| c l]; [reflexivity | exfalso].
    destruct (Hspan c (or_introl eq_refl)) as (idl & _ & _ & _ & Hidl' & _).
    discriminate.
Qed.

Lemma triangle_interpolation_witness :
  Forall
    (fun c =>
       let x := pc_x c - vx tri_A in
       let y := pc_y c - vy tri_A in
       pc_r c = plane true (vr tri_A) (dr_dx tri_idl) (dr_dy tri_idl) x y
       /\ pc_g c = plane true (vg tri_A) (dg_dx tri_idl) (dg_dy tri_idl) x y
       /\ pc_b c = plane true (vb tri_A) (db_dx tri_idl) (db_dy tri_idl) x y
       /\ (false = true ->
           pc_u c = plane true (vu tri_A) (du_dx tri_idl) (du_dy tri_idl) x y
           /\ pc_v c = plane true (vv tri_A) (dv_dx tri_idl) (dv_dy tri_idl) x y))
    (DrawTriangle_calls full_area true false plain_cmd tri_A tri_B tri_C).
Proof.
  apply (triangle_interpolation full_area true false plain_cmd tri_A tri_B tri_C);
    unfold position_11bit; cbn; lia.
Defined.

(** The triangle of the witness with shading on: its red rises by 10 per
    column and by 20 per row from the 40 of the core vertex at (0, 0). *)
Example gouraud_triangle_pixels :
  map (fun c => (pc_x c, pc_y c, pc_r c))
    (DrawTriangle_calls full_area true false plain_cmd tri_A tri_B tri_C)
  = [(0, 0, 40); (1, 0, 50); (2, 0, 60); (3, 0, 70); (0, 1, 60); (1, 1, 70); (2, 1, 80);
     (0, 2, 80); (1, 2, 90); (0, 3, 100)].
Proof. vm_compute. reflexivity. Qed.

(** ** Textured pixels *)

Lemma color_pack (lr lg lb m : Z) :
  0 <= lr < 32 -> 0 <= lg < 32 -> 0 <= lb < 32 -> 0 <= m <= 1 ->
  Truncate16
    (Z.lor (Z.lor (Z.lor (Z.shiftl lr 0) (Z.shiftl lg 5)) (Z.shiftl lb 10)) (pack 0 0 0 m))
  = pack lr lg lb m.
Proof.
  intros Hr Hg Hb Hm.
  rewrite Z.shiftl_0_r, !Z.shiftl_mul_pow2 by lia.
  replace lr with (pack lr 0 0 0) at 1 by (unfold pack; lia).
  replace (lg * 2 ^ 5) with (pack 0 lg 0 0) by (unfold pack; lia).
  replace (lb * 2 ^ 10) with (pack 0 0 lb 0) by (unfold pack; lia).
  do 3 (rewrite lor_pack by lia; rewrite ?Z.lor_0_r, ?Z.lor_0_l).
  unfold Truncate16. apply Z.mod_small. unfold pack. lia.
Qed.

Lemma flag_pack (r g b m : Z) :
  0 <= r < 32 -> 0 <= g < 32 -> 0 <= b < 32 -> 0 <= m <= 1 ->
  Z.land (pack r g b m) 0x8000 = pack 0 0 0 m.
Proof.
  intros Hr Hg Hb Hm. change 0x8000 with (pack 0 0 0 1).
  rewrite land_pack, !Z.land_0_r by lia. f_equal.
  assert (m = 0 \/ m = 1) as [-> | ->] by lia; reflexivity.
Qed.

(** X26. Textured pixel: for a non-zero 16-bit texel over a 16-bit background
    word that passes the mask test, a textured shader invocation stores,
    OR-ed with [MaskOR], the word whose bit 15 is the texel's and whose
    channels are the texel's (raw texture) or the table values at
    [(texel channel * colour) >> 4] (modulated, when these are 5-bit
    values), blended with the background's channels in the command's mode
    only when transparency is on and the texel's bit 15 is set. *)
Theorem textured_pixel (g_dither_lut : DitherLUT)
    (raw_texture_enable transparency_enable dithering_enable : bool)
    (cmd : GPUBackendDrawCommand) (x y r g b u v : Z) (vram : VRAM) :
  let dither_y := if dithering_enable then Z.land y 3 else 2 in
  let dither_x := if dithering_enable then Z.land x 3 else 3 in
  let texel := texture_color cmd vram u v in
  let flag := texel / 32768 in
  let modulated k colour :=
    if raw_texture_enable then channel k texel
    else g_dither_lut dither_y dither_x (Z.shiftr (channel k texel * colour) 4) in
  let bg := GetPixel vram x y in
  let mix f k :=
    if transparency_enable && (flag =? 1)
    then blend_channel (transparency_mode cmd) f (channel k bg)
    else f in
  0 < texel < 65536 ->
  (raw_texture_enable = false ->
   0 <= modulated 0 r < 32 /\ 0 <= modulated 1 g < 32 /\ 0 <= modulated 2 b < 32) ->
  0 <= bg < 65536 ->
  Z.land bg (MaskAND cmd) = 0 ->
  GetPixel (ShadePixel g_dither_lut true raw_texture_enable transparency_enable
              dithering_enable cmd x y r g b u v vram) x y
  = Truncate16
      (Z.lor (pack (mix (modulated 0 r) 0) (mix (modulated 1 g) 1) (mix (modulated 2 b) 2) flag)
         (MaskOR cmd)).
Proof.
  intros dither_y dither_x texel flag modulated bg mix Ht Hlut Hbg Hmask.
  destruct (word_unpack texel ltac:(lia)) as (Et & Ht0 & Ht1 & Ht2 & Htm).
  fold flag in Et, Htm.
  assert (Hmod : 0 <= modulated 0 r < 32 /\ 0 <= modulated 1 g < 32
                 /\ 0 <= modulated 2 b < 32).
  { destruct raw_texture_enable eqn:Hraw; [subst modulated; cbv beta; auto |].
    now apply Hlut. }
  destruct Hmod as (Hr & Hg & Hb).
  assert (Hcolor :
            shade_color g_dither_lut true raw_texture_enable transparency_enable
              dithering_enable cmd vram x y r g b u v
            = Some (pack (modulated 0 r) (modulated 1 g) (modulated 2 b) flag)).
  { unfold shade_color. fold dither_y dither_x texel.
    destruct (Z.eqb_spec texel 0); [lia |].
    subst modulated. cbv beta in *. destruct raw_texture_enable.
    - f_equal. exact Et.
    - f_equal.
      change (Z.land texel 31) with (channel 0 texel) at 1.
      change (Z.land (Z.shiftr texel 5) 31) with (channel 1 texel).
      change (Z.land (Z.shiftr texel 10) 31) with (channel 2 texel).
      rewrite Et at 4. rewrite flag_pack by assumption.
      now apply color_pack. }
  unfold ShadePixel. rewrite Hcolor. fold bg. rewrite Hmask. cbn [Z.eqb negb].
  unfold GetPixel, SetPixel. rewrite Z.eqb_refl. do 2 f_equal.
  unfold apply_transparency, mix. destruct transparency_enable; [| reflexivity].
  cbn [negb orb andb]. rewrite orb_false_r, flag_pack by assumption.
  assert (flag = 0 \/ flag = 1) as [E | E] by lia; rewrite E; cbn [Z.eqb negb pack];
    [reflexivity |].
  change (Z.eqb (0 + 32 * (0 + 32 * (0 + 32 * 1))) 0) with false. cbn [negb].
  destruct (word_unpack bg Hbg) as (Eb & Hb0 & Hb1 & Hb2 & Hbm).
  rewrite Eb at 1.
  now rewrite blend_pack by assumption.
Qed.

Lemma textured_pixel_witness :
  GetPixel (ShadePixel plain_lut true true true false plain_cmd 50 50 0 0 0 0 0
              texture_vram) 50 50
  = 0xBDEF.
Proof.
  apply (textured_pixel plain_lut true true false plain_cmd 50 50 0 0 0 0 0 texture_vram);
    vm_compute; try reflexivity; try discriminate; split; discriminate || reflexivity.
Defined.

(** ** The iterations of a line *)

Lemma line_point_at_step (sh : bool) (step : line_fxp_step) (cur : line_fxp_coord) (i : Z) :
  {| cur_x := u64 (cur_x (line_point_at sh step cur i) + dx_dk step);
     cur_y := u64 (cur_y (line_point_at sh step cur i) + dy_dk step);
     cur_r := if sh then u32 (cur_r (line_point_at sh step cur i) + dr_dk step)
              else cur_r (line_point_at sh step cur i);
     cur_g := if sh then u32 (cur_g (line_point_at sh step cur i) + dg_dk step)
              else cur_g (line_point_at sh step cur i);
     cur_b := if sh then u32 (cur_b (line_point_at sh step cur i) + db_dk step)
              else cur_b (line_point_at sh step cur i) |}
  = line_point_at sh step cur (i + 1).
Proof.
  unfold line_point_at. cbn [cur_x cur_y cur_r cur_g cur_b].
  assert (H64 : forall a d, u64 (u64 (a + i * d) + d) = u64 (a + (i + 1) * d)).
  { intros a d. unfold u64. rewrite Z.add_mod_idemp_l by lia. f_equal. ring. }
  assert (H32 : forall a d, u32 (u32 (a + i * d) + d) = u32 (a + (i + 1) * d)).
  { intros a d. unfold u32. rewrite Z.add_mod_idemp_l by lia. f_equal. ring. }
  rewrite !H64. destruct sh; [rewrite !H32 |]; reflexivity.
Qed.

(** Every call of the line loop is the call of one of its iterations, made
    at the starting point stepped that many times. *)
Lemma line_loop_iteration_from (g_drawing_area : DrawingArea) (sh : bool)
    (cmd : GPUBackendDrawCommand) (p0 : LineVertex) (step : line_fxp_step)
    (cur : line_fxp_coord) (c : PixelCall) (n : nat) (i0 : Z) :
  In c (line_loop g_drawing_area sh cmd p0 step n (line_point_at sh step cur i0)) ->
  exists i, i0 <= i < i0 + Z.of_nat n
            /\ c = line_call sh p0 (line_point_at sh step cur i).
Proof.
  revert i0. induction n as [| n IH]; intros i0 Hin; [contradiction |].
  cbn [line_loop] in Hin. apply in_app_or in Hin. destruct Hin as [Hin | Hin].
  - destruct (_ && _ && _ && _ && _); [| contradiction].
    destruct Hin as [<- | []]. exists i0. split; [lia | reflexivity].
  - rewrite line_point_at_step in Hin. apply IH in Hin.
    destruct Hin as (i & Hi & E). exists i. split; [lia | exact E].
Qed.

Lemma line_loop_iteration (g_drawing_area : DrawingArea) (sh : bool)
    (cmd : GPUBackendDrawCommand) (p0 : LineVertex) (step : line_fxp_step)
    (n : nat) (cur : line_fxp_coord) (c : PixelCall) :
  line_point_at sh step cur 0 = cur ->
  In c (line_loop g_drawing_area sh cmd p0 step n cur) ->
  exists i, 0 <= i < Z.of_nat n /\ c = line_call sh p0 (line_point_at sh step cur i).
Proof.
  intros Hnorm Hin. rewrite <- Hnorm in Hin. apply line_loop_iteration_from in Hin.
  destruct Hin as (i & Hi & E). exists i. split; [lia | exact E].
Qed.

(** A loop whose iterations are at different positions shades no position
    twice. *)
Lemma line_loop_NoDup (g_drawing_area : DrawingArea) (sh : bool)
    (cmd : GPUBackendDrawCommand) (p0 : LineVertex) (step : line_fxp_step)
    (cur : line_fxp_coord) (n : nat) (i0 : Z) :
  (forall i j, i0 <= i < j -> j < i0 + Z.of_nat n ->
               position (line_call sh p0 (line_point_at sh step cur i))
               <> position (line_call sh p0 (line_point_at sh step cur j))) ->
  NoDup (map position
           (line_loop g_drawing_area sh cmd p0 step n (line_point_at sh step cur i0))).
Proof.
  revert i0. induction n as [| n IH]; intros i0 Hinj; [constructor |].
  cbn [line_loop]. rewrite map_app. apply NoDup_app.
  - destruct (_ && _ && _ && _ && _); cbn [map]; repeat constructor. intros [].
  - rewrite line_point_at_step. apply IH. intros i j Hi Hj. apply Hinj; lia.
  - intros p H1 H2. rewrite line_point_at_step in H2.
    apply in_map_iff in H2. destruct H2 as (c & Ec & Hc).
    apply line_loop_iteration_from in Hc. destruct Hc as (j & Hj & ->).
    destruct (_ && _ && _ && _ && _); [| contradiction].
    destruct H1 as [<- | []].
    apply (Hinj i0 j); [lia | lia | now symmetry].
Qed.

Lemma DrawLine_calls_loop (g_drawing_area : DrawingArea) (sh : bool)
    (cmd : GPUBackendDrawCommand) (p0 p1 : LineVertex) :
  DrawLine_calls g_drawing_area sh cmd p0 p1
  = if (u32 (abs32 (s32 (lx p1 - lx p0))) >=? MAX_PRIMITIVE_WIDTH)
       || (u32 (abs32 (s32 (ly p1 - ly p0))) >=? MAX_PRIMITIVE_HEIGHT)
    then []
    else
      let k := line_length p0 p1 in
      let q := line_endpoints p0 p1 k in
      let step := line_step sh (fst q) (snd q) k in
      line_loop g_drawing_area sh cmd (fst q) step (Z.to_nat (k + 1))
        (line_start sh (fst q) step).
Proof.
  unfold DrawLine_calls, line_length. destruct (_ || _); [reflexivity |].
  cbv zeta. destruct (line_endpoints _ _ _) as [q0 q1]. cbn [fst snd].
  unfold line_step, line_start. destruct (_ =? 0); reflexivity.
Qed.

Lemma line_start_normal (sh : bool) (p0 : LineVertex) (step step' : line_fxp_step) :
  line_point_at sh step' (line_start sh p0 step) 0 = line_start sh p0 step.
Proof.
  unfold line_point_at, line_start. cbn [cur_x cur_y cur_r cur_g cur_b].
  rewrite !Z.mul_0_l, !Z.add_0_r.
  assert (H64 : forall z, u64 (u64 z) = u64 z) by (intros; apply Z.mod_mod; lia).
  assert (H32 : forall z, u32 (u32 z) = u32 z) by (intros; apply Z.mod_mod; lia).
  rewrite H64. destruct (dy_dk step <? 0); rewrite H64;
    (destruct sh; [rewrite !H32 |]; reflexivity).
Qed.

(** The two differences of a line that passes the size tests, as the code
    takes them: small, and [k] is the larger of their magnitudes. *)
Lemma line_length_bounds (p0 p1 : LineVertex) :
  (u32 (abs32 (s32 (lx p1 - lx p0))) >=? MAX_PRIMITIVE_WIDTH)
  || (u32 (abs32 (s32 (ly p1 - ly p0))) >=? MAX_PRIMITIVE_HEIGHT) = false ->
  Z.abs (s32 (lx p1 - lx p0)) < 1024 /\ Z.abs (s32 (ly p1 - ly p0)) < 512
  /\ line_length p0 p1
     = Z.max (Z.abs (s32 (lx p1 - lx p0))) (Z.abs (s32 (ly p1 - ly p0))).
Proof.
  intros Hsize. apply orb_false_iff in Hsize. destruct Hsize as [Hw Hh].
  apply size_test in Hw; [| unfold MAX_PRIMITIVE_WIDTH; lia].
  apply size_test in Hh; [| unfold MAX_PRIMITIVE_HEIGHT; lia].
  unfold MAX_PRIMITIVE_WIDTH, MAX_PRIMITIVE_HEIGHT in *.
  destruct Hw as [Hw Ew], Hh as [Hh Eh]. unfold line_length. rewrite Ew, Eh.
  destruct (Z.gtb_spec (Z.abs (s32 (lx p1 - lx p0))) (Z.abs (s32 (ly p1 - ly p0)))); lia.
Qed.

(** Every call of a line is the call of an iteration [i] of its loop,
    [0 <= i <= k]. *)
Lemma DrawLine_calls_iteration (g_drawing_area : DrawingArea) (sh : bool)
    (cmd : GPUBackendDrawCommand) (p0 p1 : LineVertex) (c : PixelCall) :
  In c (DrawLine_calls g_drawing_area sh cmd p0 p1) ->
  let k := line_length p0 p1 in
  let q := line_endpoints p0 p1 k in
  let step := line_step sh (fst q) (snd q) k in
  Z.abs (s32 (lx p1 - lx p0)) < 1024 /\ Z.abs (s32 (ly p1 - ly p0)) < 512
  /\ k = Z.max (Z.abs (s32 (lx p1 - lx p0))) (Z.abs (s32 (ly p1 - ly p0)))
  /\ exists i, 0 <= i <= k
               /\ c = line_call sh (fst q)
                        (line_point_at sh step (line_start sh (fst q) step) i).
Proof.
  rewrite DrawLine_calls_loop. intros Hin k q step.
  destruct (_ || _) eqn:Hsize; [contradiction |].
  apply line_length_bounds in Hsize. destruct Hsize as (Hw & Hh & Hk). fold k in Hk.
  cbv zeta in Hin. fold k q step in Hin.
  apply line_loop_iteration in Hin; [| apply line_start_normal].
  destruct Hin as (i & Hi & E).
  split; [assumption | split; [assumption | split; [assumption |]]].
  exists i. split; [lia | exact E].
Qed.

Lemma line_colour_origin (c : Z) :
  0 <= c < 256 ->
  u32 (Z.lor (Z.shiftl c Line_RGB_FractBits) (Z.shiftl 1 (Line_RGB_FractBits - 1)))
  = 4096 * c + 2048.
Proof.
  intros Hc. unfold Line_RGB_FractBits. rewrite Z.shiftl_mul_pow2 by lia.
  change (Z.shiftl 1 (12 - 1)) with 2048.
  replace (c * 2 ^ 12) with (0 + 2 ^ 12 * c) by lia.
  replace 2048 with (2048 + 2 ^ 12 * 0) at 1 by lia.
  rewrite (op_split Z.lor orb eq_refl Z.lor_spec 12) by lia.
  rewrite Z.lor_0_l, Z.lor_0_r. unfold u32. rewrite Z.mod_small; lia.
Qed.

(** The colour of iteration [i] of a shaded line: between the colours of the
    two ends, and equal to them at the first and at the last iteration. *)
Lemma line_colour_at (c0 c1 k i : Z) :
  0 <= c0 < 256 -> 0 <= c1 < 256 -> 0 < k < 2048 -> 0 <= i <= k ->
  let v :=
    Truncate8
      (Z.shiftr
         (u32 (u32 (Z.lor (Z.shiftl c0 Line_RGB_FractBits)
                      (Z.shiftl 1 (Line_RGB_FractBits - 1)))
               + i * line_color_step c0 c1 k))
         Line_RGB_FractBits) in
  Z.min c0 c1 <= v <= Z.max c0 c1 /\ (i = 0 -> v = c0) /\ (i = k -> v = c1).
Proof.
  intros H0 H1 Hk Hi. cbv zeta.
  rewrite line_colour_origin, line_color_step_closed by assumption.
  assert (Hq : exists q, Z.quot ((c1 - c0) * 2 ^ 12) k = q
                         /\ ((0 <= c1 - c0 /\ 0 <= q
                              /\ q * k <= (c1 - c0) * 4096 < q * k + k)
                             \/ (c1 - c0 <= 0 /\ q <= 0
                                 /\ q * k - k < (c1 - c0) * 4096 <= q * k))).
  { eexists. split; [reflexivity |].
    destruct (Z_le_gt_dec 0 (c1 - c0)) as [Hc | Hc]; [left | right].
    - rewrite Z.quot_div_nonneg by lia. split; [lia |].
      Z.div_mod_to_equations. nia.
    - replace ((c1 - c0) * 2 ^ 12) with (- ((c0 - c1) * 2 ^ 12)) by lia.
      rewrite Z.quot_opp_l, Z.quot_div_nonneg by lia. split; [lia |].
      Z.div_mod_to_equations. nia. }
  destruct Hq as (q & -> & Hq).
  assert (Hv : exists v, 4096 * v <= 4096 * c0 + 2048 + i * q < 4096 * (v + 1)
                         /\ Z.min c0 c1 <= v <= Z.max c0 c1
                         /\ (i = 0 -> v = c0) /\ (i = k -> v = c1)).
  { exists ((4096 * c0 + 2048 + i * q) / 4096).
    assert (Hiq : (0 <= c1 - c0 /\ 0 <= i * q <= (c1 - c0) * 4096)
                  \/ (c1 - c0 <= 0 /\ (c1 - c0) * 4096 <= i * q <= 0)).
    { destruct Hq as [(Hc & Hq0 & Hqk) | (Hc & Hq0 & Hqk)]; [left | right];
        (split; [exact Hc |]).
      - assert (i * q <= k * q) by nia. nia.
      - assert (k * q <= i * q) by nia. nia. }
    split; [| split; [| split]].
    - pose proof (Z.mul_div_le (4096 * c0 + 2048 + i * q) 4096).
      pose proof (Z.mul_succ_div_gt (4096 * c0 + 2048 + i * q) 4096). lia.
    - split.
      + apply Z.div_le_lower_bound; lia.
      + assert ((4096 * c0 + 2048 + i * q) / 4096 < Z.max c0 c1 + 1)
          by (apply Z.div_lt_upper_bound; lia). lia.
    - intros ->. symmetry. apply Z.div_unique with 2048; lia.
    - intros ->. symmetry.
      apply Z.div_unique with (2048 + k * q - (c1 - c0) * 4096); [| ring].
      destruct Hq as [Hq | Hq]; nia. }
  destruct Hv as (v & Hv & Hrange & Hfirst & Hlast).
  assert (Ev : Truncate8 (Z.shiftr (u32 (4096 * c0 + 2048 + i * q)) Line_RGB_FractBits) = v).
  { unfold u32, Truncate8, Line_RGB_FractBits.
    rewrite (Z.mod_small (4096 * c0 + 2048 + i * q)) by lia.
    rewrite Z.shiftr_div_pow2 by lia.
    replace ((4096 * c0 + 2048 + i * q) / 2 ^ 12) with v
      by (apply Z.div_unique with (4096 * c0 + 2048 + i * q - 4096 * v); lia).
    apply Z.mod_small. lia. }
  rewrite Ev. auto.
Qed.

Lemma LineDivide_neg_unit (k : Z) : 0 < k < 2 ^ 31 -> LineDivide (- k) k = - 2 ^ 32.
Proof.
  intros Hk. rewrite LineDivide_closed by lia.
  rewrite (proj2 (Z.sgn_neg_iff (- k))) by lia.
  match goal with |- Z.quot ?n _ = _ =>
    replace n with (- (k * 2 ^ 32 + (k - 1))) by lia end.
  rewrite Z.quot_opp_l, Z.quot_div_nonneg by lia.
  f_equal. symmetry. apply Z.div_unique with (k - 1); lia.
Qed.

Lemma line_start_small (x bias : Z) :
  0 <= bias <= 1024 ->
  u64 (2 ^ 31 + 2 ^ 32 * (x mod 2 ^ 32) - bias) = 2 ^ 31 + 2 ^ 32 * (x mod 2 ^ 32) - bias.
Proof.
  intros Hb. pose proof (Z.mod_pos_bound x (2 ^ 32) ltac:(lia)).
  apply u64_small. lia.
Qed.

(** The fixed-point coordinate after [i] unit steps, with its wrap-around. *)
Lemma line_point_step (x i bias : Z) :
  0 <= bias <= 1024 ->
  u64 (2 ^ 31 + 2 ^ 32 * (x mod 2 ^ 32) - bias + i * 2 ^ 32)
  = 2 ^ 31 + 2 ^ 32 * ((x + i) mod 2 ^ 32) - bias.
Proof.
  intros Hb. unfold u64.
  rewrite <- (Z.add_mod_idemp_l x i) by lia.
  set (a := x mod 2 ^ 32 + i).
  pose proof (Z.mod_pos_bound a (2 ^ 32) ltac:(lia)) as Hm.
  pose proof (Z.div_mod a (2 ^ 32) ltac:(lia)) as Ha.
  symmetry. apply Z.mod_unique with (a / 2 ^ 32); [lia |].
  subst a. lia.
Qed.

Section LineColours.

Variables q0 q1 : LineVertex.
Variable k : Z.

Local Abbreviation step := (line_step true q0 q1 k).
Local Abbreviation call_at :=
  (fun i => line_call true q0 (line_point_at true step (line_start true q0 step) i)).

Lemma line_call_colour (i : Z) :
  line_colour_u8 q0 -> line_colour_u8 q1 -> 0 <= k < 2048 -> 0 <= i <= k ->
  coloured_between q0 q1 (call_at i)
  /\ (i = 0 -> coloured_as q0 (call_at i))
  /\ (0 < k -> i = k -> coloured_as q1 (call_at i)).
Proof.
  intros (Hr0 & Hg0 & Hb0) (Hr1 & Hg1 & Hb1) Hk Hi.
  unfold coloured_between, coloured_as, line_call, line_point_at, line_start, line_step.
  destruct (Z.eqb_spec k 0) as [-> | Hk0];
    cbn [pc_r pc_g pc_b cur_r cur_g cur_b dr_dk dg_dk db_dk].
  - assert (i = 0) as -> by lia. cbn [Z.mul]. rewrite !Z.add_0_r.
    assert (H32 : forall z, u32 (u32 z) = u32 z) by (intros; apply Z.mod_mod; lia).
    rewrite !H32, !line_colour_origin by assumption.
    assert (Hc : forall c, 0 <= c < 256 ->
                           Truncate8 (Z.shiftr (4096 * c + 2048) Line_RGB_FractBits) = c).
    { intros c Hc. unfold Truncate8, Line_RGB_FractBits.
      rewrite Z.shiftr_div_pow2 by lia.
      replace ((4096 * c + 2048) / 2 ^ 12) with c
        by (apply Z.div_unique with 2048; lia).
      apply Z.mod_small. lia. }
    rewrite !Hc by assumption. repeat split; lia.
  - pose proof (line_colour_at (lr q0) (lr q1) k i Hr0 Hr1 ltac:(lia) Hi) as (Rb & Rf & Rl).
    pose proof (line_colour_at (lg q0) (lg q1) k i Hg0 Hg1 ltac:(lia) Hi) as (Gb & Gf & Gl).
    pose proof (line_colour_at (lb q0) (lb q1) k i Hb0 Hb1 ltac:(lia) Hi) as (Bb & Bf & Bl).
    cbv zeta in *. repeat split; auto; try (apply Rb || apply Gb || apply Bb).
Qed.

End LineColours.

Section LineCalls.

Variable sh : bool.
Variables q0 q1 : LineVertex.
Variable k : Z.

Local Abbreviation step := (line_step sh q0 q1 k).
Local Abbreviation call_at :=
  (fun i => line_call sh q0 (line_point_at sh step (line_start sh q0 step) i)).
Local Abbreviation dx := (s32 (lx q1 - lx q0)).
Local Abbreviation dy := (s32 (ly q1 - ly q0)).

Hypothesis Hlen : k = Z.max (Z.abs dx) (Z.abs dy).
Hypothesis Hpos : 0 < k < 2 ^ 31.

(** Along its longer axis a line advances one pixel per iteration, in the
    direction of the difference the code takes, modulo the 2048 positions of
    the [& 2047]. *)
Lemma line_call_major (i : Z) :
  (Z.abs dy < Z.abs dx -> pc_x (call_at i) = (lx q0 + Z.sgn dx * i) mod 2048)
  /\ (Z.abs dx <= Z.abs dy -> pc_y (call_at i) = (ly q0 + Z.sgn dy * i) mod 2048).
Proof.
  unfold line_call, line_point_at, line_start, line_step.
  destruct (Z.eqb_spec k 0) as [| _]; [lia |].
  cbn [pc_x pc_y cur_x cur_y dx_dk dy_dk].
  rewrite !line_origin.
  split; intros Hmaj.
  - destruct (Z_lt_le_dec 0 dx) as [Hup | Hdown].
    + replace dx with k by lia.
      rewrite LineDivide_unit by lia.
      rewrite (proj2 (Z.sgn_pos_iff k)) by lia.
      rewrite (line_start_small (lx q0) 1024) by lia.
      rewrite (line_point_step (lx q0) i 1024) by lia.
      rewrite Z.mul_1_l. apply line_pixel. lia.
    + replace dx with (- k) by lia.
      rewrite LineDivide_neg_unit by lia.
      rewrite (proj2 (Z.sgn_neg_iff (- k))) by lia.
      rewrite (line_start_small (lx q0) 1024) by lia.
      replace (i * - 2 ^ 32) with (- i * 2 ^ 32) by ring.
      rewrite (line_point_step (lx q0) (- i) 1024) by lia.
      replace (-1 * i) with (- i) by lia. apply line_pixel. lia.
  - destruct (Z_lt_le_dec 0 dy) as [Hup | Hdown].
    + replace dy with k by lia.
      rewrite LineDivide_unit by lia.
      rewrite (proj2 (Z.sgn_pos_iff k)) by lia.
      change (2 ^ 32 <? 0) with false. cbv iota.
      replace (2 ^ 31 + 2 ^ 32 * (ly q0 mod 2 ^ 32))
        with (2 ^ 31 + 2 ^ 32 * (ly q0 mod 2 ^ 32) - 0) by lia.
      rewrite (line_point_step (ly q0) i 0) by lia.
      rewrite Z.mul_1_l. apply line_pixel. lia.
    + replace dy with (- k) by lia.
      rewrite LineDivide_neg_unit by lia.
      rewrite (proj2 (Z.sgn_neg_iff (- k))) by lia.
      change (- 2 ^ 32 <? 0) with true. cbv iota.
      rewrite (line_start_small (ly q0) 1024) by lia.
      replace (i * - 2 ^ 32) with (- i * 2 ^ 32) by ring.
      rewrite (line_point_step (ly q0) (- i) 1024) by lia.
      replace (-1 * i) with (- i) by lia. apply line_pixel. lia.
Qed.

End LineCalls.

Lemma line_length_sym (p0 p1 : LineVertex) : line_length p0 p1 = line_length p1 p0.
Proof.
  unfold line_length.
  now rewrite (abs32_sym (lx p0) (lx p1)), (abs32_sym (ly p0) (ly p1)).
Qed.

(** The endpoints after the swap: the same two, the first not right of the
    second when the line has more than one pixel. *)
Lemma line_endpoints_ordered (p0 p1 : LineVertex) :
  let k := line_length p0 p1 in
  let q := line_endpoints p0 p1 k in
  (q = (p0, p1) \/ q = (p1, p0))
  /\ k = line_length (fst q) (snd q)
  /\ (0 < k -> lx (fst q) <= lx (snd q)).
Proof.
  cbv zeta. unfold line_endpoints.
  destruct (Z.geb_spec (lx p0) (lx p1)); destruct (Z.gtb_spec (line_length p0 p1) 0);
    cbn [andb fst snd]; repeat split; auto using line_length_sym; lia.
Qed.

(** After the swap the differences have the same magnitudes. *)
Lemma line_endpoints_extents (p0 p1 : LineVertex) (k : Z) :
  let q := line_endpoints p0 p1 k in
  Z.abs (s32 (lx (snd q) - lx (fst q))) = Z.abs (s32 (lx p1 - lx p0))
  /\ Z.abs (s32 (ly (snd q) - ly (fst q))) = Z.abs (s32 (ly p1 - ly p0)).
Proof.
  cbv zeta. unfold line_endpoints. destruct (_ && _); cbn [fst snd]; [| auto].
  assert (H : forall a b, Z.abs (s32 (a - b)) = Z.abs (s32 (b - a))).
  { intros a b. pose proof (s32_range (a - b)). pose proof (s32_range (b - a)).
    pose proof (s32_wrap (a - b)). pose proof (s32_wrap (b - a)). lia. }
  split; apply H.
Qed.

(** A line's calls are at different positions. *)
Lemma DrawLine_calls_NoDup (g_drawing_area : DrawingArea) (shading_enable : bool)
    (cmd : GPUBackendDrawCommand) (p0 p1 : LineVertex) :
  NoDup (map position (DrawLine_calls g_drawing_area shading_enable cmd p0 p1)).
Proof.
  rewrite DrawLine_calls_loop.
  destruct (_ || _) eqn:Hsize; [constructor |].
  apply line_length_bounds in Hsize. destruct Hsize as (Hw & Hh & Hk).
  cbv zeta.
  pose proof (line_endpoints_extents p0 p1 (line_length p0 p1)) as [Ex Ey].
  cbv zeta in Ex, Ey.
  set (k := line_length p0 p1) in *.
  set (q := line_endpoints p0 p1 k) in *.
  rewrite <- (line_start_normal shading_enable (fst q) _ (line_step shading_enable (fst q) (snd q) k)).
  apply line_loop_NoDup. intros i j Hi Hj.
  assert (Hpos : 0 < k < 2 ^ 31) by lia.
  assert (Hsmall : k < 1024) by lia.
  assert (Hlen : k = Z.max (Z.abs (s32 (lx (snd q) - lx (fst q))))
                       (Z.abs (s32 (ly (snd q) - ly (fst q))))) by lia.
  destruct (line_call_major shading_enable (fst q) (snd q) k Hlen Hpos i) as [Hxi Hyi].
  destruct (line_call_major shading_enable (fst q) (snd q) k Hlen Hpos j) as [Hxj Hyj].
  unfold position. intros E. apply pair_equal_spec in E. destruct E as [Epx Epy].
  clearbody q. clear Ex Ey Hk.
  generalize dependent (s32 (lx (snd q) - lx (fst q))).
  generalize dependent (s32 (ly (snd q) - ly (fst q))).
  intros ey ex Hlen Hxi Hyi Hxj Hyj.
  destruct (Z_lt_le_dec (Z.abs ey) (Z.abs ex)) as [Hmaj | Hmaj].
  - rewrite (Hxi Hmaj), (Hxj Hmaj) in Epx.
    destruct (Z.sgn_spec ex) as [[Hs Es] | [[Hs Es] | [Hs Es]]];
      rewrite Es in Epx; try lia; Z.div_mod_to_equations; lia.
  - rewrite (Hyi Hmaj), (Hyj Hmaj) in Epy.
    destruct (Z.sgn_spec ey) as [[Hs Es] | [[Hs Es] | [Hs Es]]];
      rewrite Es in Epy; try lia; Z.div_mod_to_equations; lia.
Qed.

(** X27. No overdraw in a line: no two shader calls of a line are at the
    same position, whatever its endpoints: each iteration advances one
    pixel along the longer axis, and fewer than 1024 iterations cannot wrap
    around the 2048 positions of the [& 2047]; so, with the drawing area
    inside VRAM, each shaded pixel holds after the draw what its one shader
    call leaves there on the VRAM before the draw. *)
Theorem line_no_overdraw (g_drawing_area : DrawingArea) (shading_enable : bool)
    (cmd : GPUBackendDrawCommand) (p0 p1 : LineVertex) :
  NoDup (map position (DrawLine_calls g_drawing_area shading_enable cmd p0 p1))
  /\ (area_in_vram g_drawing_area ->
      forall g_dither_lut transparency_enable dithering_enable vram c,
        In c (DrawLine_calls g_drawing_area shading_enable cmd p0 p1) ->
        GetPixel (DrawLine g_dither_lut g_drawing_area shading_enable transparency_enable
                    dithering_enable cmd p0 p1 vram) (pc_x c) (pc_y c)
        = GetPixel (ShadePixel g_dither_lut false false transparency_enable
                      dithering_enable cmd (pc_x c) (pc_y c) (pc_r c) (pc_g c) (pc_b c)
                      (pc_u c) (pc_v c) vram) (pc_x c) (pc_y c)).
Proof.
  split; [apply DrawLine_calls_NoDup |].
  intros Harea g_dither_lut transparency_enable dithering_enable vram c Hc.
  unfold DrawLine. apply run_calls_single_pass; [| apply DrawLine_calls_NoDup | exact Hc].
  apply (area_in_vram_calls g_drawing_area); [exact Harea |].
  apply DrawLine_calls_inside.
Qed.

Lemma line_no_overdraw_witness :
  NoDup (map position (DrawLine_calls full_area true plain_cmd line_a line_b))
  /\ GetPixel (DrawLine plain_lut full_area true true false plain_cmd line_a line_b
                 white_vram) 2 3
     = GetPixel (ShadePixel plain_lut false false true false plain_cmd 2 3 255 0 0 0 0
                   white_vram) 2 3.
Proof.
  destruct (line_no_overdraw full_area true plain_cmd line_a line_b) as [Hnd Hone].
  split; [exact Hnd |].
  apply Hone with
    (c := {| pc_x := 2; pc_y := 3; pc_r := 255; pc_g := 0; pc_b := 0; pc_u := 0; pc_v := 0 |});
    [ unfold area_in_vram; vm_compute; repeat split; discriminate
    | vm_compute; repeat ((left; reflexivity) || right) ].
Defined.

Lemma coloured_between_sym (p0 p1 : LineVertex) (c : PixelCall) :
  coloured_between p0 p1 c -> coloured_between p1 p0 c.
Proof. unfold coloured_between. lia. Qed.

(** X28. Shaded line colours: with shading on, every pixel of a line is
    shaded with a colour between the colours of the two endpoints, channel
    by channel; and when the endpoints are at different positions with
    coordinates 0 to 2047, a pixel shaded at an endpoint's position has
    exactly that endpoint's colour, whichever endpoint is given first. *)
Theorem shaded_line_colours (g_drawing_area : DrawingArea) (cmd : GPUBackendDrawCommand)
    (p0 p1 : LineVertex) :
  line_colour_u8 p0 -> line_colour_u8 p1 ->
  Forall (coloured_between p0 p1) (DrawLine_calls g_drawing_area true cmd p0 p1)
  /\ (line_position_unsigned p0 -> line_position_unsigned p1 ->
      lx p0 <> lx p1 \/ ly p0 <> ly p1 ->
      Forall (fun c => (pc_x c = lx p0 -> pc_y c = ly p0 -> coloured_as p0 c)
                       /\ (pc_x c = lx p1 -> pc_y c = ly p1 -> coloured_as p1 c))
        (DrawLine_calls g_drawing_area true cmd p0 p1)).
Proof.
  intros Hc0 Hc1.
  assert (Hall : forall c, In c (DrawLine_calls g_drawing_area true cmd p0 p1) ->
             coloured_between p0 p1 c
             /\ (line_position_unsigned p0 -> line_position_unsigned p1 ->
                 lx p0 <> lx p1 \/ ly p0 <> ly p1 ->
                 (pc_x c = lx p0 -> pc_y c = ly p0 -> coloured_as p0 c)
                 /\ (pc_x c = lx p1 -> pc_y c = ly p1 -> coloured_as p1 c))).
  { intros c Hin. apply DrawLine_calls_iteration in Hin. cbv zeta in Hin.
    destruct Hin as (Hw & Hh & Hk & i & Hi & Ec).
    pose proof (line_endpoints_ordered p0 p1) as (Hq & _ & Hord).
    pose proof (line_endpoints_extents p0 p1 (line_length p0 p1)) as [Ex Ey].
    cbv zeta in Hq, Hord, Ex, Ey.
    set (k := line_length p0 p1) in *.
    set (q := line_endpoints p0 p1 k) in *.
    assert (Hends :
              forall q0 q1, q = (q0, q1) -> line_colour_u8 q0 -> line_colour_u8 q1 ->
                coloured_between q0 q1 c
                /\ (line_position_unsigned q0 -> line_position_unsigned q1 -> 0 < k ->
                    (pc_x c = lx q0 -> pc_y c = ly q0 -> coloured_as q0 c)
                    /\ (pc_x c = lx q1 -> pc_y c = ly q1 -> coloured_as q1 c))).
    { intros q0 q1 Eq Hq0 Hq1. rewrite Eq in Ec, Hord, Ex, Ey.
      cbn [fst snd] in Ec, Hord, Ex, Ey.
      destruct (line_call_colour q0 q1 k i Hq0 Hq1 ltac:(lia) Hi) as (Hb & Hfirst & Hlast).
      rewrite <- Ec in Hb, Hfirst, Hlast. split; [exact Hb |].
      intros [Hx0 Hy0] [Hx1 Hy1] Hpos.
      assert (Hlen : k = Z.max (Z.abs (s32 (lx q1 - lx q0))) (Z.abs (s32 (ly q1 - ly q0))))
        by lia.
      destruct (line_call_major true q0 q1 k Hlen ltac:(lia) i) as [Hx Hy].
      rewrite <- Ec in Hx, Hy. specialize (Hord Hpos).
      rewrite (s32_small (lx q1 - lx q0)) in Hx, Hy, Hlen by lia.
      rewrite (s32_small (ly q1 - ly q0)) in Hx, Hy, Hlen by lia.
      destruct (Z_lt_le_dec (Z.abs (ly q1 - ly q0)) (Z.abs (lx q1 - lx q0))) as [Hmaj | Hmaj].
      - specialize (Hx Hmaj). rewrite (proj2 (Z.sgn_pos_iff (lx q1 - lx q0))) in Hx by lia.
        rewrite Z.mod_small in Hx by lia.
        split; intros Epx _; [apply Hfirst | apply Hlast]; lia.
      - specialize (Hy Hmaj).
        destruct (Z.sgn_spec (ly q1 - ly q0)) as [[Hs Es] | [[Hs Es] | [Hs Es]]];
          rewrite Es in Hy; try lia;
          rewrite Z.mod_small in Hy by lia;
          (split; intros _ Epy; [apply Hfirst | apply Hlast]; lia). }
    assert (Hpos : lx p0 <> lx p1 \/ ly p0 <> ly p1 ->
                   line_position_unsigned p0 -> line_position_unsigned p1 -> 0 < k).
    { intros Hne [Hx0 Hy0] [Hx1 Hy1].
      rewrite (s32_small (lx p1 - lx p0)), (s32_small (ly p1 - ly p0)) in Hk by lia. lia. }
    destruct Hq as [Eq | Eq].
    - destruct (Hends p0 p1 Eq Hc0 Hc1) as [Hb He]. split; [exact Hb |].
      intros P0 P1 Hne. apply He; try assumption. now apply Hpos.
    - destruct (Hends p1 p0 Eq Hc1 Hc0) as [Hb He].
      split; [now apply coloured_between_sym |].
      intros P0 P1 Hne. destruct (He P1 P0 (Hpos Hne P0 P1)) as [H1 H0]. split; assumption. }
  split; [apply Forall_forall; intros c Hin; now apply Hall |].
  intros P0 P1 Hne. apply Forall_forall. intros c Hin.
  destruct (Hall c Hin) as [_ He]. now apply He.
Qed.

Lemma shaded_line_colours_witness :
  Forall (coloured_between line_a line_b) (DrawLine_calls full_area true plain_cmd line_a line_b)
  /\ (line_position_unsigned line_a -> line_position_unsigned line_b ->
      lx line_a <> lx line_b \/ ly line_a <> ly line_b ->
      Forall (fun c => (pc_x c = lx line_a -> pc_y c = ly line_a -> coloured_as line_a c)
                       /\ (pc_x c = lx line_b -> pc_y c = ly line_b -> coloured_as line_b c))
        (DrawLine_calls full_area true plain_cmd line_a line_b)).
Proof.
  apply (shaded_line_colours full_area plain_cmd line_a line_b);
    unfold line_colour_u8; cbn; lia.
Defined.

(** The line of the witness, red at (2, 3) and green at (9, 6), and a
    vertical line, which is drawn from its second endpoint. *)
Example shaded_line_pixels :
  map (fun c => (pc_x c, pc_y c, pc_r c, pc_g c))
    (DrawLine_calls full_area true plain_cmd line_a line_b)
  = [(2, 3, 255, 0); (3, 3, 219, 36); (4, 4, 182, 73); (5, 4, 146, 109);
     (6, 5, 109, 146); (7, 5, 73, 182); (8, 6, 36, 219); (9, 6, 0, 255)].
Proof. vm_compute. reflexivity. Qed.

Example vertical_line_pixels :
  map (fun c => (pc_x c, pc_y c, pc_r c))
    (DrawLine_calls full_area true plain_cmd (mkLineVertex 5 9 10 0 0)
       (mkLineVertex 5 6 40 0 0))
  = [(5, 6, 40); (5, 7, 30); (5, 8, 20); (5, 9, 10)].
Proof. vm_compute. reflexivity. Qed.
